(** * DESS monitor: wire codecs, resolvers and estimators

    A shallow embedding of the protocol core of the home-assistant
    DESS monitor integration:

    - [aneji_modbus_provider.py]: CRC-16/MODBUS, Modbus-RTU frame
      builders, response validation and the register-block decoder;
    - [qpigs_provider.py] / [direct_coordinator.py]: the signed battery
      current resolver;
    - [debug_tty.py]: the QPIGS ASCII decoder;
    - [energy_sensors.py] / [mixin_sensors.py]: the energy accumulator
      and the state-of-charge estimator.

    Conventions.  Python [bytes] are lists of [Byte.byte]; Python [int]
    is [Z]; a raised exception is the [Err] branch of [result]; Python
    [float] is idealised as an exact rational ([Qc]): rounding, infinities
    and NaN are outside the model.  Wall-clock instants are rational
    seconds since the epoch and are passed explicitly to the functions
    that read the clock.  The state-of-charge estimator is given a second
    time on IEEE 754 binary64 ([Soc64]), where NaN and rounding are what
    they are on the machine. *)

From Stdlib Require Import ZArith List Bool Lia QArith Qcanon.
From Stdlib Require Import Strings.String Strings.Ascii Init.Byte.
From Stdlib Require Floats.SpecFloat.
From stdpp Require Import base option list gmap strings.

Local Open Scope Z_scope.

(** ** Python runtime: exceptions, bytes, struct *)

Module Py.

(** A call either returns or raises; [E] is the payload of the exception. *)
Inductive result (E A : Type) : Type :=
| Ok (a : A)
| Err (e : E).
Arguments Ok {E A} a.
Arguments Err {E A} e.

Definition bind {E A B} (r : result E A) (k : A -> result E B) : result E B :=
  match r with
  | Ok a => k a
  | Err e => Err e
  end.

Notation "x <- r ;; k" := (bind r (fun x => k))
  (at level 100, r at next level, right associativity, only parsing).

Definition is_ok {E A} (r : result E A) : bool :=
  match r with Ok _ => true | Err _ => false end.

(** [bytes] and the integer value of one of its elements. *)
Abbreviation bytes := (list byte).

Definition byte_val (b : byte) : Z := Z.of_N (Byte.to_N b).

(** The byte whose value is [z mod 256]. *)
Definition byte_of_Z (z : Z) : byte :=
  match Byte.of_N (Z.to_N (z mod 256)) with
  | Some b => b
  | None => x00
  end.

(** struct.pack('<H', v): raises struct.error unless 0 <= v <= 0xFFFF. *)
Definition pack_le_H (v : Z) : option bytes :=
  if (0 <=? v) && (v <=? 0xFFFF)
  then Some [byte_of_Z (Z.land v 0xFF); byte_of_Z (Z.shiftr v 8)]
  else None.

(** struct.pack('>H', v). *)
Definition pack_be_H (v : Z) : option bytes :=
  if (0 <=? v) && (v <=? 0xFFFF)
  then Some [byte_of_Z (Z.shiftr v 8); byte_of_Z (Z.land v 0xFF)]
  else None.

(** struct.pack('>B', v). *)
Definition pack_B (v : Z) : option bytes :=
  if (0 <=? v) && (v <=? 0xFF) then Some [byte_of_Z v] else None.

(** struct.unpack('<H', b)[0]: raises unless len(b) == 2. *)
Definition unpack_le_H (b : bytes) : option Z :=
  match b with
  | [lo; hi] => Some (Z.lor (byte_val lo) (Z.shiftl (byte_val hi) 8))
  | _ => None
  end.

(** struct.unpack('>H', b)[0]. *)
Definition unpack_be_H (b : bytes) : option Z :=
  match b with
  | [hi; lo] => Some (Z.lor (Z.shiftl (byte_val hi) 8) (byte_val lo))
  | _ => None
  end.

(** struct.unpack('>h', struct.pack('>H', v))[0]: the same sixteen bits
    read as two's complement. *)
Definition u16_as_i16 (v : Z) : option Z :=
  if (0 <=? v) && (v <=? 0xFFFF)
  then Some (if v <? 0x8000 then v else v - 0x10000)
  else None.

(** Slices [b[:-k]] and [b[-k:]] for [k > 0]. *)
Definition drop_last {A} (k : nat) (l : list A) : list A :=
  firstn (length l - k) l.
Definition take_last {A} (k : nat) (l : list A) : list A :=
  skipn (length l - k) l.

(** Indexing [b[i]] for [i >= 0]; IndexError is the [None] branch. *)
Definition byte_at (b : bytes) (i : nat) : option Z :=
  byte_val <$> (b !! i).

(** *** str (code points below 256) *)

Definition code (c : ascii) : Z := Z.of_N (N_of_ascii c).

(** str.isspace() on one character. *)
Definition isspace (c : ascii) : bool :=
  let n := code c in
  ((9 <=? n) && (n <=? 13)) || ((28 <=? n) && (n <=? 32))
  || (n =? 0x85) || (n =? 0xA0).

(** Py_ISSPACE: the ASCII white space skipped by bytes.fromhex. *)
Definition is_ascii_space (c : ascii) : bool :=
  let n := code c in ((9 <=? n) && (n <=? 13)) || (n =? 32).

Definition isdigit (c : ascii) : bool :=
  let n := code c in (48 <=? n) && (n <=? 57).

Definition mem_char (c : ascii) (chars : string) : bool :=
  existsb (Ascii.eqb c) (list_ascii_of_string chars).

(** Drop the leading characters that satisfy [p]. *)
Fixpoint lstrip_by (p : ascii -> bool) (s : list ascii) : list ascii :=
  match s with
  | c :: rest => if p c then lstrip_by p rest else s
  | [] => []
  end.

Definition rstrip_by (p : ascii -> bool) (s : list ascii) : list ascii :=
  rev (lstrip_by p (rev s)).

(** s.rstrip(chars): drop trailing characters that occur in [chars]. *)
Definition rstrip_chars (chars : string) (s : string) : string :=
  string_of_list_ascii
    (rstrip_by (fun c => mem_char c chars) (list_ascii_of_string s)).

(** s.strip(): drop white space at both ends. *)
Definition strip (s : string) : string :=
  string_of_list_ascii
    (rstrip_by isspace (lstrip_by isspace (list_ascii_of_string s))).

(** s.replace(' ', ''). *)
Definition remove_spaces (s : string) : string :=
  string_of_list_ascii
    (List.filter (fun c => negb (Ascii.eqb c " ")) (list_ascii_of_string s)).

(** s.split(): the maximal runs of non-white-space characters.  [cur] is
    the run being read, in reverse. *)
Fixpoint split_ws (cur : list ascii) (s : list ascii) : list string :=
  match s with
  | [] =>
      match cur with
      | [] => []
      | _ => [string_of_list_ascii (rev cur)]
      end
  | c :: rest =>
      if isspace c then
        match cur with
        | [] => split_ws [] rest
        | _ => string_of_list_ascii (rev cur) :: split_ws [] rest
        end
      else split_ws (c :: cur) rest
  end.

Definition split (s : string) : list string :=
  split_ws [] (list_ascii_of_string s).

(** b.decode('ascii', errors='ignore'): bytes of 0x80 and above vanish. *)
Definition decode_ascii_ignore (b : bytes) : string :=
  string_of_list_ascii
    (map ascii_of_byte (List.filter (fun x => byte_val x <? 0x80) b)).

(** ' '.join(parts). *)
Fixpoint join_space (parts : list string) : string :=
  match parts with
  | [] => EmptyString
  | [p] => p
  | p :: rest => p ++ " " ++ join_space rest
  end.

End Py.
Import Py.

(** ** aneji_modbus_provider.py: CRC16/MODBUS *)

Module Crc.

(** One turn of the inner loop [for _ in range(8)]. *)
Definition crc_shift (crc : Z) : Z :=
  if Z.eqb (Z.land crc 0x0001) 0
  then Z.shiftr crc 1
  else Z.lxor (Z.shiftr crc 1) 0xA001.

(** The body of the outer loop for one byte [b]. *)
Definition crc_byte (crc : Z) (b : byte) : Z :=
  Nat.iter 8 crc_shift (Z.lxor crc (byte_val b)).

Definition crc16_modbus (data : bytes) : Z :=
  Z.land (fold_left crc_byte data 0xFFFF) 0xFFFF.

(** [append_crc] raises only if [struct.pack] does. *)
Definition append_crc (data_wo_crc : bytes) : option bytes :=
  let crc := crc16_modbus data_wo_crc in
  match pack_le_H crc with
  | Some tail => Some (data_wo_crc ++ tail)
  | None => None
  end.

End Crc.
Import Crc.

(** ** aneji_modbus_provider.py: frames *)

Module Modbus.

(** The messages of the [ValueError]s raised by the codec, one constructor
    per [raise] statement; the arguments are the values formatted into
    the message. *)
Inductive message : Type :=
| slave_id_must_be_1_247
| start_reg_must_be_0_65535
| reg_count_must_be_1_125
| values_must_be_non_empty
| too_many_registers
| response_too_short
| CRC_mismatch (recv calc : Z)
| unexpected_slave_id (got expected : Z)
| unexpected_function_code (func : Z)
| byte_count_does_not_match
| unexpected_register_count (got expected : Z)
| data_length_must_be_even
| non_hexadecimal_number.

Inductive exn : Type :=
| ValueError (m : message)
| struct_error
| IndexError.

Definition lift (o : option bytes) : result exn bytes :=
  match o with Some b => Ok b | None => Err struct_error end.

Definition index (b : bytes) (i : nat) : result exn Z :=
  match byte_at b i with Some v => Ok v | None => Err IndexError end.

Definition build_read_holding (slave_id start_reg reg_count : Z)
  : result exn bytes :=
  if negb ((1 <=? slave_id) && (slave_id <=? 247))
  then Err (ValueError slave_id_must_be_1_247)
  else if negb ((0 <=? start_reg) && (start_reg <=? 0xFFFF))
  then Err (ValueError start_reg_must_be_0_65535)
  else if negb ((1 <=? reg_count) && (reg_count <=? 125))
  then Err (ValueError reg_count_must_be_1_125)
  else
    f <- lift (pack_B 0x03) ;;
    s <- lift (pack_be_H start_reg) ;;
    c <- lift (pack_be_H reg_count) ;;
    let pdu := f ++ s ++ c in
    sid <- lift (pack_B slave_id) ;;
    let adu_wo_crc := sid ++ pdu in
    lift (append_crc adu_wo_crc).

(** struct.pack('>' + 'H' * n, *values). *)
Fixpoint pack_be_H_list (values : list Z) : option bytes :=
  match values with
  | [] => Some []
  | v :: rest =>
      match pack_be_H v, pack_be_H_list rest with
      | Some b, Some bs => Some (b ++ bs)
      | _, _ => None
      end
  end.

Definition build_write_multiple (slave_id start_reg : Z) (values : list Z)
  : result exn bytes :=
  if negb ((1 <=? slave_id) && (slave_id <=? 247))
  then Err (ValueError slave_id_must_be_1_247)
  else if negb ((0 <=? start_reg) && (start_reg <=? 0xFFFF))
  then Err (ValueError start_reg_must_be_0_65535)
  else if Nat.eqb (length values) 0
  then Err (ValueError values_must_be_non_empty)
  else if (123 <? length values)%nat
  then Err (ValueError too_many_registers)
  else
    let reg_count := Z.of_nat (length values) in
    let byte_count := reg_count * 2 in
    f <- lift (pack_B 0x10) ;;
    s <- lift (pack_be_H start_reg) ;;
    c <- lift (pack_be_H reg_count) ;;
    n <- lift (pack_B byte_count) ;;
    vs <- lift (pack_be_H_list values) ;;
    let pdu := (f ++ s ++ c ++ n) ++ vs in
    sid <- lift (pack_B slave_id) ;;
    let adu_wo_crc := sid ++ pdu in
    lift (append_crc adu_wo_crc).

(** [payload[3:-2]]. *)
Definition slice_3_m2 (payload : bytes) : bytes :=
  skipn 3 (drop_last 2 payload).

(** Validate an RTU read response [sid][func][byte_count][data...][crc_lo]
    [crc_hi]; returns [(byte_count, data_bytes)].  [expected_regs] is
    [None] for Python's [None]. *)
Definition _expect_read_response
    (slave_id req_func : Z) (payload : bytes) (expected_regs : option Z)
  : result exn (Z * bytes) :=
  if (length payload <? 5)%nat then Err (ValueError response_too_short)
  else
    let data_wo_crc := drop_last 2 payload in
    let recv_crc_le := take_last 2 payload in
    let calc_crc := crc16_modbus data_wo_crc in
    match unpack_le_H recv_crc_le with
    | None => Err struct_error
    | Some recv_crc =>
        if negb (recv_crc =? calc_crc)
        then Err (ValueError (CRC_mismatch recv_crc calc_crc))
        else
          sid <- index payload 0 ;;
          func <- index payload 1 ;;
          if negb (sid =? slave_id)
          then Err (ValueError (unexpected_slave_id sid slave_id))
          else if negb (func =? req_func)
          then Err (ValueError (unexpected_function_code func))
          else
            byte_count <- index payload 2 ;;
            let data := slice_3_m2 payload in
            if negb (byte_count =? Z.of_nat (length data))
            then Err (ValueError byte_count_does_not_match)
            else
              match expected_regs with
              | Some n =>
                  if negb (byte_count =? n * 2)
                  then Err (ValueError
                              (unexpected_register_count (byte_count / 2) n))
                  else Ok (byte_count, data)
              | None => Ok (byte_count, data)
              end
    end.

(** struct.unpack('>' + 'H' * (len(data) // 2), data) on data of even
    length. *)
Fixpoint unpack_be_H_list (data : bytes) : list Z :=
  match data with
  | hi :: lo :: rest =>
      Z.lor (Z.shiftl (byte_val hi) 8) (byte_val lo) :: unpack_be_H_list rest
  | _ => []
  end.

Definition bytes_to_u16_list (data : bytes) : result exn (list Z) :=
  if negb (Nat.eqb (length data mod 2) 0)
  then Err (ValueError data_length_must_be_even)
  else Ok (unpack_be_H_list data).

(** _ascii: the module-level helper for packed ASCII. *)
Definition _ascii (bytes_seq : bytes) : string :=
  strip (rstrip_chars (String (ascii_of_byte x00) EmptyString)
           (decode_ascii_ignore bytes_seq)).

(** *** Hex text *)

(** The value of a hexadecimal digit, either case. *)
Definition hex_digit_value (c : ascii) : option Z :=
  let n := code c in
  if (48 <=? n) && (n <=? 57) then Some (n - 48)
  else if (65 <=? n) && (n <=? 70) then Some (n - 55)
  else if (97 <=? n) && (n <=? 102) then Some (n - 87)
  else None.

(** bytes.fromhex(s): white space is skipped before each pair of digits;
    anything else raises ValueError. *)
Fixpoint fromhex (s : string) : result exn bytes :=
  match s with
  | EmptyString => Ok []
  | String c rest =>
      if is_ascii_space c then fromhex rest
      else
        match hex_digit_value c, rest with
        | Some top, String d rest' =>
            match hex_digit_value d with
            | Some bot =>
                tl <- fromhex rest' ;;
                Ok (byte_of_Z (top * 16 + bot) :: tl)
            | None => Err (ValueError non_hexadecimal_number)
            end
        | _, _ => Err (ValueError non_hexadecimal_number)
        end
  end.

(** The upper-case digit of [0 <= d < 16]. *)
Definition hex_char (d : Z) : ascii :=
  ascii_of_N (Z.to_N (if d <? 10 then d + 48 else d + 55)).

(** f'{b:02X}'. *)
Definition format_02X (b : byte) : string :=
  String (hex_char (byte_val b / 16))
    (String (hex_char (byte_val b mod 16)) EmptyString).

Definition to_hex (frame : bytes) : string :=
  join_space (map format_02X frame).

(** Validate and decode a 0x03 read response given as hex text. *)
Definition decode_read_response
    (slave_id start_reg reg_count : Z) (response_hex : string)
  : result exn (list Z) :=
  payload <- fromhex (remove_spaces response_hex) ;;
  r <- _expect_read_response slave_id 0x03 payload (Some reg_count) ;;
  bytes_to_u16_list (snd r).

End Modbus.
Import Modbus.

(** ** aneji_modbus_provider.py: register map and telemetry *)

Module Telemetry.

Local Open Scope Qc_scope.

(** The scales of the register map, as decimal fractions. *)
Definition scale_1 : Qc := Q2Qc 1.
Definition scale_0_1 : Qc := Q2Qc (1 # 10).
Definition scale_0_01 : Qc := Q2Qc (1 # 100).

(** float(i) for an int, and int(x) for a float (towards zero). *)
Definition float_of_int (i : Z) : Qc := Q2Qc (inject_Z i).
Definition int_of_float (x : Qc) : Z := Z.quot (Qnum x) (Zpos (Qden x)).

(** ASCII_BULKS: first register and word count of the packed strings. *)
Definition ASCII_BULKS : list (Z * nat) := [(172%Z, 12%nat); (186%Z, 12%nat)].

Record PowerFlow : Type := mkPowerFlow {
  raw : Z;
  pv_connected : bool;
  mains_connected : bool;
  battery_state : string;
  load_on : bool;
  mains_charging : bool;
  pv_charging : bool
}.

Definition from_raw (raw : Z) : PowerFlow :=
  let pv_connected := Z.land raw 3 =? 1 in
  let mains_connected := Z.land (Z.shiftr raw 2) 3 =? 1 in
  let bat_bits := Z.land (Z.shiftr raw 4) 3 in
  let battery_state :=
    if bat_bits =? 0 then "idle"%string
    else if bat_bits =? 1 then "charging"%string
    else if bat_bits =? 2 then "discharging"%string
    else "unknown"%string in
  let load_on := Z.land (Z.shiftr raw 6) 3 =? 1 in
  let mains_charging := Z.land (Z.shiftr raw 8) 1 =? 1 in
  let pv_charging := Z.land (Z.shiftr raw 9) 1 =? 1 in
  mkPowerFlow raw pv_connected mains_connected battery_state load_on
    mains_charging pv_charging.

Record RuntimeTelemetry : Type := mkRuntimeTelemetry {
  device_type : option Z;
  device_name : option string;
  protocol_number : option Z;
  serial_number : option string;
  work_mode : option Z;
  power_flow : option PowerFlow;
  mains_voltage_v : option Qc;
  mains_freq_hz : option Qc;
  mains_power_w : option Z;
  inv_voltage_v : option Qc;
  inv_current_a : option Qc;
  inv_freq_hz : option Qc;
  inv_power_w : option Z;
  inv_charge_power_w : option Z;
  inv_charge_current_a : option Qc;
  out_voltage_v : option Qc;
  out_current_a : option Qc;
  out_freq_hz : option Qc;
  out_active_power_w : option Z;
  out_apparent_power_va : option Z;
  load_percent : option Z;
  bat_voltage_v : option Qc;
  bat_current_a : option Qc;
  bat_power_w : option Z;
  soc_percent : option Z;
  pv_voltage_v : option Qc;
  pv_current_a : option Qc;
  pv_power_w : option Z;
  pv_charge_power_w : option Z;
  pv_charge_current_a : option Qc
}.

(** The dict comprehension [{start_reg + i: regs[i] for i in range(len(regs))}],
    entries inserted in index order into [blk]. *)
Fixpoint block_from (addr : Z) (regs : list Z) (blk : gmap Z Z) : gmap Z Z :=
  match regs with
  | [] => blk
  | r :: rest => block_from (addr + 1)%Z rest (<[addr := r]> blk)
  end.

Definition block_of (start_reg : Z) (regs : list Z) : gmap Z Z :=
  block_from start_reg regs ∅.

Section Getters.
Variable block : gmap Z Z.

Definition get_int (addr : Z) (scale : Qc) : result exn (option Qc) :=
  match block !! addr with
  | Some v =>
      match u16_as_i16 v with
      | Some i => Ok (Some (float_of_int i * scale))
      | None => Err struct_error
      end
  | None => Ok None
  end.

Definition get_uint (addr : Z) : result exn (option Z) :=
  Ok (block !! addr).

(** [all((addr + i) in block for i in range(words))]. *)
Definition all_in_block (addr : Z) (words : nat) : bool :=
  forallb (fun i => bool_decide (is_Some (block !! (addr + Z.of_nat i)%Z)))
    (seq 0 words).

(** [b''.join(struct.pack('>H', block[addr + i]) for i in range(words))],
    called only when every address is present. *)
Fixpoint join_words (addr : Z) (words : nat) : option bytes :=
  match words with
  | O => Some []
  | S n =>
      match block !! addr with
      | Some v =>
          match pack_be_H v, join_words (addr + 1)%Z n with
          | Some b, Some bs => Some (b ++ bs)
          | _, _ => None
          end
      | None => None
      end
  end.

(** The argument of [rstrip] as the source spells it, ['\\x00']: the four
    characters backslash, x, 0, 0. *)
Definition rstrip_arg : string :=
  String (ascii_of_N 92) "x00".

Definition get_ascii (addr : Z) (words : nat) : result exn (option string) :=
  if all_in_block addr words then
    match join_words addr words with
    | Some raw_bytes =>
        Ok (Some (strip (rstrip_chars rstrip_arg
                           (decode_ascii_ignore raw_bytes))))
    | None => Err struct_error
    end
  else Ok None.

(** [int(get_int(a, 1.0)) if get_int(a, 1.0) is not None else None]. *)
Definition get_int_as_int (addr : Z) : result exn (option Z) :=
  c <- get_int addr scale_1 ;;
  match c with
  | Some _ =>
      v <- get_int addr scale_1 ;;
      Ok (int_of_float <$> v)
  | None => Ok None
  end.

End Getters.

(** Parse a register slice; [regs] are the 16-bit values as received. *)
Definition parse_from_block (start_reg : Z) (regs : list Z)
  : result exn RuntimeTelemetry :=
  let block := block_of start_reg regs in
  t_device_type <- get_uint block 171 ;;
  t_device_name <- get_ascii block 172 12 ;;
  t_protocol_number <- get_uint block 184 ;;
  t_serial_number <- get_ascii block 186 12 ;;
  t_work_mode <- get_uint block 201 ;;
  pf_raw <- get_uint block 231 ;;
  let t_power_flow := from_raw <$> pf_raw in
  t_mains_voltage_v <- get_int block 202 scale_0_1 ;;
  t_mains_freq_hz <- get_int block 203 scale_0_01 ;;
  t_mains_power_w <- get_int_as_int block 204 ;;
  t_inv_voltage_v <- get_int block 205 scale_0_1 ;;
  t_inv_current_a <- get_int block 206 scale_0_1 ;;
  t_inv_freq_hz <- get_int block 207 scale_0_01 ;;
  t_inv_power_w <- get_int_as_int block 208 ;;
  t_inv_charge_power_w <- get_int_as_int block 209 ;;
  t_inv_charge_current_a <- get_int block 233 scale_0_1 ;;
  t_out_voltage_v <- get_int block 210 scale_0_1 ;;
  t_out_current_a <- get_int block 211 scale_0_1 ;;
  t_out_freq_hz <- get_int block 212 scale_0_01 ;;
  t_out_active_power_w <- get_int_as_int block 213 ;;
  t_out_apparent_power_va <- get_int_as_int block 214 ;;
  t_load_percent <- get_int_as_int block 225 ;;
  t_bat_voltage_v <- get_int block 215 scale_0_1 ;;
  t_bat_current_a <- get_int block 216 scale_0_1 ;;
  t_bat_power_w <- get_int_as_int block 217 ;;
  t_soc_percent <- get_uint block 229 ;;
  t_pv_voltage_v <- get_int block 219 scale_0_1 ;;
  t_pv_current_a <- get_int block 220 scale_0_1 ;;
  t_pv_power_w <- get_int_as_int block 223 ;;
  t_pv_charge_power_w <- get_int_as_int block 224 ;;
  t_pv_charge_current_a <- get_int block 234 scale_0_1 ;;
  Ok {| device_type := t_device_type;
        device_name := t_device_name;
        protocol_number := t_protocol_number;
        serial_number := t_serial_number;
        work_mode := t_work_mode;
        power_flow := t_power_flow;
        mains_voltage_v := t_mains_voltage_v;
        mains_freq_hz := t_mains_freq_hz;
        mains_power_w := t_mains_power_w;
        inv_voltage_v := t_inv_voltage_v;
        inv_current_a := t_inv_current_a;
        inv_freq_hz := t_inv_freq_hz;
        inv_power_w := t_inv_power_w;
        inv_charge_power_w := t_inv_charge_power_w;
        inv_charge_current_a := t_inv_charge_current_a;
        out_voltage_v := t_out_voltage_v;
        out_current_a := t_out_current_a;
        out_freq_hz := t_out_freq_hz;
        out_active_power_w := t_out_active_power_w;
        out_apparent_power_va := t_out_apparent_power_va;
        load_percent := t_load_percent;
        bat_voltage_v := t_bat_voltage_v;
        bat_current_a := t_bat_current_a;
        bat_power_w := t_bat_power_w;
        soc_percent := t_soc_percent;
        pv_voltage_v := t_pv_voltage_v;
        pv_current_a := t_pv_current_a;
        pv_power_w := t_pv_power_w;
        pv_charge_power_w := t_pv_charge_power_w;
        pv_charge_current_a := t_pv_charge_current_a |}.

(** Convenience parser for the 171..237 block (67 registers). *)
Definition parse_runtime_171_237 (slave_id : Z) (response_hex : string)
  : result exn RuntimeTelemetry :=
  regs <- decode_read_response slave_id 171 67 response_hex ;;
  parse_from_block 171 regs.

(** The fields of [RuntimeTelemetry], to speak about all of them at once. *)
Inductive field : Type :=
| f_device_type | f_device_name | f_protocol_number | f_serial_number
| f_work_mode | f_power_flow
| f_mains_voltage_v | f_mains_freq_hz | f_mains_power_w
| f_inv_voltage_v | f_inv_current_a | f_inv_freq_hz | f_inv_power_w
| f_inv_charge_power_w | f_inv_charge_current_a
| f_out_voltage_v | f_out_current_a | f_out_freq_hz | f_out_active_power_w
| f_out_apparent_power_va | f_load_percent
| f_bat_voltage_v | f_bat_current_a | f_bat_power_w | f_soc_percent
| f_pv_voltage_v | f_pv_current_a | f_pv_power_w | f_pv_charge_power_w
| f_pv_charge_current_a.

Definition all_fields : list field :=
  [ f_device_type; f_device_name; f_protocol_number; f_serial_number;
    f_work_mode; f_power_flow;
    f_mains_voltage_v; f_mains_freq_hz; f_mains_power_w;
    f_inv_voltage_v; f_inv_current_a; f_inv_freq_hz; f_inv_power_w;
    f_inv_charge_power_w; f_inv_charge_current_a;
    f_out_voltage_v; f_out_current_a; f_out_freq_hz; f_out_active_power_w;
    f_out_apparent_power_va; f_load_percent;
    f_bat_voltage_v; f_bat_current_a; f_bat_power_w; f_soc_percent;
    f_pv_voltage_v; f_pv_current_a; f_pv_power_w; f_pv_charge_power_w;
    f_pv_charge_current_a ].

(** Whether the field holds a value (is not Python's [None]). *)
Definition is_set {A} (o : option A) : bool :=
  match o with Some _ => true | None => false end.

Definition field_is_set (f : field) (t : RuntimeTelemetry) : bool :=
  match f with
  | f_device_type => is_set (device_type t)
  | f_device_name => is_set (device_name t)
  | f_protocol_number => is_set (protocol_number t)
  | f_serial_number => is_set (serial_number t)
  | f_work_mode => is_set (work_mode t)
  | f_power_flow => is_set (power_flow t)
  | f_mains_voltage_v => is_set (mains_voltage_v t)
  | f_mains_freq_hz => is_set (mains_freq_hz t)
  | f_mains_power_w => is_set (mains_power_w t)
  | f_inv_voltage_v => is_set (inv_voltage_v t)
  | f_inv_current_a => is_set (inv_current_a t)
  | f_inv_freq_hz => is_set (inv_freq_hz t)
  | f_inv_power_w => is_set (inv_power_w t)
  | f_inv_charge_power_w => is_set (inv_charge_power_w t)
  | f_inv_charge_current_a => is_set (inv_charge_current_a t)
  | f_out_voltage_v => is_set (out_voltage_v t)
  | f_out_current_a => is_set (out_current_a t)
  | f_out_freq_hz => is_set (out_freq_hz t)
  | f_out_active_power_w => is_set (out_active_power_w t)
  | f_out_apparent_power_va => is_set (out_apparent_power_va t)
  | f_load_percent => is_set (load_percent t)
  | f_bat_voltage_v => is_set (bat_voltage_v t)
  | f_bat_current_a => is_set (bat_current_a t)
  | f_bat_power_w => is_set (bat_power_w t)
  | f_soc_percent => is_set (soc_percent t)
  | f_pv_voltage_v => is_set (pv_voltage_v t)
  | f_pv_current_a => is_set (pv_current_a t)
  | f_pv_power_w => is_set (pv_power_w t)
  | f_pv_charge_power_w => is_set (pv_charge_power_w t)
  | f_pv_charge_current_a => is_set (pv_charge_current_a t)
  end.

(** The register addresses a field is read from, as [parse_from_block]
    names them: one address, or twelve for the packed strings. *)
Definition words_from (addr : Z) (words : nat) : list Z :=
  map (fun i => (addr + Z.of_nat i)%Z) (seq 0 words).

Definition field_addresses (f : field) : list Z :=
  match f with
  | f_device_type => [171]
  | f_device_name => words_from 172 12
  | f_protocol_number => [184]
  | f_serial_number => words_from 186 12
  | f_work_mode => [201]
  | f_power_flow => [231]
  | f_mains_voltage_v => [202]
  | f_mains_freq_hz => [203]
  | f_mains_power_w => [204]
  | f_inv_voltage_v => [205]
  | f_inv_current_a => [206]
  | f_inv_freq_hz => [207]
  | f_inv_power_w => [208]
  | f_inv_charge_power_w => [209]
  | f_inv_charge_current_a => [233]
  | f_out_voltage_v => [210]
  | f_out_current_a => [211]
  | f_out_freq_hz => [212]
  | f_out_active_power_w => [213]
  | f_out_apparent_power_va => [214]
  | f_load_percent => [225]
  | f_bat_voltage_v => [215]
  | f_bat_current_a => [216]
  | f_bat_power_w => [217]
  | f_soc_percent => [229]
  | f_pv_voltage_v => [219]
  | f_pv_current_a => [220]
  | f_pv_power_w => [223]
  | f_pv_charge_power_w => [224]
  | f_pv_charge_current_a => [234]
  end%Z.

End Telemetry.
Import Telemetry.

(** ** Python numbers and dynamically typed values *)

Module PyNum.

Local Open Scope Qc_scope.

(** Comparisons of floats, as booleans. *)
Definition feqb (x y : Qc) : bool := Qeq_bool x y.
Definition fleb (x y : Qc) : bool := Qle_bool x y.
Definition fltb (x y : Qc) : bool := negb (Qle_bool y x).

(** Python's [min] and [max] of two arguments return the first one unless
    the second is strictly better. *)
Definition py_max (a b : Qc) : Qc := if fltb a b then b else a.
Definition py_min (a b : Qc) : Qc := if fltb b a then b else a.

(** [x.is_integer()] and [int(x)]. *)
Definition is_integer (x : Qc) : bool := Pos.eqb (Qden x) 1.

(** The values a decoded response may hold. *)
Inductive pyval : Type :=
| PyNone
| PyInt (z : Z)
| PyFloat (x : Qc)
| PyStr (s : string).

(** *** float(str)

    The grammar is the one of CPython: surrounding white space is
    ignored, an underscore may stand between two digits, then
    [sign] digits [. digits] [(e|E) [sign] digits] with at least one
    digit in the mantissa.  The value is the exact decimal.  The
    spellings of infinity and NaN denote no rational and are rejected. *)

Definition underscore : ascii := "_".

(** Check and remove the underscores; [prev] is the character before. *)
Fixpoint strip_underscores (prev : ascii) (s : list ascii)
  : option (list ascii) :=
  match s with
  | [] => if Ascii.eqb prev underscore then None else Some []
  | c :: rest =>
      if Ascii.eqb c underscore then
        if isdigit prev then strip_underscores c rest else None
      else if Ascii.eqb prev underscore && negb (isdigit c) then None
      else cons c <$> strip_underscores c rest
  end.

(** Read a run of digits onto [acc]; returns the number read, how many
    digits it had, and the rest. *)
Fixpoint take_digits (s : list ascii) (acc : Z) (n : nat)
  : Z * nat * list ascii :=
  match s with
  | c :: rest =>
      if isdigit c
      then take_digits rest (acc * 10 + (code c - 48))%Z (S n)
      else (acc, n, s)
  | [] => (acc, n, [])
  end.

Definition take_sign (s : list ascii) : bool * list ascii :=
  match s with
  | c :: rest =>
      if Ascii.eqb c "-" then (true, rest)
      else if Ascii.eqb c "+" then (false, rest)
      else (false, s)
  | [] => (false, [])
  end.

(** [(-1)^neg * m * 10^e]. *)
Definition decimal (neg : bool) (m : Z) (e : Z) : Qc :=
  let sm := if neg then (- m)%Z else m in
  match e with
  | Zneg p => Q2Qc (sm # (10 ^ p)%positive)
  | _ => Q2Qc (inject_Z (sm * 10 ^ e))
  end.

Definition parse_exponent (s : list ascii) : option Z :=
  match s with
  | [] => Some 0%Z
  | c :: rest =>
      if Ascii.eqb c "e" || Ascii.eqb c "E" then
        let '(eneg, r) := take_sign rest in
        let '(ev, ne, r') := take_digits r 0 0 in
        match ne, r' with
        | S _, [] => Some (if eneg then (- ev)%Z else ev)
        | _, _ => None
        end
      else None
  end.

Definition parse_float (s : string) : option Qc :=
  match strip_underscores zero (list_ascii_of_string (strip s)) with
  | None => None
  | Some s1 =>
      let '(neg, r0) := take_sign s1 in
      let '(ip, ni, r1) := take_digits r0 0 0 in
      let '(m, nf, r2) :=
        match r1 with
        | c :: r' =>
            if Ascii.eqb c "." then take_digits r' ip 0 else (ip, O, r1)
        | [] => (ip, O, r1)
        end in
      if Nat.eqb (ni + nf) 0 then None
      else
        match parse_exponent r2 with
        | Some e => Some (decimal neg m (e - Z.of_nat nf))
        | None => None
        end
  end.

(** float(x); [None] when it raises (TypeError or ValueError). *)
Definition py_float (x : pyval) : option Qc :=
  match x with
  | PyNone => None
  | PyInt z => Some (Q2Qc (inject_Z z))
  | PyFloat v => Some v
  | PyStr s => parse_float s
  end.

(** [d.get(key)]. *)
Definition dict_get (d : gmap string pyval) (key : string) : pyval :=
  default PyNone (d !! key).

(** [dict(pairs)]: later pairs replace earlier ones. *)
Definition py_dict (pairs : list (string * pyval)) : gmap string pyval :=
  fold_left (fun d kv => <[fst kv := snd kv]> d) pairs ∅.

(** [zip(a, b)] stops at the shorter argument. *)
Fixpoint zip {A B} (a : list A) (b : list B) : list (A * B) :=
  match a, b with
  | x :: a', y :: b' => (x, y) :: zip a' b'
  | _, _ => []
  end.

End PyNum.
Import PyNum.

(** ** qpigs_provider.py and direct_coordinator.py: signed battery current *)

Module Resolver.

Local Open Scope Qc_scope.

(** [_f]: float(x), or [None] on any exception. *)
Definition _f (x : pyval) : option Qc := py_float x.

(** [x or 0.0] for an optional float: [None] and zero are both falsy. *)
Definition or_zero (x : option Qc) : Qc :=
  match x with
  | Some v => if feqb v 0 then 0 else v
  | None => 0
  end.

(** qpigs_provider._battery_current *)
Definition _battery_current (qpigs : gmap string pyval) : option Qc :=
  let ci := _f (dict_get qpigs "battery_charging_current") in
  let di := _f (dict_get qpigs "battery_discharge_current") in
  if negb (is_set ci) && negb (is_set di) then None
  else
    let ci := or_zero ci in
    let di := or_zero di in
    if fltb 0 ci && feqb di 0 then Some ci
    else if fltb 0 di && feqb ci 0 then Some (- di)
    else Some (ci - di).

(** direct_coordinator._battery_current_signed *)
Definition _battery_current_signed (qpigs : gmap string pyval) : option Qc :=
  let ci := _f (dict_get qpigs "battery_charging_current") in
  let di := _f (dict_get qpigs "battery_discharge_current") in
  if negb (is_set ci) && negb (is_set di) then None
  else
    let ci := or_zero ci in
    let di := or_zero di in
    if fltb 0 ci && feqb di 0 then Some ci
    else if fltb 0 di && feqb ci 0 then Some (- di)
    else Some (ci - di).

End Resolver.
Import Resolver.

(** ** debug_tty.py: the QPIGS decoder *)

Module DebugTty.

Definition fields : list string :=
  [ "grid_voltage"; "grid_frequency"; "ac_output_voltage";
    "ac_output_frequency"; "output_apparent_power"; "output_active_power";
    "load_percent"; "bus_voltage"; "battery_voltage";
    "battery_charging_current"; "battery_capacity";
    "inverter_heat_sink_temperature"; "pv_input_current";
    "pv_input_voltage"; "scc_battery_voltage"; "battery_discharge_current";
    "device_status_bits_b7_b0"; "battery_voltage_offset"; "eeprom_version";
    "pv_charging_power"; "device_status_bits_b10_b8"; "reserved_a";
    "reserved_bb"; "reserved_cccc" ]%string.

Definition parse_value (v : string) : pyval :=
  match parse_float v with
  | Some f =>
      (* Convert to int if no fractional part *)
      if is_integer f then PyInt (int_of_float f) else PyFloat f
  | None =>
      (* Return original if cannot convert to number *)
      PyStr v
  end.

Definition decode_qpigs (ascii_str : string) : gmap string pyval :=
  let values := split (strip ascii_str) in
  let parsed_values := map parse_value values in
  py_dict (zip fields parsed_values).

End DebugTty.
Import DebugTty.

(** ** energy_sensors.py: the energy accumulator *)

Module Energy.

Local Open Scope Qc_scope.

(** The attributes of [MyEnergySensor] that [update_energy_value] reads and
    writes.  [_attr_native_value] is the accumulated watt-hours, set by
    [async_added_to_hass] before the first update. *)
Record MyEnergySensor : Type := mkEnergy {
  _attr_native_value : Qc;
  _prev_value : option Qc;
  _prev_value_timestamp : Qc
}.

(** The state after [__init__] at instant [now] followed by
    [async_added_to_hass] with nothing to restore. *)
Definition fresh (now : Qc) : MyEnergySensor :=
  mkEnergy 0 None now.

(** [int(x)] of a float: truncation towards zero. *)
Definition elapsed_whole_seconds (now prev : Qc) : Z :=
  int_of_float (now - prev).

(** [update_energy_value]; [now] is the value of [datetime.now()]. *)
Definition update_energy_value
    (self : MyEnergySensor) (current_value : Qc) (now : Qc)
  : MyEnergySensor :=
  let elapsed_seconds :=
    elapsed_whole_seconds now (_prev_value_timestamp self) in
  let native :=
    match _prev_value self with
    | Some prev =>
        _attr_native_value self
        + (float_of_int elapsed_seconds / Q2Qc 3600)
          * (prev + current_value) / Q2Qc 2
    | None => _attr_native_value self
    end in
  mkEnergy native (Some current_value) now.

End Energy.

(** ** mixin_sensors.py: the state-of-charge estimator *)

Module Soc.

Local Open Scope Qc_scope.

Inductive exn : Type :=
| TypeError
| ZeroDivisionError.

Record SocCalculatorMixin : Type := mkSoc {
  _accumulated_energy_wh : Qc;
  _prev_power : Qc;
  _prev_ts : option Qc;
  _has_prev : bool
}.

(** [__init__]. *)
Definition init : SocCalculatorMixin := mkSoc 0 0 None false.

Definition reset_accumulator
    (self : SocCalculatorMixin) (capacity_wh soc_percent : Qc) (now : Qc)
  : SocCalculatorMixin :=
  mkSoc (capacity_wh * soc_percent / Q2Qc 100) 0 (Some now) true.

(** [_accumulate]; subtracting [None] from a datetime raises TypeError and
    leaves the object as it was. *)
Definition _accumulate
    (self : SocCalculatorMixin) (current_power : Qc) (now : Qc)
  : result exn SocCalculatorMixin :=
  if negb (_has_prev self) then
    Ok (mkSoc (_accumulated_energy_wh self) current_power (Some now) true)
  else
    match _prev_ts self with
    | None => Err TypeError
    | Some prev_ts =>
        let hours := (now - prev_ts) / Q2Qc 3600 in
        let acc :=
          _accumulated_energy_wh self
          + (_prev_power self + current_power) / Q2Qc 2 * hours in
        Ok (mkSoc acc current_power (Some now) true)
    end.

(** The recalibration test of [calculate_soc]. *)
Definition at_full
    (bulk_v float_v current_power current_voltage : Qc) : bool :=
  fleb bulk_v current_voltage
  || (fleb float_v current_voltage
      && (fltb 0 current_power && fleb current_power (Q2Qc 2 * bulk_v))).

Definition with_energy (self : SocCalculatorMixin) (e : Qc)
  : SocCalculatorMixin :=
  mkSoc e (_prev_power self) (_prev_ts self) (_has_prev self).

(** [calculate_soc]: the object after the call, and the value returned or
    the exception raised.  The division is the last step, so a zero
    capacity raises after the object has been updated. *)
Definition calculate_soc
    (self : SocCalculatorMixin)
    (capacity_wh bulk_v float_v current_power current_voltage : Qc)
    (now : Qc)
  : SocCalculatorMixin * result exn Qc :=
  match _accumulate self current_power now with
  | Err e => (self, Err e)
  | Ok s1 =>
      let s2 :=
        if at_full bulk_v float_v current_power current_voltage
        then with_energy s1 capacity_wh
        else s1 in
      let s3 :=
        with_energy s2
          (py_min (py_max (_accumulated_energy_wh s2) 0) capacity_wh) in
      if feqb capacity_wh 0 then (s3, Err ZeroDivisionError)
      else (s3, Ok (_accumulated_energy_wh s3 / capacity_wh * Q2Qc 100))
  end.

End Soc.

(** ** Python floats as they are: IEEE 754 binary64

    The estimator once more, this time on the floats of the machine,
    with their rounding, infinities and NaN, as the Standard Library's
    [SpecFloat] specifies them. *)

Module Binary64.

Import SpecFloat.

Definition float : Type := spec_float.

Definition prec : Z := 53.
Definition emax : Z := 1024.

(** [float(i)] for an int (exact below 2^53). *)
Definition of_int (i : Z) : float := binary_normalize prec emax i 0 false.

Definition nan : float := S754_nan.


Definition add : float -> float -> float := SFadd prec emax.
Definition mul : float -> float -> float := SFmul prec emax.
Definition div : float -> float -> float := SFdiv prec emax.

(** [x < y], [x <= y] and [x == y]; all false when either is NaN. *)
Definition ltb : float -> float -> bool := SFltb.
Definition leb : float -> float -> bool := SFleb.
Definition eqb : float -> float -> bool := SFeqb.

(** Python's [max] and [min] of two arguments keep the first one unless
    the second compares strictly better. *)
Definition py_max (a b : float) : float := if ltb a b then b else a.
Definition py_min (a b : float) : float := if ltb b a then b else a.

End Binary64.

(** ** mixin_sensors.py: the state-of-charge estimator on binary64 *)

Module Soc64.

Import Binary64.

(** Instants are whole microseconds since the epoch, the resolution of
    [datetime]. *)
Record SocCalculatorMixin : Type := mkSoc {
  _accumulated_energy_wh : float;
  _prev_power : float;
  _prev_ts : option Z;
  _has_prev : bool
}.

(** [__init__]. *)
Definition init : SocCalculatorMixin :=
  mkSoc (of_int 0) (of_int 0) None false.

Definition reset_accumulator
    (self : SocCalculatorMixin) (capacity_wh soc_percent : float) (now : Z)
  : SocCalculatorMixin :=
  mkSoc (div (mul capacity_wh soc_percent) (of_int 100)) (of_int 0)
        (Some now) true.

(** [timedelta.total_seconds()]: the microseconds divided by 10^6, rounded
    once (the conversion of the microseconds is exact below 2^53, a span
    of some 285 years). *)
Definition total_seconds (microseconds : Z) : float :=
  div (of_int microseconds) (of_int 1000000).

Definition _accumulate
    (self : SocCalculatorMixin) (current_power : float) (now : Z)
  : result Soc.exn SocCalculatorMixin :=
  if negb (_has_prev self) then
    Ok (mkSoc (_accumulated_energy_wh self) current_power (Some now) true)
  else
    match _prev_ts self with
    | None => Err Soc.TypeError
    | Some prev_ts =>
        let hours := div (total_seconds (now - prev_ts)) (of_int 3600) in
        let acc :=
          add (_accumulated_energy_wh self)
              (mul (div (add (_prev_power self) current_power) (of_int 2))
                   hours) in
        Ok (mkSoc acc current_power (Some now) true)
    end.

Definition at_full
    (bulk_v float_v current_power current_voltage : float) : bool :=
  leb bulk_v current_voltage
  || (leb float_v current_voltage
      && (ltb (of_int 0) current_power
          && leb current_power (mul (of_int 2) bulk_v))).

Definition with_energy (self : SocCalculatorMixin) (e : float)
  : SocCalculatorMixin :=
  mkSoc e (_prev_power self) (_prev_ts self) (_has_prev self).

(** [calculate_soc]; dividing by a zero capacity raises. *)
Definition calculate_soc
    (self : SocCalculatorMixin)
    (capacity_wh bulk_v float_v current_power current_voltage : float)
    (now : Z)
  : SocCalculatorMixin * result Soc.exn float :=
  match _accumulate self current_power now with
  | Err e => (self, Err e)
  | Ok s1 =>
      let s2 :=
        if at_full bulk_v float_v current_power current_voltage
        then with_energy s1 capacity_wh
        else s1 in
      let s3 :=
        with_energy s2
          (py_min (py_max (_accumulated_energy_wh s2) (of_int 0))
                  capacity_wh) in
      if eqb capacity_wh (of_int 0) then (s3, Err Soc.ZeroDivisionError)
      else (s3, Ok (mul (div (_accumulated_energy_wh s3) capacity_wh)
                        (of_int 100)))
  end.

End Soc64.

(** ** Vocabulary of the statements *)

Module Synthetic.

(** The hex digits of a frame without separators. *)
Fixpoint hex_concat (frame : bytes) : string :=
  match frame with
  | [] => EmptyString
  | b :: rest => (format_02X b ++ hex_concat rest)%string
  end.

(** A valid reply to a read of [len(values)] holding registers: slave id,
    function 0x03, byte count, the values big-endian, then the CRC. *)
Definition read_response_frame (slave_id : Z) (values : list Z)
  : option bytes :=
  match pack_B slave_id, pack_B 0x03,
        pack_B (2 * Z.of_nat (length values)), pack_be_H_list values with
  | Some s, Some f, Some n, Some data => append_crc (s ++ f ++ n ++ data)
  | _, _, _, _ => None
  end.

End Synthetic.
Import Synthetic.

(** Response validation, as the specification lists it. *)

Module Validation.

(** The failure modes of response validation.  Each but [DeviceException]
    is the message of one [raise] statement of [_expect_read_response];
    the function-code failures carry the code that was received. *)
Inductive failure : Type :=
| ShortResponse
| ChecksumMismatch
| UnexpectedSlaveId
| UnexpectedFunctionCode (func : Z)
| DeviceException (func : Z)
| ByteCountMismatch
| RegisterCountMismatch
| NotAValidationError.

Definition failure_of (e : exn) : failure :=
  match e with
  | ValueError response_too_short => ShortResponse
  | ValueError (CRC_mismatch _ _) => ChecksumMismatch
  | ValueError (unexpected_slave_id _ _) => UnexpectedSlaveId
  | ValueError (unexpected_function_code func) => UnexpectedFunctionCode func
  | ValueError byte_count_does_not_match => ByteCountMismatch
  | ValueError (unexpected_register_count _ _) => RegisterCountMismatch
  | _ => NotAValidationError
  end.

(** What a call did: [None] when it returned, the failure otherwise. *)
Definition outcome {A} (r : result exn A) : option failure :=
  match r with
  | Ok _ => None
  | Err e => Some (failure_of e)
  end.

(** The byte at offset [i] and the trailing little-endian word of a
    response, zero where the response is too short to have them. *)
Definition octet (payload : bytes) (i : nat) : Z :=
  match byte_at payload i with Some v => v | None => 0 end.
Definition trailing_crc (payload : bytes) : Z :=
  match unpack_le_H (take_last 2 payload) with Some v => v | None => 0 end.

(** The function-code failure as the specification words it: a code with
    the high bit set is a device exception, any other one a mismatch. *)
Definition function_code_failure_specified (func : Z) : failure :=
  if Z.testbit func 7 then DeviceException func
  else UnexpectedFunctionCode func.

(** The function-code failure as the code raises it. *)
Definition function_code_failure_raised (func : Z) : failure :=
  UnexpectedFunctionCode func.

(** The five checks in the order of the specification; the failure of a
    wrong function code is a parameter. *)
Definition ordered_checks (function_code_failure : Z -> failure)
    (slave_id req_func : Z) (payload : bytes) (expected_regs : option Z)
  : option failure :=
  if (length payload <? 5)%nat then Some ShortResponse
  else if negb (trailing_crc payload =? crc16_modbus (drop_last 2 payload))
  then Some ChecksumMismatch
  else if negb (octet payload 0 =? slave_id) then Some UnexpectedSlaveId
  else if negb (octet payload 1 =? req_func)
  then Some (function_code_failure (octet payload 1))
  else if negb (octet payload 2 =? Z.of_nat (length payload) - 5)
  then Some ByteCountMismatch
  else
    match expected_regs with
    | Some n =>
        if negb (octet payload 2 =? 2 * n) then Some RegisterCountMismatch
        else None
    | None => None
    end.

(** A device exception reply to a read of function 0x03 (code 0x83,
    exception 0x02), and a reply with a plainly wrong function (0x04). *)
Definition exception_reply : bytes := [x01; x83; x02; xc0; xf1].
Definition wrong_function_reply : bytes := [x01; x04; x02; x00; x07; xf8; xf2].

End Validation.
Import Validation.


(** Signed battery current. *)

Module Currents.

Local Open Scope Qc_scope.

Definition charge_key : string := "battery_charging_current".
Definition discharge_key : string := "battery_discharge_current".

(** The dict with the two currents of a QPIGS reply. *)
Definition currents (charge discharge : pyval) : gmap string pyval :=
  py_dict [(charge_key, charge); (discharge_key, discharge)].

(** An absent reading counts as zero. *)
Definition or_0 (x : option Qc) : Qc :=
  match x with Some v => v | None => 0 end.

End Currents.
Import Currents.

(** The estimators. *)

Module Integration.

Local Open Scope Qc_scope.

(** The trapezoid between two power samples [hours] apart, in Wh. *)
Definition trapezoid (previous_power current_power hours : Qc) : Qc :=
  (previous_power + current_power) / Q2Qc 2 * hours.

(** The time between two instants in hours: exact, and cut to whole
    seconds. *)
Definition hours_between (now prev : Qc) : Qc := (now - prev) / Q2Qc 3600.
Definition whole_second_hours_between (now prev : Qc) : Qc :=
  float_of_int (int_of_float (now - prev)) / Q2Qc 3600.

(** Two samples fed to either accumulator, the second one hour after the
    first. *)
Definition energy_after_two (self : Energy.MyEnergySensor) (a b t : Qc) : Qc :=
  Energy._attr_native_value
    (Energy.update_energy_value (Energy.update_energy_value self a t)
       b (t + Q2Qc 3600)).

Definition accumulated_after_two
    (self : Soc.SocCalculatorMixin) (a b t : Qc) : option Qc :=
  match Soc._accumulate self a t with
  | Ok s1 =>
      match Soc._accumulate s1 b (t + Q2Qc 3600) with
      | Ok s2 => Some (Soc._accumulated_energy_wh s2)
      | Err _ => None
      end
  | Err _ => None
  end.

(** An estimator that has a previous sample has its instant too; true of
    [__init__] and [reset_accumulator] and kept by every call. *)
Definition well_formed (self : Soc.SocCalculatorMixin) : bool :=
  implb (Soc._has_prev self) (is_set (Soc._prev_ts self)).

End Integration.
Import Integration.

(** Register blocks. *)

Module Blocks.

(** A register value as it comes off the wire. *)
Definition is_u16 (v : Z) : Prop := 0 <= v <= 0xFFFF.

(** Whether the block holds address [a]. *)
Definition present (block : gmap Z Z) (a : Z) : bool :=
  is_set (block !! a).

(** The registers of a device name "ABC" padded with NUL to twelve words,
    and the bytes they pack to. *)
Definition name_registers : list Z := [0x4142; 0x4300] ++ repeat 0 10.
Definition name_bytes : bytes := [x41; x42; x43] ++ repeat x00 21.

End Blocks.
Import Blocks.

(** The QPIGS reply of the specification's example. *)

Module Qpigs.

Definition example_reply : string :=
  "230.0 50.0 230.0 50.0 0800 0600 030 392 52.4 010 062".

(** The tokens [decode_qpigs] parses. *)
Definition tokens (ascii_str : string) : list string :=
  split (strip ascii_str).

End Qpigs.
Import Qpigs.

(** The CRC register. *)

Module Register.

(** The CRC register holds sixteen bits. *)
Definition is_state (c : Z) : Prop := 0 <= c < 0x10000.

End Register.
Import Register.

(** Packed text. *)

Module Text.

(** The characters of a run of bytes, and the NUL character. *)
Definition chars_of (b : bytes) : list ascii := map ascii_of_byte b.
Definition nul : ascii := ascii_of_byte x00.

(** First and last character of a text, if any. *)
Definition first_char (s : list ascii) : option ascii := head s.
Definition last_char (s : list ascii) : option ascii := head (rev s).

(** A text that [strip] leaves alone: it neither starts nor ends with
    white space. *)
Definition trimmed (s : list ascii) : Prop :=
  (forall c, first_char s = Some c -> isspace c = false)
  /\ (forall c, last_char s = Some c -> isspace c = false).

End Text.
Import Text.

(** Register values as numbers. *)

Module Values.

(** The sixteen bits of a register read as two's complement. *)
Definition signed16 (v : Z) : Z := if v <? 0x8000 then v else v - 0x10000.

(** A register scaled by a decimal factor. *)
Definition scaled (scale : Qc) (v : Z) : Qc :=
  (float_of_int (signed16 v) * scale)%Qc.

End Values.
Import Values.

(** ** debug_tty.py: crc16 *)

Module DebugTtyCrc.

(** [crc.to_bytes(2, byteorder='little')]; [None] is OverflowError. *)
Definition to_bytes_2_little (v : Z) : option bytes :=
  if (0 <=? v) && (v <? 0x10000)
  then Some [byte_of_Z (v mod 256); byte_of_Z (v / 256)]
  else None.

(** The loop is the one of [crc16_modbus]; the result is not masked but
    turned into two bytes. *)
Definition crc16 (data : bytes) : option bytes :=
  to_bytes_2_little (fold_left crc_byte data 0xFFFF).

End DebugTtyCrc.
Import DebugTtyCrc.

(** ** qpigs_provider.py and direct_coordinator.py: PV power *)

Module PvPower.

Local Open Scope Qc_scope.



(** [x is not None] for a value read from a dict. *)
Definition is_not_none (x : pyval) : bool :=
  match x with PyNone => false | _ => true end.




End PvPower.
Import PvPower.


(** ** aneji_modbus_provider.py: the recommended read frames *)

Module ReadFrames.

(** [build_runtime_read_frames]: seven assignments
    [frames[key] = to_hex(build_read_holding(...))], one after the other;
    the first that raises ends the call. *)
Definition build_runtime_read_frames (slave_id : Z)
  : result exn (gmap string string) :=
  let frames : gmap string string := ∅ in
  f <- build_read_holding slave_id 171 67 ;;
  let frames := <["runtime_171_237"%string := to_hex f]> frames in
  f <- build_read_holding slave_id 100 10 ;;
  let frames := <["faults_warnings_100_109"%string := to_hex f]> frames in
  f <- build_read_holding slave_id 300 40 ;;
  let frames := <["settings_300_339"%string := to_hex f]> frames in
  f <- build_read_holding slave_id 341 11 ;;
  let frames := <["soc_currents_341_351"%string := to_hex f]> frames in
  f <- build_read_holding slave_id 406 21 ;;
  let frames := <["remote_406_426"%string := to_hex f]> frames in
  f <- build_read_holding slave_id 626 19 ;;
  let frames := <["version_626_644"%string := to_hex f]> frames in
  f <- build_read_holding slave_id 700 30 ;;
  let frames := <["faultlog_700_729"%string := to_hex f]> frames in
  Ok frames.

(** The same seven blocks as a table: key, first register and register
    count, in the order of the assignments. *)
Definition read_blocks : list (string * Z * Z) :=
  [ ("runtime_171_237", 171, 67);
    ("faults_warnings_100_109", 100, 10);
    ("settings_300_339", 300, 40);
    ("soc_currents_341_351", 341, 11);
    ("remote_406_426", 406, 21);
    ("version_626_644", 626, 19);
    ("faultlog_700_729", 700, 30) ]%string.

(** A run of such assignments over a table of blocks. *)
Fixpoint fill_frames (slave_id : Z) (blocks : list (string * Z * Z))
    (frames : gmap string string) : result exn (gmap string string) :=
  match blocks with
  | [] => Ok frames
  | (key, start_reg, reg_count) :: rest =>
      frame <- build_read_holding slave_id start_reg reg_count ;;
      fill_frames slave_id rest (<[key := to_hex frame]> frames)
  end.

(** The key, and the range condition, of a block. *)
Definition block_key (b : string * Z * Z) : string := fst (fst b).
Definition block_in_range (b : string * Z * Z) : Prop :=
  0 <= snd (fst b) <= 0xFFFF /\ 1 <= snd b <= 125.

End ReadFrames.
Import ReadFrames.


(** ** debug_tty.py: tokens made of digits *)

Module Digits.

(** The number a run of decimal digits denotes. *)
Definition decimal_value (ds : list ascii) : Z :=
  fold_left (fun acc c => acc * 10 + (code c - 48)) ds 0.

Definition all_digits (ds : list ascii) : Prop :=
  Forall (fun c => isdigit c = true) ds.

End Digits.
Import Digits.

(** Where the values of a read from register 171 land. *)

Module Landing.

(** The value of [v] that belongs to the absolute address [a]:
    [v[a - 171]]. *)
Definition landed (v : list Z) (a : Z) : option Z :=
  if 171 <=? a then v !! Z.to_nat (a - 171) else None.

(** The values of the [words] addresses from [a] on. *)
Definition landed_words (v : list Z) (a : Z) (words : nat) : list Z :=
  take words (drop (Z.to_nat (a - 171)) v).

(** The text of registers that pack two characters each. *)
Definition packed_text (regs : list Z) : option string :=
  (fun raw => strip (rstrip_chars rstrip_arg (decode_ascii_ignore raw)))
    <$> pack_be_H_list regs.

End Landing.
Import Landing.

(** * Properties *)

(** ** Bytes and 16-bit words *)

Section ByteFacts.

Lemma byte_val_range (b : byte) : 0 <= byte_val b < 256.
Proof.
  unfold byte_val. pose proof (Byte.to_N_bounded b) as H.
  generalize dependent (Byte.to_N b). intros n H. lia.
Qed.

Lemma byte_of_Z_val (b : byte) : byte_of_Z (byte_val b) = b.
Proof.
  unfold byte_of_Z. pose proof (byte_val_range b) as Hb.
  rewrite Z.mod_small by lia. unfold byte_val.
  rewrite N2Z.id, Byte.of_to_N. reflexivity.
Qed.

Lemma byte_val_of_Z (z : Z) : byte_val (byte_of_Z z) = z mod 256.
Proof.
  unfold byte_of_Z, byte_val.
  pose proof (Z.mod_pos_bound z 256 ltac:(lia)) as Hm.
  destruct (Byte.of_N (Z.to_N (z mod 256))) as [b|] eqn:E.
  - apply Byte.to_of_N in E. rewrite E. apply Z2N.id. lia.
  - apply Byte.of_N_None_iff in E. lia.
Qed.

Lemma byte_val_of_Z_small (z : Z) :
  0 <= z < 256 -> byte_val (byte_of_Z z) = z.
Proof. intros H. rewrite byte_val_of_Z. apply Z.mod_small. lia. Qed.

Lemma land_255 (v : Z) : Z.land v 0xFF = v mod 256.
Proof. change 0xFF with (Z.ones 8). rewrite Z.land_ones by lia. reflexivity. Qed.

Lemma shiftr_8 (v : Z) : Z.shiftr v 8 = v / 256.
Proof. rewrite Z.shiftr_div_pow2 by lia. reflexivity. Qed.

(** A word is its low byte joined with its high byte, in either order of
    the arguments of [Z.lor]. *)
Lemma lor_bytes (lo hi : Z) :
  0 <= lo < 256 -> Z.lor lo (Z.shiftl hi 8) = lo + 256 * hi.
Proof.
  intros Hlo.
  rewrite <- Z.lxor_lor, <- Z.add_nocarry_lxor.
  - rewrite Z.shiftl_mul_pow2 by lia. change (2 ^ 8) with 256. lia.
  - apply Z.bits_inj'. intros n Hn.
    rewrite Z.land_spec, Z.bits_0.
    destruct (Z.ltb_spec n 8).
    + rewrite Z.shiftl_spec_low by lia. apply andb_false_r.
    + replace (Z.testbit lo n) with false; [reflexivity|].
      symmetry. destruct (Z.eq_dec lo 0) as [->|Hz]; [apply Z.bits_0|].
      apply Z.bits_above_log2; [lia|].
      assert (Z.log2 lo < 8) by (apply Z.log2_lt_pow2; lia). lia.
  - apply Z.bits_inj'. intros n Hn.
    rewrite Z.land_spec, Z.bits_0.
    destruct (Z.ltb_spec n 8).
    + rewrite Z.shiftl_spec_low by lia. apply andb_false_r.
    + replace (Z.testbit lo n) with false; [reflexivity|].
      symmetry. destruct (Z.eq_dec lo 0) as [->|Hz]; [apply Z.bits_0|].
      apply Z.bits_above_log2; [lia|].
      assert (Z.log2 lo < 8) by (apply Z.log2_lt_pow2; lia). lia.
Qed.

Lemma pack_le_H_some (v : Z) :
  0 <= v <= 0xFFFF ->
  pack_le_H v = Some [byte_of_Z (Z.land v 0xFF); byte_of_Z (Z.shiftr v 8)].
Proof.
  intros H. unfold pack_le_H.
  replace ((0 <=? v) && (v <=? 0xFFFF)) with true; [reflexivity|].
  symmetry. apply andb_true_iff. split; apply Z.leb_le; lia.
Qed.

Lemma pack_be_H_some (v : Z) :
  0 <= v <= 0xFFFF ->
  pack_be_H v = Some [byte_of_Z (Z.shiftr v 8); byte_of_Z (Z.land v 0xFF)].
Proof.
  intros H. unfold pack_be_H.
  replace ((0 <=? v) && (v <=? 0xFFFF)) with true; [reflexivity|].
  symmetry. apply andb_true_iff. split; apply Z.leb_le; lia.
Qed.

(** The two bytes of a word in range, read back, give the word. *)
Lemma word_of_bytes (v : Z) :
  0 <= v <= 0xFFFF ->
  Z.lor (byte_val (byte_of_Z (Z.land v 0xFF)))
        (Z.shiftl (byte_val (byte_of_Z (Z.shiftr v 8))) 8) = v.
Proof.
  intros H. rewrite land_255, shiftr_8, !byte_val_of_Z.
  rewrite Z.mod_mod by lia.
  pose proof (Z.mod_pos_bound v 256 ltac:(lia)).
  assert (0 <= v / 256 < 256)
    by (split; [apply Z.div_pos; lia | apply Z.div_lt_upper_bound; lia]).
  rewrite (Z.mod_small (v / 256)) by lia.
  rewrite lor_bytes by lia.
  pose proof (Z.div_mod v 256 ltac:(lia)). lia.
Qed.

Lemma word_of_bytes_be (v : Z) :
  0 <= v <= 0xFFFF ->
  Z.lor (Z.shiftl (byte_val (byte_of_Z (Z.shiftr v 8))) 8)
        (byte_val (byte_of_Z (Z.land v 0xFF))) = v.
Proof. intros H. rewrite Z.lor_comm. apply word_of_bytes, H. Qed.

Lemma unpack_pack_le_H (v : Z) (b : bytes) :
  pack_le_H v = Some b -> unpack_le_H b = Some v.
Proof.
  unfold pack_le_H. destruct ((0 <=? v) && (v <=? 0xFFFF)) eqn:E; [|discriminate].
  apply andb_true_iff in E as [H1 H2].
  apply Z.leb_le in H1, H2.
  intros [= <-]. simpl. f_equal. apply word_of_bytes. lia.
Qed.

End ByteFacts.

(** ** CRC16/MODBUS *)

Section CrcFacts.

(** The check value of CRC-16/MODBUS: the CRC of the ASCII digits
    "123456789" is 0x4B37. *)
Example crc16_modbus_check_value :
  crc16_modbus [x31; x32; x33; x34; x35; x36; x37; x38; x39] = 0x4B37.
Proof. reflexivity. Qed.

Lemma crc16_modbus_range (data : bytes) : 0 <= crc16_modbus data <= 0xFFFF.
Proof.
  unfold crc16_modbus. generalize (fold_left crc_byte data 0xFFFF). intros c.
  replace (Z.land c 0xFFFF) with (c mod 2 ^ 16)
    by (symmetry; apply (Z.land_ones c 16); lia).
  pose proof (Z.mod_pos_bound c (2 ^ 16) ltac:(lia)). lia.
Qed.

Lemma drop_last_app {A} (l t : list A) : drop_last (length t) (l ++ t) = l.
Proof.
  unfold drop_last. rewrite length_app.
  replace (length l + length t - length t)%nat with (length l) by lia.
  rewrite firstn_app, Nat.sub_diag, firstn_all. simpl. apply app_nil_r.
Qed.

Lemma take_last_app {A} (l t : list A) : take_last (length t) (l ++ t) = t.
Proof.
  unfold take_last. rewrite length_app.
  replace (length l + length t - length t)%nat with (length l) by lia.
  rewrite skipn_app, Nat.sub_diag, skipn_all. reflexivity.
Qed.

(** C1. [append_crc b] is [b] followed by the two bytes of
    [crc16_modbus b], low byte first; [crc16_modbus] is the bit-by-bit
    reflected CRC with polynomial 0xA001 started at 0xFFFF.  Reading the
    last two bytes of that frame as a little-endian word gives back the
    CRC recomputed over the first [len(b)] bytes, which is the comparison
    the validator makes on [payload[:-2]] and [payload[-2:]]. *)
Theorem append_crc_round_trip (b : bytes) :
  let crc := crc16_modbus b in
  let lo := byte_of_Z (Z.land crc 0xFF) in
  let hi := byte_of_Z (Z.shiftr crc 8) in
  let frame := b ++ [lo; hi] in
  crc = Z.land (fold_left
                  (fun c x => Nat.iter 8
                     (fun c => if Z.land c 1 =? 0 then Z.shiftr c 1
                               else Z.lxor (Z.shiftr c 1) 0xA001)
                     (Z.lxor c (byte_val x)))
                  b 0xFFFF) 0xFFFF
  /\ byte_val lo = crc mod 256
  /\ byte_val hi = crc / 256
  /\ append_crc b = Some frame
  /\ firstn (length b) frame = b
  /\ drop_last 2 frame = b
  /\ unpack_le_H (skipn (length b) frame)
     = Some (crc16_modbus (firstn (length b) frame))
  /\ unpack_le_H (take_last 2 frame) = Some (crc16_modbus (drop_last 2 frame)).
Proof.
  intros crc lo hi frame.
  pose proof (crc16_modbus_range b) as Hr. fold crc in Hr.
  assert (Hpack : pack_le_H crc = Some [lo; hi]) by (apply pack_le_H_some, Hr).
  assert (Hfirst : firstn (length b) frame = b).
  { unfold frame. rewrite firstn_app, Nat.sub_diag, firstn_all. apply app_nil_r. }
  assert (Hskip : skipn (length b) frame = [lo; hi]).
  { unfold frame. rewrite skipn_app, Nat.sub_diag, skipn_all. reflexivity. }
  assert (Hdrop : drop_last 2 frame = b) by apply (drop_last_app b [lo; hi]).
  assert (Htake : take_last 2 frame = [lo; hi]) by apply (take_last_app b [lo; hi]).
  repeat split.
  - unfold lo. rewrite byte_val_of_Z, land_255. apply Z.mod_mod. lia.
  - unfold lo, hi. rewrite byte_val_of_Z, shiftr_8. apply Z.mod_small.
    split; [apply Z.div_pos; lia | apply Z.div_lt_upper_bound; lia].
  - unfold append_crc. fold crc. rewrite Hpack. reflexivity.
  - exact Hfirst.
  - exact Hdrop.
  - rewrite Hskip, Hfirst. apply unpack_pack_le_H, Hpack.
  - rewrite Htake, Hdrop. apply unpack_pack_le_H, Hpack.
Qed.

End CrcFacts.

(** ** Hex text, sealed frames and register blocks *)

Section FrameFacts.

Lemma remove_spaces_cons (c : ascii) (s : string) :
  remove_spaces (String c s)
  = if Ascii.eqb c " " then remove_spaces s else String c (remove_spaces s).
Proof.
  unfold remove_spaces. simpl.
  destruct (Ascii.eqb c " "); reflexivity.
Qed.

Lemma remove_spaces_format (b : byte) (s : string) :
  remove_spaces (format_02X b ++ s) = (format_02X b ++ remove_spaces s)%string.
Proof. destruct b; reflexivity. Qed.

Lemma remove_spaces_to_hex (frame : bytes) :
  remove_spaces (to_hex frame) = hex_concat frame.
Proof.
  unfold to_hex. induction frame as [|b rest IH]; [reflexivity|].
  destruct rest as [|b' rest'].
  - destruct b; reflexivity.
  - change (join_space (map format_02X (b :: b' :: rest')))
      with (format_02X b ++ String " " (join_space (map format_02X (b' :: rest'))))%string.
    rewrite remove_spaces_format, remove_spaces_cons. simpl (Ascii.eqb _ _).
    rewrite IH. reflexivity.
Qed.

Lemma fromhex_format (b : byte) (s : string) :
  fromhex (format_02X b ++ s) = (tl <- fromhex s ;; Ok (b :: tl)).
Proof. destruct b; reflexivity. Qed.

Lemma fromhex_hex_concat (frame : bytes) : fromhex (hex_concat frame) = Ok frame.
Proof.
  induction frame as [|b rest IH]; [reflexivity|].
  simpl hex_concat. rewrite fromhex_format, IH. reflexivity.
Qed.

Lemma fromhex_to_hex (frame : bytes) :
  fromhex (remove_spaces (to_hex frame)) = Ok frame.
Proof. rewrite remove_spaces_to_hex. apply fromhex_hex_concat. Qed.

Lemma drop_last_2_app {A} (l : list A) (x y : A) : drop_last 2 (l ++ [x; y]) = l.
Proof. apply (drop_last_app l [x; y]). Qed.

Lemma take_last_2_app {A} (l : list A) (x y : A) :
  take_last 2 (l ++ [x; y]) = [x; y].
Proof. apply (take_last_app l [x; y]). Qed.

Lemma append_crc_some (b : bytes) :
  exists lo hi,
    append_crc b = Some (b ++ [lo; hi])
    /\ unpack_le_H [lo; hi] = Some (crc16_modbus b).
Proof.
  pose proof (crc16_modbus_range b) as Hr.
  exists (byte_of_Z (Z.land (crc16_modbus b) 0xFF)),
         (byte_of_Z (Z.shiftr (crc16_modbus b) 8)).
  split.
  - unfold append_crc. rewrite (pack_le_H_some _ Hr). reflexivity.
  - apply unpack_pack_le_H, pack_le_H_some, Hr.
Qed.

(** What the validator does on a frame sealed by [append_crc]. *)
Lemma expect_read_response_sealed
    (slave_id req_func : Z) (s f n : byte) (data frame : bytes)
    (expected_regs : option Z) :
  append_crc (s :: f :: n :: data) = Some frame ->
  _expect_read_response slave_id req_func frame expected_regs =
    if negb (byte_val s =? slave_id)
    then Err (ValueError (unexpected_slave_id (byte_val s) slave_id))
    else if negb (byte_val f =? req_func)
    then Err (ValueError (unexpected_function_code (byte_val f)))
    else if negb (byte_val n =? Z.of_nat (length data))
    then Err (ValueError byte_count_does_not_match)
    else
      match expected_regs with
      | Some k =>
          if negb (byte_val n =? k * 2)
          then Err (ValueError (unexpected_register_count (byte_val n / 2) k))
          else Ok (byte_val n, data)
      | None => Ok (byte_val n, data)
      end.
Proof.
  destruct (append_crc_some (s :: f :: n :: data)) as (lo & hi & Happ & Hun).
  rewrite Happ. intros [= <-].
  unfold _expect_read_response, slice_3_m2.
  change (s :: f :: n :: data ++ [lo; hi])
    with ((s :: f :: n :: data) ++ [lo; hi]).
  rewrite take_last_2_app, !drop_last_2_app, Hun, Z.eqb_refl.
  replace (length ((s :: f :: n :: data) ++ [lo; hi]) <? 5)%nat with false
    by (symmetry; apply Nat.ltb_ge; rewrite length_app; simpl; lia).
  reflexivity.
Qed.

Lemma pack_be_H_list_length (v : list Z) (data : bytes) :
  pack_be_H_list v = Some data -> length data = (2 * length v)%nat.
Proof.
  revert data. induction v as [|x v IH]; intros data; simpl.
  - intros [= <-]. reflexivity.
  - unfold pack_be_H at 1.
    destruct ((0 <=? x) && (x <=? 0xFFFF)); [|discriminate].
    destruct (pack_be_H_list v) as [bs|]; [|discriminate].
    intros [= <-]. simpl. rewrite (IH bs eq_refl). lia.
Qed.

Lemma pack_be_H_list_some (v : list Z) :
  Forall (fun x => 0 <= x <= 0xFFFF) v -> is_Some (pack_be_H_list v).
Proof.
  induction 1 as [|x v Hx _ [bs IH]]; simpl; [eexists; reflexivity|].
  rewrite (pack_be_H_some x Hx), IH. eexists; reflexivity.
Qed.

Lemma unpack_pack_be_H_list (v : list Z) (data : bytes) :
  pack_be_H_list v = Some data -> unpack_be_H_list data = v.
Proof.
  revert data. induction v as [|x v IH]; intros data; simpl.
  - intros [= <-]. reflexivity.
  - unfold pack_be_H at 1.
    destruct ((0 <=? x) && (x <=? 0xFFFF)) eqn:E; [|discriminate].
    apply andb_true_iff in E as [H1 H2]. apply Z.leb_le in H1, H2.
    destruct (pack_be_H_list v) as [bs|]; [|discriminate].
    intros [= <-]. simpl. rewrite (IH bs eq_refl).
    f_equal. apply word_of_bytes_be. lia.
Qed.

Lemma bytes_to_u16_list_packed (v : list Z) (data : bytes) :
  pack_be_H_list v = Some data -> bytes_to_u16_list data = Ok v.
Proof.
  intros H. unfold bytes_to_u16_list.
  rewrite (pack_be_H_list_length v data H).
  replace (2 * length v)%nat with (length v * 2)%nat by lia.
  rewrite Nat.Div0.mod_mul. simpl.
  rewrite (unpack_pack_be_H_list v data H). reflexivity.
Qed.

(** The dict built from a register slice. *)
Lemma block_from_lookup (regs : list Z) :
  forall (addr : Z) (blk : gmap Z Z) (a : Z),
    block_from addr regs blk !! a =
      if (addr <=? a) && (a <? addr + Z.of_nat (length regs))
      then regs !! Z.to_nat (a - addr)
      else blk !! a.
Proof.
  induction regs as [|r rest IH]; intros addr blk a; simpl block_from.
  - replace ((addr <=? a) && (a <? addr + Z.of_nat (length (@nil Z)))) with false;
      [reflexivity|].
    symmetry. apply andb_false_iff. simpl.
    destruct (Z.leb_spec addr a); [right; apply Z.ltb_ge; lia | left; reflexivity].
  - rewrite IH. simpl length.
    destruct (Z.leb_spec (addr + 1) a); destruct (Z.ltb_spec a (addr + 1 + Z.of_nat (length rest)));
      destruct (Z.leb_spec addr a); destruct (Z.ltb_spec a (addr + Z.of_nat (S (length rest))));
      simpl; try lia.
    + replace (Z.to_nat (a - addr)) with (S (Z.to_nat (a - (addr + 1)))) by lia.
      reflexivity.
    + apply lookup_insert_ne. lia.
    + assert (a = addr) as -> by lia.
      rewrite lookup_insert_eq, Z.sub_diag. reflexivity.
    + apply lookup_insert_ne. lia.
Qed.

Lemma block_of_lookup (start_reg : Z) (regs : list Z) (a : Z) :
  block_of start_reg regs !! a =
    if (start_reg <=? a) && (a <? start_reg + Z.of_nat (length regs))
    then regs !! Z.to_nat (a - start_reg)
    else None.
Proof. unfold block_of. rewrite block_from_lookup, lookup_empty. reflexivity. Qed.

End FrameFacts.

(** ** Response validation *)

Section ValidationFacts.

Lemma take_last_2_length {A} (l : list A) :
  (2 <= length l)%nat -> exists x y, take_last 2 l = [x; y].
Proof.
  intros H. unfold take_last.
  pose proof (length_skipn (length l - 2) l) as Hs.
  destruct (skipn (length l - 2) l) as [|x [|y [|z t]]]; simpl in Hs; try lia.
  exists x, y. reflexivity.
Qed.

Lemma index_octet (payload : bytes) (i : nat) :
  (i < length payload)%nat -> index payload i = Ok (octet payload i).
Proof.
  intros H. unfold index, octet, byte_at.
  destruct (lookup_lt_is_Some_2 payload i H) as [b ->]. reflexivity.
Qed.

Lemma slice_3_m2_length (payload : bytes) :
  (5 <= length payload)%nat ->
  Z.of_nat (length (slice_3_m2 payload)) = Z.of_nat (length payload) - 5.
Proof.
  intros H. unfold slice_3_m2, drop_last.
  rewrite length_skipn, length_firstn. lia.
Qed.

(** C3 (amended). [_expect_read_response] makes its checks in this order,
    each with a failure of its own: length at least 5; CRC over all bytes
    but the last two against the trailing little-endian word; slave id;
    function code; declared byte count against the length of the data;
    byte count against twice the requested register count when one is
    given.  A wrong function code raises one and the same failure whether
    or not its high bit is set; the failure carries the code received.
    Nothing but these [ValueError]s is raised, and an accepted response
    returns its declared byte count and the data between header and CRC. *)
Theorem expect_read_response_checks
    (slave_id req_func : Z) (payload : bytes) (expected_regs : option Z) :
  outcome (_expect_read_response slave_id req_func payload expected_regs)
  = ordered_checks function_code_failure_raised
      slave_id req_func payload expected_regs
  /\ match _expect_read_response slave_id req_func payload expected_regs with
     | Ok (byte_count, data) =>
         byte_count = octet payload 2 /\ data = slice_3_m2 payload
     | Err (ValueError _) => True
     | Err _ => False
     end.
Proof.
  unfold _expect_read_response, ordered_checks, trailing_crc.
  destruct (Nat.ltb_spec (length payload) 5) as [Hshort|Hlen].
  { split; [reflexivity | exact I]. }
  pose proof (index_octet payload 0 ltac:(lia)) as H0.
  pose proof (index_octet payload 1 ltac:(lia)) as H1.
  pose proof (index_octet payload 2 ltac:(lia)) as H2.
  pose proof (slice_3_m2_length payload Hlen) as Hdata.
  destruct (take_last_2_length payload ltac:(lia)) as (lo & hi & ->).
  cbn [unpack_le_H].
  set (recv := Z.lor (byte_val lo) (Z.shiftl (byte_val hi) 8)).
  set (calc := crc16_modbus (drop_last 2 payload)).
  destruct (recv =? calc); cbn [negb].
  2: { split; [reflexivity | exact I]. }
  rewrite H0, H1, H2. cbn [bind].
  destruct (octet payload 0 =? slave_id); cbn [negb].
  2: { split; [reflexivity | exact I]. }
  destruct (octet payload 1 =? req_func); cbn [negb].
  2: { split; [reflexivity | exact I]. }
  rewrite Hdata.
  destruct (octet payload 2 =? Z.of_nat (length payload) - 5); cbn [negb].
  2: { split; [reflexivity | exact I]. }
  destruct expected_regs as [n|].
  2: { split; [reflexivity | split; reflexivity]. }
  rewrite (Z.mul_comm n 2).
  destruct (octet payload 2 =? 2 * n); cbn [negb].
  - split; [reflexivity | split; reflexivity].
  - split; [reflexivity | exact I].
Qed.

(** C3 as stated fails: on the exception reply 01 83 02 C0 F1 to a read
    the specification's checks give a device exception, the code raises
    the failure of a plain function-code mismatch, the same as on a reply
    with function 0x04. *)
Lemma exception_code_is_not_distinguished :
  outcome (_expect_read_response 1 3 exception_reply (Some 67))
  <> ordered_checks function_code_failure_specified
       1 3 exception_reply (Some 67)
  /\ _expect_read_response 1 3 exception_reply (Some 67)
     = Err (ValueError (unexpected_function_code 0x83))
  /\ _expect_read_response 1 3 wrong_function_reply (Some 67)
     = Err (ValueError (unexpected_function_code 0x04)).
Proof.
  split; [intros H; vm_compute in H; discriminate H|].
  split; vm_compute; reflexivity.
Qed.

End ValidationFacts.

(** ** Floats *)

Section FloatFacts.

Local Open Scope Qc_scope.

Lemma feqb_eq (x y : Qc) : feqb x y = true <-> x = y.
Proof.
  unfold feqb. rewrite Qeq_bool_iff. split.
  - apply Qc_is_canon.
  - intros ->. reflexivity.
Qed.

Lemma feqb_neq (x y : Qc) : feqb x y = false <-> x <> y.
Proof.
  rewrite <- feqb_eq. destruct (feqb x y); split; congruence.
Qed.




Lemma Qcminus_0_r (x : Qc) : x - 0 = x.
Proof. ring. Qed.

Lemma Qcminus_0_l (x : Qc) : 0 - x = - x.
Proof. ring. Qed.

End FloatFacts.

(** Two canonical rationals are equal when their fractions are. *)
Ltac qc_eq := apply Qc_is_canon; vm_compute; reflexivity.

(** ** Signed battery current *)

Section ResolverFacts.

Local Open Scope Qc_scope.

Lemma or_zero_or_0 (x : option Qc) : or_zero x = or_0 x.
Proof.
  destruct x as [v|]; [|reflexivity]. simpl.
  destruct (feqb v 0) eqn:E; [|reflexivity].
  apply feqb_eq in E. congruence.
Qed.

Lemma battery_current_difference (qpigs : gmap string pyval) :
  _battery_current qpigs =
    match _f (dict_get qpigs charge_key), _f (dict_get qpigs discharge_key) with
    | None, None => None
    | ci, di => Some (or_0 ci - or_0 di)
    end.
Proof.
  unfold _battery_current. fold charge_key discharge_key.
  rewrite !or_zero_or_0.
  destruct (_f (dict_get qpigs charge_key)) as [c|];
    destruct (_f (dict_get qpigs discharge_key)) as [d|];
    cbn [is_set negb andb or_0]; try reflexivity.
  - destruct (fltb 0 c && feqb d 0) eqn:E1.
    { apply andb_true_iff in E1 as [_ Hd]. apply feqb_eq in Hd. subst d.
      rewrite Qcminus_0_r. reflexivity. }
    destruct (fltb 0 d && feqb c 0) eqn:E2; [|reflexivity].
    apply andb_true_iff in E2 as [_ Hc]. apply feqb_eq in Hc. subst c.
    rewrite Qcminus_0_l. reflexivity.
  - replace (feqb 0 0) with true by reflexivity. rewrite andb_true_r.
    destruct (fltb 0 c); [rewrite Qcminus_0_r; reflexivity|].
    replace (fltb 0 0) with false by reflexivity. reflexivity.
  - replace (feqb 0 0) with true by reflexivity. rewrite andb_true_r.
    replace (fltb 0 0) with false by reflexivity. cbn [andb].
    rewrite Qcminus_0_l. destruct (fltb 0 d); reflexivity.
Qed.

(** C4 (amended). With both currents absent the result is absent;
    otherwise an absent current counts as 0 and the result is
    charge - discharge: +charge when only the charge is positive and the
    discharge is zero, -discharge in the opposite case, the difference
    when both are nonzero.  Both copies of the resolver agree.  Charge 0
    and discharge 0 give 0 (not absent); 8.9 and 0 give 8.9; 0 and 3.2
    give -3.2; 2 and 1 give 1. *)
Theorem battery_current_resolver (qpigs : gmap string pyval) :
  let ci := _f (dict_get qpigs charge_key) in
  let di := _f (dict_get qpigs discharge_key) in
  let c := or_0 ci in
  let d := or_0 di in
  (ci = None /\ di = None -> _battery_current qpigs = None)
  /\ (~ (ci = None /\ di = None) ->
        _battery_current qpigs = Some (c - d)
        /\ (0 < c -> d = 0 -> _battery_current qpigs = Some c)
        /\ (0 < d -> c = 0 -> _battery_current qpigs = Some (- d))
        /\ (c <> 0 -> d <> 0 -> _battery_current qpigs = Some (c - d)))
  /\ _battery_current_signed qpigs = _battery_current qpigs
  /\ _battery_current (currents (PyFloat 0) (PyFloat 0)) = Some 0
  /\ _battery_current (currents (PyFloat (Q2Qc (89 # 10))) (PyFloat 0))
     = Some (Q2Qc (89 # 10))
  /\ _battery_current (currents (PyFloat 0) (PyFloat (Q2Qc (32 # 10))))
     = Some (- Q2Qc (32 # 10))
  /\ _battery_current (currents (PyFloat (Q2Qc 2)) (PyFloat 1)) = Some 1.
Proof.
  intros ci di c d.
  pose proof (battery_current_difference qpigs) as Hd.
  fold ci di in Hd.
  split; [|split; [|split; [reflexivity|]]].
  - intros [Hc Hdi]. rewrite Hd, Hc, Hdi. reflexivity.
  - intros Hn.
    assert (Hr : _battery_current qpigs = Some (c - d)).
    { rewrite Hd. subst c d. destruct ci, di; try reflexivity.
      exfalso. apply Hn. split; reflexivity. }
    split; [exact Hr|]. split; [|split].
    + intros _ ->. rewrite Hr, Qcminus_0_r. reflexivity.
    + intros _ ->. rewrite Hr, Qcminus_0_l. reflexivity.
    + intros _ _. exact Hr.
  - repeat split; vm_compute; f_equal; qc_eq.
Qed.

Lemma battery_current_resolver_witness :
  let qpigs := currents (PyStr "8.9") (PyStr "0.0") in
  _f (dict_get qpigs charge_key) = Some (Q2Qc (89 # 10))
  /\ _f (dict_get qpigs discharge_key) = Some 0
  /\ _battery_current qpigs = Some (Q2Qc (89 # 10)).
Proof.
  intros qpigs.
  assert (Hc : _f (dict_get qpigs charge_key) = Some (Q2Qc (89 # 10)))
    by (vm_compute; f_equal; qc_eq).
  assert (Hd : _f (dict_get qpigs discharge_key) = Some 0)
    by (vm_compute; f_equal; qc_eq).
  split; [exact Hc|]. split; [exact Hd|].
  destruct (battery_current_resolver qpigs) as (_ & H & _).
  destruct H as (_ & Hpos & _).
  - rewrite Hc. intros [[=] _].
  - rewrite Hpos; rewrite ?Hc, ?Hd; try reflexivity.
Defined.

(** C4 as stated fails: two zero readings give the value 0, in both
    copies of the resolver. *)
Lemma zero_currents_are_not_absent :
  _battery_current (currents (PyFloat 0) (PyFloat 0)) <> None
  /\ _battery_current_signed (currents (PyInt 0) (PyInt 0)) <> None.
Proof. split; vm_compute; discriminate. Qed.

End ResolverFacts.

(** ** The energy accumulator *)

Section EnergyFacts.

Import Energy Soc.
Local Open Scope Qc_scope.

Lemma Qc_3600_neq_0 : Q2Qc 3600 <> 0.
Proof. intros H. apply Q2Qc_eq_iff in H. discriminate H. Qed.

Lemma Qc_2_neq_0 : Q2Qc 2 <> 0.
Proof. intros H. apply Q2Qc_eq_iff in H. discriminate H. Qed.

Lemma update_energy_value_trapezoid (self : MyEnergySensor) (cur now : Qc) :
  _attr_native_value (update_energy_value self cur now) =
    match _prev_value self with
    | Some prev =>
        _attr_native_value self
        + trapezoid prev cur
            (whole_second_hours_between now (_prev_value_timestamp self))
    | None => _attr_native_value self
    end.
Proof.
  unfold update_energy_value, trapezoid, whole_second_hours_between,
    elapsed_whole_seconds.
  cbn [_attr_native_value]. destruct (_prev_value self) as [prev|]; [|reflexivity].
  f_equal. field. split; [apply Qc_3600_neq_0 | apply Qc_2_neq_0].
Qed.

Lemma int_of_float_of_int (z : Z) : int_of_float (float_of_int z) = z.
Proof.
  unfold int_of_float, float_of_int. cbn [this Q2Qc].
  rewrite Qred_identity.
  - simpl. apply Z.quot_1_r.
  - simpl. apply Z.gcd_1_r.
Qed.

Lemma one_hour_later (t : Qc) : t + Q2Qc 3600 - t = Q2Qc 3600.
Proof. ring. Qed.

Lemma whole_hour (t : Qc) :
  whole_second_hours_between (t + Q2Qc 3600) t = 1.
Proof.
  unfold whole_second_hours_between. rewrite one_hour_later.
  change (Q2Qc 3600) with (float_of_int 3600) at 1.
  rewrite int_of_float_of_int. qc_eq.
Qed.

Lemma exact_hour (t : Qc) : hours_between (t + Q2Qc 3600) t = 1.
Proof. unfold hours_between. rewrite one_hour_later. qc_eq. Qed.

Lemma trapezoid_one_hour (a b : Qc) : trapezoid a b 1 = (a + b) / Q2Qc 2.
Proof. unfold trapezoid. apply Qcmult_1_r. Qed.

Lemma accumulate_step (self : SocCalculatorMixin) (cur now : Qc) :
  _accumulate self cur now =
    if _has_prev self then
      match _prev_ts self with
      | Some prev_ts =>
          Ok (mkSoc (_accumulated_energy_wh self
                     + trapezoid (_prev_power self) cur
                         (hours_between now prev_ts))
                cur (Some now) true)
      | None => Err TypeError
      end
    else Ok (mkSoc (_accumulated_energy_wh self) cur (Some now) true).
Proof.
  unfold _accumulate. destruct (_has_prev self); reflexivity.
Qed.

Lemma energy_after_two_first (self : MyEnergySensor) (a b t : Qc) :
  _prev_value self = None ->
  energy_after_two self a b t = _attr_native_value self + (a + b) / Q2Qc 2.
Proof.
  intros Hp. unfold energy_after_two.
  rewrite update_energy_value_trapezoid.
  cbn [update_energy_value _prev_value _prev_value_timestamp _attr_native_value].
  rewrite Hp, whole_hour, trapezoid_one_hour. reflexivity.
Qed.

Lemma accumulated_after_two_first (self : SocCalculatorMixin) (a b t : Qc) :
  _has_prev self = false ->
  accumulated_after_two self a b t
  = Some (_accumulated_energy_wh self + (a + b) / Q2Qc 2).
Proof.
  intros Hp. unfold accumulated_after_two.
  rewrite (accumulate_step self), Hp, accumulate_step.
  cbn [_has_prev _prev_ts _accumulated_energy_wh _prev_power].
  rewrite exact_hour, trapezoid_one_hour. reflexivity.
Qed.

(** C5 (amended). On the first sample (no previous value) both
    accumulators store the sample and the instant and add nothing.  On a
    later sample they add the trapezoid (previous + current) / 2 x hours
    and replace the stored sample and instant; the hours are the exact
    wall-clock difference in [_accumulate], and the difference cut to
    whole seconds in [update_energy_value].  Samples 100 W, 100 W one hour
    apart add exactly 100 Wh, and so do 0 W, 200 W. *)
Theorem energy_accumulation :
  (forall (self : MyEnergySensor) (cur now : Qc),
      let s := update_energy_value self cur now in
      _prev_value s = Some cur
      /\ _prev_value_timestamp s = now
      /\ _attr_native_value s =
           match _prev_value self with
           | Some prev =>
               _attr_native_value self
               + trapezoid prev cur
                   (whole_second_hours_between now (_prev_value_timestamp self))
           | None => _attr_native_value self
           end)
  /\ (forall (self : SocCalculatorMixin) (cur now : Qc),
        _accumulate self cur now =
          if _has_prev self then
            match _prev_ts self with
            | Some prev_ts =>
                Ok (mkSoc (_accumulated_energy_wh self
                           + trapezoid (_prev_power self) cur
                               (hours_between now prev_ts))
                      cur (Some now) true)
            | None => Err TypeError
            end
          else Ok (mkSoc (_accumulated_energy_wh self) cur (Some now) true))
  /\ (forall (native t0 t : Qc),
        let self := mkEnergy native None t0 in
        energy_after_two self (Q2Qc 100) (Q2Qc 100) t = native + Q2Qc 100
        /\ energy_after_two self 0 (Q2Qc 200) t = native + Q2Qc 100)
  /\ (forall (t : Qc),
        accumulated_after_two init (Q2Qc 100) (Q2Qc 100) t = Some (Q2Qc 100)
        /\ accumulated_after_two init 0 (Q2Qc 200) t = Some (Q2Qc 100)).
Proof.
  split; [|split; [|split]].
  - intros self cur now s. split; [reflexivity|]. split; [reflexivity|].
    apply update_energy_value_trapezoid.
  - apply accumulate_step.
  - intros native t0 t self.
    rewrite !energy_after_two_first by reflexivity.
    cbn [_attr_native_value self]. split; f_equal; qc_eq.
  - intros t. rewrite !accumulated_after_two_first by reflexivity.
    split; f_equal; qc_eq.
Qed.

(** C5 as stated fails for [update_energy_value]: with the samples 1.5
    seconds apart the energy added is not the trapezoid over the
    wall-clock difference (it is the trapezoid over one second). *)
Lemma elapsed_time_is_cut_to_whole_seconds :
  let self := mkEnergy 0 (Some (Q2Qc 100)) 0 in
  let now := Q2Qc (3 # 2) in
  _attr_native_value (update_energy_value self (Q2Qc 100) now)
  <> _attr_native_value self
     + trapezoid (Q2Qc 100) (Q2Qc 100)
         (hours_between now (_prev_value_timestamp self)).
Proof.
  intros self now H. apply (f_equal this) in H. vm_compute in H. discriminate H.
Qed.

End EnergyFacts.

(** ** Comparisons and the clamp on binary64 *)

Section Binary64Facts.

Import Binary64.











Lemma nan_percentage_binary64 (cap : float) :
  mul (div nan cap) (of_int 100) = nan.
Proof. reflexivity. Qed.

End Binary64Facts.

(** ** The state-of-charge estimator *)

Section SocFacts.

Import Energy Soc.
Local Open Scope Qc_scope.






Lemma accumulate_well_formed (self : SocCalculatorMixin) (p now : Qc) :
  well_formed self = true ->
  exists s1, _accumulate self p now = Ok s1 /\ well_formed s1 = true
             /\ _has_prev s1 = true.
Proof.
  unfold well_formed, _accumulate. intros Hw.
  destruct (_has_prev self); cbn [negb].
  - destruct (_prev_ts self) as [t|]; [|discriminate Hw].
    eexists. split; [reflexivity|]. split; reflexivity.
  - eexists. split; [reflexivity|]. split; reflexivity.
Qed.







End SocFacts.

(** ** Decoding a register block *)

Section TelemetryFacts.

Lemma block_of_in_range (start_reg : Z) (regs : list Z) (a v : Z) :
  Forall is_u16 regs -> block_of start_reg regs !! a = Some v -> is_u16 v.
Proof.
  intros Hr. rewrite block_of_lookup.
  destruct ((start_reg <=? a) && (a <? start_reg + Z.of_nat (length regs)));
    [|discriminate].
  intros Hl. exact (proj1 (Forall_lookup _ _) Hr _ _ Hl).
Qed.

Lemma u16_as_i16_some (v : Z) : is_u16 v -> is_Some (u16_as_i16 v).
Proof.
  intros [H0 H1]. unfold u16_as_i16.
  replace ((0 <=? v) && (v <=? 0xFFFF)) with true; [eexists; reflexivity|].
  symmetry. apply andb_true_iff. split; apply Z.leb_le; assumption.
Qed.

Lemma forallb_map_seq {A} (p : A -> bool) (g : nat -> A) (q : nat -> bool)
    (l : list nat) :
  (forall i, q i = p (g i)) -> forallb q l = forallb p (map g l).
Proof.
  intros H. induction l as [|i l IH]; [reflexivity|].
  cbn [map forallb]. rewrite H, IH. reflexivity.
Qed.

Section Getters.
Variable block : gmap Z Z.
Hypothesis block_in_range : forall a v, block !! a = Some v -> is_u16 v.

Lemma get_uint_shape (a : Z) :
  exists o, get_uint block a = Ok o /\ is_set o = present block a.
Proof. eexists. split; reflexivity. Qed.

Lemma get_int_shape (a : Z) (scale : Qc) :
  exists o, get_int block a scale = Ok o /\ is_set o = present block a.
Proof.
  unfold get_int, present. destruct (block !! a) as [v|] eqn:E.
  - destruct (u16_as_i16_some v (block_in_range a v E)) as [i ->].
    eexists. split; reflexivity.
  - eexists. split; reflexivity.
Qed.

Lemma get_int_as_int_shape (a : Z) :
  exists o, get_int_as_int block a = Ok o /\ is_set o = present block a.
Proof.
  unfold get_int_as_int.
  destruct (get_int_shape a scale_1) as (o & -> & Ho). cbn [bind].
  destruct o as [x|]; eexists; (split; [reflexivity|]); exact Ho.
Qed.

Lemma all_in_block_words (a : Z) (words : nat) :
  all_in_block block a words = forallb (present block) (words_from a words).
Proof.
  unfold all_in_block, words_from. apply forallb_map_seq.
  intros i. unfold present.
  destruct (block !! (a + Z.of_nat i)); reflexivity.
Qed.

Lemma join_words_some (words : nat) :
  forall a, all_in_block block a words = true ->
            is_Some (join_words block a words).
Proof.
  induction words as [|n IH]; intros a H; [eexists; reflexivity|].
  rewrite all_in_block_words in H. unfold words_from in H.
  cbn [seq map forallb] in H. apply andb_true_iff in H as [Ha Hrest].
  unfold present in Ha. rewrite Z.add_0_r in Ha.
  cbn [join_words]. destruct (block !! a) as [v|] eqn:E; [|discriminate Ha].
  rewrite (pack_be_H_some v (block_in_range a v E)).
  destruct (IH (a + 1)) as [bs ->]; [|eexists; reflexivity].
  rewrite all_in_block_words. unfold words_from.
  rewrite <- seq_shift, map_map in Hrest.
  rewrite <- Hrest. f_equal. apply map_ext. intros i. lia.
Qed.

Lemma get_ascii_shape (a : Z) (words : nat) :
  exists o, get_ascii block a words = Ok o
            /\ is_set o = forallb (present block) (words_from a words).
Proof.
  unfold get_ascii. rewrite <- all_in_block_words.
  destruct (all_in_block block a words) eqn:E.
  - destruct (join_words_some words a E) as [bs ->].
    eexists. split; reflexivity.
  - eexists. split; reflexivity.
Qed.

End Getters.

Lemma is_set_fmap {A B} (f : A -> B) (o : option A) :
  is_set (f <$> o) = is_set o.
Proof. destruct o; reflexivity. Qed.

Lemma forallb_single {A} (p : A -> bool) (a : A) : forallb p [a] = p a.
Proof. apply andb_true_r. Qed.

Lemma bind_Ok {E A B} (a : A) (k : A -> result E B) : bind (Ok a) k = k a.
Proof. reflexivity. Qed.

Ltac getter_shape Hr :=
  match goal with
  | |- context [get_uint ?b ?a] =>
      let o := fresh "o" in let H := fresh "Hset" in let E := fresh "E" in
      destruct (get_uint_shape b a) as (o & E & H); rewrite E; clear E
  | |- context [get_int_as_int ?b ?a] =>
      let o := fresh "o" in let H := fresh "Hset" in let E := fresh "E" in
      destruct (get_int_as_int_shape b Hr a) as (o & E & H); rewrite E; clear E
  | |- context [get_int ?b ?a ?s] =>
      let o := fresh "o" in let H := fresh "Hset" in let E := fresh "E" in
      destruct (get_int_shape b Hr a s) as (o & E & H); rewrite E; clear E
  | |- context [get_ascii ?b ?a ?w] =>
      let o := fresh "o" in let H := fresh "Hset" in let E := fresh "E" in
      destruct (get_ascii_shape b Hr a w) as (o & E & H); rewrite E; clear E
  end.

Lemma parse_from_block_fields (start_reg : Z) (regs : list Z) :
  Forall is_u16 regs ->
  exists t,
    parse_from_block start_reg regs = Ok t
    /\ forall f,
         field_is_set f t
         = forallb (present (block_of start_reg regs)) (field_addresses f).
Proof.
  intros Hregs.
  assert (Hr : forall a v, block_of start_reg regs !! a = Some v -> is_u16 v)
    by (intros a v; apply block_of_in_range, Hregs).
  unfold parse_from_block.
  generalize dependent (block_of start_reg regs). intros block Hr.
  cbv zeta. repeat getter_shape Hr. repeat (rewrite bind_Ok; cbv beta).
  eexists. split; [reflexivity|].
  intros f. destruct f;
    cbn [field_is_set field_addresses device_type device_name protocol_number
         serial_number work_mode power_flow mains_voltage_v mains_freq_hz
         mains_power_w inv_voltage_v inv_current_a inv_freq_hz inv_power_w
         inv_charge_power_w inv_charge_current_a out_voltage_v out_current_a
         out_freq_hz out_active_power_w out_apparent_power_va load_percent
         bat_voltage_v bat_current_a bat_power_w soc_percent pv_voltage_v
         pv_current_a pv_power_w pv_charge_power_w pv_charge_current_a];
    rewrite ?is_set_fmap;
    match goal with
    | H : is_set ?o = ?rhs |- is_set ?o = forallb _ [_] =>
        rewrite forallb_single; exact H
    | H : is_set ?o = ?rhs |- is_set ?o = _ => exact H
    end.
Qed.

(** C7. A register block of 16-bit values always decodes, whatever part
    of the map it covers; if an address a field is read from (any of the
    twelve for a packed string) is not in the block, the field of the
    [RuntimeTelemetry] is [None], and a field is set exactly when all its
    addresses are in the block. *)
Theorem absent_registers_give_absent_fields (start_reg : Z) (regs : list Z) :
  Forall is_u16 regs ->
  exists t,
    parse_from_block start_reg regs = Ok t
    /\ (forall f a, In a (field_addresses f) ->
                    block_of start_reg regs !! a = None ->
                    field_is_set f t = false)
    /\ (forall f,
          field_is_set f t = true
          <-> forall a, In a (field_addresses f) ->
                        is_Some (block_of start_reg regs !! a)).
Proof.
  intros Hregs.
  destruct (parse_from_block_fields start_reg regs Hregs) as (t & Ht & Hf).
  exists t. split; [exact Ht|]. split.
  - intros f a Ha Hnone. rewrite Hf.
    apply not_true_iff_false. intros Hall.
    rewrite forallb_forall in Hall. specialize (Hall a Ha).
    unfold present in Hall. rewrite Hnone in Hall. discriminate Hall.
  - intros f. rewrite Hf, forallb_forall. unfold present.
    split; intros H a Ha; specialize (H a Ha);
      destruct (block_of start_reg regs !! a); try discriminate;
      try reflexivity; [eexists; reflexivity | destruct H as [? [=]]].
Qed.

Lemma absent_registers_give_absent_fields_witness :
  let regs := [1; 2301; 5000; 65416] in
  Forall is_u16 regs
  /\ exists t,
       parse_from_block 201 regs = Ok t
       /\ (forall f a, In a (field_addresses f) ->
                       block_of 201 regs !! a = None ->
                       field_is_set f t = false)
       /\ (forall f,
             field_is_set f t = true
             <-> forall a, In a (field_addresses f) ->
                           is_Some (block_of 201 regs !! a)).
Proof.
  intros regs.
  assert (Hr : Forall is_u16 regs) by (repeat constructor; lia).
  split; [exact Hr|].
  exact (absent_registers_give_absent_fields 201 regs Hr).
Defined.

(** C8, the code at a failing input.  The registers of the name "ABC"
    padded with NUL decode to "ABC" followed by the 21 NUL characters: the
    argument of [rstrip] in [get_ascii] is the four characters backslash,
    x, 0, 0, not the NUL character.  The module's own [_ascii] trims the
    same bytes to "ABC". *)
Theorem packed_name_keeps_trailing_nul :
  match parse_from_block 172 name_registers with
  | Ok t =>
      device_name t
      = Some ("ABC" ++ string_of_list_ascii (repeat zero 21))%string
  | Err _ => False
  end
  /\ get_ascii (block_of 172 name_registers) 172 12
     = Ok (Some ("ABC" ++ string_of_list_ascii (repeat zero 21))%string)
  /\ pack_be_H_list name_registers = Some name_bytes
  /\ _ascii name_bytes = "ABC"%string.
Proof. repeat split; vm_compute; reflexivity. Qed.

End TelemetryFacts.

(** ** The QPIGS decoder *)

Section DecoderFacts.

Lemma is_integer_float_of_int (z : Z) : is_integer (float_of_int z) = true.
Proof.
  unfold is_integer, float_of_int. cbn [this Q2Qc].
  rewrite Qred_identity; [reflexivity|]. simpl. apply Z.gcd_1_r.
Qed.

Lemma float_of_int_of_float (f : Qc) :
  is_integer f = true -> float_of_int (int_of_float f) = f.
Proof.
  unfold is_integer, int_of_float, float_of_int. intros H.
  apply Pos.eqb_eq in H. apply Qc_is_canon. cbn [this Q2Qc].
  rewrite Qred_correct. destruct f as [[n d] Hc]. cbn [this Qnum Qden] in *.
  subst d. rewrite Z.quot_1_r. reflexivity.
Qed.

Lemma parse_value_int (v : string) (z : Z) :
  parse_value v = PyInt z <-> parse_float v = Some (float_of_int z).
Proof.
  unfold parse_value. destruct (parse_float v) as [f|]; [|split; discriminate].
  destruct (is_integer f) eqn:E.
  - split.
    + intros [= <-]. rewrite float_of_int_of_float by exact E. reflexivity.
    + intros [= ->]. rewrite int_of_float_of_int. reflexivity.
  - split; [discriminate|]. intros [= ->].
    rewrite is_integer_float_of_int in E. discriminate E.
Qed.

Lemma parse_value_float (v : string) (f : Qc) :
  parse_value v = PyFloat f <-> parse_float v = Some f /\ is_integer f = false.
Proof.
  unfold parse_value. destruct (parse_float v) as [g|].
  - destruct (is_integer g) eqn:E.
    + split; [discriminate|]. intros [[= ->] H]. congruence.
    + split; [intros [= <-]; split; [reflexivity | exact E]|].
      intros [[= ->] _]. reflexivity.
  - split; [discriminate | intros [[=] _]].
Qed.

Lemma parse_value_str (v s : string) :
  parse_value v = PyStr s <-> parse_float v = None /\ s = v.
Proof.
  unfold parse_value. destruct (parse_float v) as [g|].
  - destruct (is_integer g); split; try discriminate; intros [[=] _].
  - split; [intros [= <-]; split; reflexivity | intros [_ ->]; reflexivity].
Qed.

(** Lookup in a dict built from zipped keys and values. *)
Lemma fold_insert_zip {V} (ks : list string) :
  forall (vs : list V) (m : gmap string V) (k : string),
    (~ In k ks ->
     fold_left (fun d kv => <[fst kv := snd kv]> d) (PyNum.zip ks vs) m !! k
     = m !! k)
    /\ (forall i, NoDup ks -> ks !! i = Some k ->
          fold_left (fun d kv => <[fst kv := snd kv]> d) (PyNum.zip ks vs) m !! k
          = match vs !! i with Some v => Some v | None => m !! k end).
Proof.
  induction ks as [|k0 ks IH]; intros vs m k.
  - split; [reflexivity | intros i _ [=]].
  - destruct vs as [|v0 vs].
    + split; [reflexivity|]. intros i _ _. cbn. reflexivity.
    + cbn [PyNum.zip fold_left fst snd]. split.
      * intros Hn. destruct (IH vs (<[k0:=v0]> m) k) as [H1 _].
        rewrite H1 by (intros Hin; apply Hn; right; exact Hin).
        apply lookup_insert_ne. intros ->. apply Hn. left. reflexivity.
      * intros i Hnd Hi. apply NoDup_cons in Hnd as [Hk0 Hnd].
        destruct i as [|i].
        -- injection Hi as ->.
           destruct (IH vs (<[k:=v0]> m) k) as [H1 _].
           rewrite H1 by (rewrite <- list_elem_of_In; exact Hk0).
           cbn. apply lookup_insert_eq.
        -- destruct (IH vs (<[k0:=v0]> m) k) as [_ H2].
           rewrite (H2 i Hnd Hi). cbn [lookup]. simpl.
           destruct (vs !! i); [reflexivity|].
           apply lookup_insert_ne. intros ->.
           apply Hk0. apply list_elem_of_lookup. exists i. exact Hi.
Qed.

Lemma fields_NoDup : NoDup fields.
Proof. apply (bool_decide_unpack _). vm_compute. reflexivity. Qed.

Lemma decode_qpigs_lookup (ascii_str : string) (i : nat) (name : string) :
  fields !! i = Some name ->
  decode_qpigs ascii_str !! name = parse_value <$> (tokens ascii_str !! i).
Proof.
  intros Hi. unfold decode_qpigs, py_dict, tokens.
  destruct (fold_insert_zip fields (map parse_value (split (strip ascii_str)))
              ∅ name) as [_ H].
  rewrite (H i fields_NoDup Hi), lookup_empty.
  change (map parse_value (split (strip ascii_str)))
    with (parse_value <$> split (strip ascii_str)).
  rewrite list_lookup_fmap.
  destruct (split (strip ascii_str) !! i); reflexivity.
Qed.

(** C9 (amended). The token at position [i] of the reply is stored under
    the [i]-th field name, parsed: a token that [float] accepts becomes an
    int when its value is integral and a float otherwise, and any other
    token is kept as the string it is; parsing never fails.  In the
    example reply grid_voltage is the int 230 (the token 230.0 has an
    integral value), battery_capacity is the int 62, and battery_voltage
    is the float 52.4. *)
Theorem decode_qpigs_tokens :
  (forall (ascii_str : string) (i : nat) (name : string),
      fields !! i = Some name ->
      decode_qpigs ascii_str !! name = parse_value <$> (tokens ascii_str !! i))
  /\ (forall (v : string),
        (forall z, parse_value v = PyInt z
                   <-> parse_float v = Some (float_of_int z))
        /\ (forall f, parse_value v = PyFloat f
                      <-> parse_float v = Some f /\ is_integer f = false)
        /\ (forall s, parse_value v = PyStr s
                      <-> parse_float v = None /\ s = v)
        /\ parse_value v <> PyNone)
  /\ decode_qpigs example_reply !! "grid_voltage"%string = Some (PyInt 230)
  /\ decode_qpigs example_reply !! "battery_capacity"%string = Some (PyInt 62)
  /\ decode_qpigs example_reply !! "battery_voltage"%string
     = Some (PyFloat (Q2Qc (524 # 10))).
Proof.
  split; [exact decode_qpigs_lookup|]. split.
  - intros v. split; [intros z; apply parse_value_int|].
    split; [intros f; apply parse_value_float|].
    split; [intros s; apply parse_value_str|].
    unfold parse_value. destruct (parse_float v) as [f|]; [|discriminate].
    destruct (is_integer f); discriminate.
  - split; [vm_compute; reflexivity|]. split; [vm_compute; reflexivity|].
    vm_compute. do 2 f_equal; try qc_eq.
Qed.

Lemma decode_qpigs_tokens_witness :
  fields !! 10%nat = Some "battery_capacity"%string
  /\ tokens example_reply !! 10%nat = Some "062"%string
  /\ decode_qpigs example_reply !! "battery_capacity"%string
     = Some (parse_value "062").
Proof.
  assert (Hf : fields !! 10%nat = Some "battery_capacity"%string)
    by reflexivity.
  assert (Ht : tokens example_reply !! 10%nat = Some "062"%string)
    by (vm_compute; reflexivity).
  split; [exact Hf|]. split; [exact Ht|].
  rewrite (proj1 decode_qpigs_tokens example_reply 10%nat _ Hf), Ht.
  reflexivity.
Defined.

(** C9 as stated fails: grid_voltage of the example reply is not the
    float 230.0 but the int 230. *)
Lemma grid_voltage_is_an_int :
  decode_qpigs example_reply !! "grid_voltage"%string
  <> Some (PyFloat (Q2Qc 230))
  /\ parse_value "230.0" = PyInt 230.
Proof.
  split; [|vm_compute; reflexivity].
  intros H. vm_compute in H. discriminate H.
Qed.

End DecoderFacts.

(** ** Error detection of the CRC *)

Section CrcDetection.

Lemma lxor_state (a b : Z) : is_state a -> is_state b -> is_state (Z.lxor a b).
Proof.
  unfold is_state. intros Ha Hb.
  assert (H0 : 0 <= Z.lxor a b) by (apply Z.lxor_nonneg; lia).
  split; [exact H0|].
  destruct (Z.eq_dec (Z.lxor a b) 0) as [->|Hne]; [lia|].
  apply (Z.log2_lt_pow2 _ 16); [lia|].
  pose proof (Z.log2_lxor a b ltac:(lia) ltac:(lia)) as Hl.
  assert (Z.log2 a < 16).
  { destruct (Z.eq_dec a 0) as [->|]; [simpl; lia|].
    apply Z.log2_lt_pow2; lia. }
  assert (Z.log2 b < 16).
  { destruct (Z.eq_dec b 0) as [->|]; [simpl; lia|].
    apply Z.log2_lt_pow2; lia. }
  lia.
Qed.

Lemma byte_val_state (b : byte) : is_state (byte_val b).
Proof. pose proof (byte_val_range b). unfold is_state. lia. Qed.

Lemma land_1 (c : Z) : Z.land c 1 = c mod 2.
Proof. change 1 with (Z.ones 1). rewrite Z.land_ones by lia. reflexivity. Qed.

Lemma shiftr_1 (c : Z) : Z.shiftr c 1 = c / 2.
Proof. rewrite Z.shiftr_div_pow2 by lia. reflexivity. Qed.

(** With the polynomial folded in, bit 15 is set. *)
Lemma lxor_poly_high (h : Z) :
  0 <= h < 0x8000 -> 0x8000 <= Z.lxor h 0xA001 < 0x10000.
Proof.
  intros Hh.
  assert (Hs : is_state (Z.lxor h 0xA001))
    by (apply lxor_state; unfold is_state; lia).
  split; [|apply Hs].
  assert (Hb : Z.testbit (Z.lxor h 0xA001) 15 = true).
  { rewrite Z.lxor_spec.
    replace (Z.testbit h 15) with false; [reflexivity|].
    symmetry. destruct (Z.eq_dec h 0) as [->|]; [apply Z.bits_0|].
    apply Z.bits_above_log2; [lia|].
    assert (Z.log2 h < 15) by (apply Z.log2_lt_pow2; lia). lia. }
  destruct (Z.lt_ge_cases (Z.lxor h 0xA001) 0x8000) as [Hlt|]; [|assumption].
  exfalso.
  assert (Z.testbit (Z.lxor h 0xA001) 15 = false); [|congruence].
  destruct (Z.eq_dec (Z.lxor h 0xA001) 0) as [->|]; [apply Z.bits_0|].
  apply Z.bits_above_log2; [apply Hs|].
  assert (Z.log2 (Z.lxor h 0xA001) < 15)
    by (apply Z.log2_lt_pow2; [destruct Hs; lia | exact Hlt]).
  lia.
Qed.

Lemma crc_shift_cases (c : Z) :
  is_state c ->
  (c mod 2 = 0 /\ crc_shift c = c / 2 /\ 0 <= crc_shift c < 0x8000)
  \/ (c mod 2 = 1 /\ crc_shift c = Z.lxor (c / 2) 0xA001
      /\ 0x8000 <= crc_shift c < 0x10000).
Proof.
  unfold is_state. intros Hc. unfold crc_shift.
  rewrite land_1, shiftr_1.
  assert (Hh : 0 <= c / 2 < 0x8000)
    by (split; [apply Z.div_pos; lia | apply Z.div_lt_upper_bound; lia]).
  pose proof (Z.mod_pos_bound c 2 ltac:(lia)) as Hm.
  destruct (Z.eqb_spec (c mod 2) 0) as [E|E].
  - left. repeat split; lia.
  - right. pose proof (lxor_poly_high (c / 2) Hh).
    repeat split; lia.
Qed.

Lemma crc_shift_state (c : Z) : is_state c -> is_state (crc_shift c).
Proof.
  intros Hc. destruct (crc_shift_cases c Hc) as [(_ & _ & H)|(_ & _ & H)];
    unfold is_state; lia.
Qed.

Lemma lxor_cancel_r (k x y : Z) : Z.lxor x k = Z.lxor y k -> x = y.
Proof.
  intros E. apply (f_equal (fun z => Z.lxor z k)) in E.
  rewrite !Z.lxor_assoc, Z.lxor_nilpotent, !Z.lxor_0_r in E. exact E.
Qed.

Lemma crc_shift_inj (a b : Z) :
  is_state a -> is_state b -> crc_shift a = crc_shift b -> a = b.
Proof.
  intros Ha Hb E.
  pose proof (Z.div_mod a 2 ltac:(lia)) as Da.
  pose proof (Z.div_mod b 2 ltac:(lia)) as Db.
  destruct (crc_shift_cases a Ha) as [(Ma & Ea & Ra)|(Ma & Ea & Ra)];
    destruct (crc_shift_cases b Hb) as [(Mb & Eb & Rb)|(Mb & Eb & Rb)];
    try lia.
  rewrite Ea, Eb in E. apply lxor_cancel_r in E. lia.
Qed.

Lemma lxor_cancel_l (k x y : Z) : Z.lxor k x = Z.lxor k y -> x = y.
Proof. rewrite !(Z.lxor_comm k). apply lxor_cancel_r. Qed.

Lemma iter_crc_shift_state (n : nat) (c : Z) :
  is_state c -> is_state (Nat.iter n crc_shift c).
Proof.
  intros Hc. induction n as [|n IH]; [exact Hc|].
  cbn [Nat.iter]. apply crc_shift_state, IH.
Qed.

Lemma iter_crc_shift_inj (n : nat) (a b : Z) :
  is_state a -> is_state b ->
  Nat.iter n crc_shift a = Nat.iter n crc_shift b -> a = b.
Proof.
  intros Ha Hb. induction n as [|n IH]; [intros E; exact E|].
  cbn [Nat.iter]. intros E. apply IH.
  apply crc_shift_inj; [apply iter_crc_shift_state, Ha
                       | apply iter_crc_shift_state, Hb | exact E].
Qed.

Lemma crc_byte_state (c : Z) (b : byte) : is_state c -> is_state (crc_byte c b).
Proof.
  intros Hc. apply iter_crc_shift_state, lxor_state;
    [exact Hc | apply byte_val_state].
Qed.

(** The step for one byte is injective in the register and in the byte. *)
Lemma crc_byte_inj_state (a b : Z) (x : byte) :
  is_state a -> is_state b -> crc_byte a x = crc_byte b x -> a = b.
Proof.
  intros Ha Hb E. apply iter_crc_shift_inj in E;
    try (apply lxor_state; [assumption | apply byte_val_state]).
  exact (lxor_cancel_r _ _ _ E).
Qed.

Lemma byte_val_inj (x y : byte) : byte_val x = byte_val y -> x = y.
Proof.
  intros E. rewrite <- (byte_of_Z_val x), <- (byte_of_Z_val y), E. reflexivity.
Qed.

Lemma crc_byte_inj_byte (c : Z) (x y : byte) :
  is_state c -> crc_byte c x = crc_byte c y -> x = y.
Proof.
  intros Hc E. apply iter_crc_shift_inj in E;
    try (apply lxor_state; [assumption | apply byte_val_state]).
  apply byte_val_inj. exact (lxor_cancel_l _ _ _ E).
Qed.

Lemma fold_crc_state (data : bytes) (c : Z) :
  is_state c -> is_state (fold_left crc_byte data c).
Proof.
  revert c. induction data as [|x data IH]; intros c Hc; [exact Hc|].
  cbn [fold_left]. apply IH, crc_byte_state, Hc.
Qed.

Lemma fold_crc_inj (data : bytes) (a b : Z) :
  is_state a -> is_state b ->
  fold_left crc_byte data a = fold_left crc_byte data b -> a = b.
Proof.
  revert a b. induction data as [|x data IH]; intros a b Ha Hb E; [exact E|].
  cbn [fold_left] in E.
  apply IH in E; try (apply crc_byte_state; assumption).
  exact (crc_byte_inj_state a b x Ha Hb E).
Qed.

Lemma crc16_modbus_fold (data : bytes) :
  crc16_modbus data = fold_left crc_byte data 0xFFFF.
Proof.
  unfold crc16_modbus.
  pose proof (fold_crc_state data 0xFFFF ltac:(unfold is_state; lia)) as Hs.
  generalize dependent (fold_left crc_byte data 0xFFFF). intros c Hs.
  replace (Z.land c 0xFFFF) with (c mod 2 ^ 16)
    by (symmetry; apply (Z.land_ones c 16); lia).
  apply Z.mod_small. exact Hs.
Qed.

(** Changing one byte of the data changes the CRC. *)
Lemma crc16_modbus_one_byte (pre suf : bytes) (x y : byte) :
  x <> y -> crc16_modbus (pre ++ x :: suf) <> crc16_modbus (pre ++ y :: suf).
Proof.
  intros Hxy E. rewrite !crc16_modbus_fold, !fold_left_app in E.
  cbn [fold_left] in E.
  pose proof (fold_crc_state pre 0xFFFF ltac:(unfold is_state; lia)) as Hs.
  apply fold_crc_inj in E; try (apply crc_byte_state; exact Hs).
  apply Hxy. exact (crc_byte_inj_byte _ x y Hs E).
Qed.

Lemma unpack_le_H_inj (a b : bytes) (v : Z) :
  unpack_le_H a = Some v -> unpack_le_H b = Some v -> a = b.
Proof.
  destruct a as [|a0 [|a1 [|? ?]]]; try discriminate.
  destruct b as [|b0 [|b1 [|? ?]]]; try discriminate.
  cbn [unpack_le_H]. intros [= Ha] [= Hb].
  pose proof (byte_val_range a0). pose proof (byte_val_range a1).
  pose proof (byte_val_range b0). pose proof (byte_val_range b1).
  rewrite lor_bytes in Ha, Hb by lia.
  assert (byte_val a0 = byte_val b0) by lia.
  assert (byte_val a1 = byte_val b1) by lia.
  f_equal; [|f_equal]; apply byte_val_inj; assumption.
Qed.

(** The validator on a response whose trailing word differs from the CRC
    of the rest. *)
Lemma expect_read_response_crc_failure
    (slave_id req_func : Z) (payload : bytes) (expected_regs : option Z) :
  (5 <= length payload)%nat ->
  unpack_le_H (take_last 2 payload)
    <> Some (crc16_modbus (drop_last 2 payload)) ->
  outcome (_expect_read_response slave_id req_func payload expected_regs)
  = Some ChecksumMismatch.
Proof.
  intros Hlen Hne. unfold _expect_read_response.
  replace (length payload <? 5)%nat with false
    by (symmetry; apply Nat.ltb_ge; exact Hlen).
  destruct (take_last_2_length payload ltac:(lia)) as (lo & hi & E).
  rewrite E in *. cbn [unpack_le_H] in *.
  destruct (Z.eqb_spec (Z.lor (byte_val lo) (Z.shiftl (byte_val hi) 8))
              (crc16_modbus (drop_last 2 payload))) as [Heq|_];
    [|reflexivity].
  exfalso. apply Hne. f_equal. exact Heq.
Qed.

(** X1. On a response of at least five bytes whose CRC is right, changing
    any one byte (in the header, the data or the CRC itself) to another
    value makes validation fail with the CRC mismatch, whatever slave id,
    function and register count are asked for. *)
Theorem single_byte_corruption_is_detected
    (slave_id req_func : Z) (payload : bytes) (expected_regs : option Z)
    (i : nat) (x y : byte) :
  (5 <= length payload)%nat ->
  unpack_le_H (take_last 2 payload)
    = Some (crc16_modbus (drop_last 2 payload)) ->
  payload !! i = Some x ->
  y <> x ->
  outcome (_expect_read_response slave_id req_func (<[i:=y]> payload)
             expected_regs)
  = Some ChecksumMismatch.
Proof.
  intros Hlen Hcrc Hi Hy.
  assert (Hil : (i < length payload)%nat) by (eapply lookup_lt_Some; exact Hi).
  apply expect_read_response_crc_failure; [rewrite length_insert; exact Hlen|].
  unfold take_last, drop_last in *. rewrite length_insert.
  destruct (Nat.lt_ge_cases i (length payload - 2)) as [Hb|Ht].
  - (* the byte is in the data *)
    rewrite drop_insert_lt by exact Hb. rewrite Hcrc.
    intros [= E]. revert E. rewrite take_insert_lt by exact Hb.
    set (body := take (length payload - 2) payload).
    assert (Hbi : body !! i = Some x)
      by (unfold body; rewrite lookup_take_lt by exact Hb; exact Hi).
    rewrite insert_take_drop
      by (unfold body; rewrite length_take; lia).
    rewrite <- (take_drop_middle body i x Hbi) at 1.
    apply crc16_modbus_one_byte. congruence.
  - (* the byte is in the trailing CRC *)
    rewrite take_insert_ge by exact Ht. intros E.
    pose proof (unpack_le_H_inj _ _ _ E Hcrc) as Heq.
    apply (f_equal (fun l => l !! (i - (length payload - 2))%nat)) in Heq.
    rewrite !lookup_drop in Heq.
    replace (length payload - 2 + (i - (length payload - 2)))%nat with i
      in Heq by lia.
    rewrite list_lookup_insert_eq in Heq by exact Hil.
    congruence.
Qed.

Lemma single_byte_corruption_is_detected_witness :
  let payload := [x01; x03; x02; x00; x07; xf9; x86] in
  (5 <= length payload)%nat
  /\ unpack_le_H (take_last 2 payload)
     = Some (crc16_modbus (drop_last 2 payload))
  /\ payload !! 4%nat = Some x07
  /\ x08 <> x07
  /\ outcome (_expect_read_response 1 3 (<[4%nat:=x08]> payload) (Some 1))
     = Some ChecksumMismatch.
Proof.
  intros payload.
  assert (H1 : (5 <= length payload)%nat) by (simpl; lia).
  assert (H2 : unpack_le_H (take_last 2 payload)
               = Some (crc16_modbus (drop_last 2 payload)))
    by (vm_compute; reflexivity).
  assert (H3 : payload !! 4%nat = Some x07) by reflexivity.
  assert (H4 : x08 <> x07) by discriminate.
  repeat (split; [assumption|]).
  exact (single_byte_corruption_is_detected 1 3 payload (Some 1) 4 x07 x08
           H1 H2 H3 H4).
Defined.

End CrcDetection.

(** ** Request frames *)

Section RequestFacts.

Lemma pack_B_some (v : Z) : 0 <= v <= 0xFF -> pack_B v = Some [byte_of_Z v].
Proof.
  intros H. unfold pack_B.
  replace ((0 <=? v) && (v <=? 0xFF)) with true; [reflexivity|].
  symmetry. apply andb_true_iff. split; apply Z.leb_le; lia.
Qed.

Lemma in_range_spec (lo hi v : Z) :
  (lo <=? v) && (v <=? hi) = true <-> lo <= v <= hi.
Proof. rewrite andb_true_iff, !Z.leb_le. reflexivity. Qed.

Lemma in_range_false (lo hi v : Z) :
  (lo <=? v) && (v <=? hi) = false <-> ~ lo <= v <= hi.
Proof.
  rewrite <- in_range_spec. destruct ((lo <=? v) && (v <=? hi)); split;
    congruence.
Qed.

(** The big-endian word in two bytes of a frame. *)
Lemma unpack_be_H_bytes (v : Z) :
  0 <= v <= 0xFFFF ->
  unpack_be_H [byte_of_Z (Z.shiftr v 8); byte_of_Z (Z.land v 0xFF)] = Some v.
Proof. intros H. cbn [unpack_be_H]. f_equal. apply word_of_bytes_be, H. Qed.

(** X2. [build_read_holding] returns exactly when the slave id is in
    1..247, the start register in 0..65535 and the count in 1..125, and
    otherwise raises the ValueError of the first range violated.  The
    frame has eight bytes: slave id, 0x03, start and count big-endian, and
    the CRC of the first six bytes little-endian. *)
Theorem build_read_holding_frame (slave_id start_reg reg_count : Z) :
  match build_read_holding slave_id start_reg reg_count with
  | Ok frame =>
      1 <= slave_id <= 247 /\ 0 <= start_reg <= 0xFFFF /\ 1 <= reg_count <= 125
      /\ length frame = 8%nat
      /\ byte_at frame 0 = Some slave_id
      /\ byte_at frame 1 = Some 0x03
      /\ unpack_be_H (take 2 (drop 2 frame)) = Some start_reg
      /\ unpack_be_H (take 2 (drop 4 frame)) = Some reg_count
      /\ unpack_le_H (drop 6 frame) = Some (crc16_modbus (take 6 frame))
  | Err (ValueError slave_id_must_be_1_247) => ~ 1 <= slave_id <= 247
  | Err (ValueError start_reg_must_be_0_65535) =>
      1 <= slave_id <= 247 /\ ~ 0 <= start_reg <= 0xFFFF
  | Err (ValueError reg_count_must_be_1_125) =>
      1 <= slave_id <= 247 /\ 0 <= start_reg <= 0xFFFF
      /\ ~ 1 <= reg_count <= 125
  | Err _ => False
  end.
Proof.
  unfold build_read_holding.
  destruct ((1 <=? slave_id) && (slave_id <=? 247)) eqn:E1; cbn [negb];
    [apply in_range_spec in E1 | apply in_range_false in E1; exact E1].
  destruct ((0 <=? start_reg) && (start_reg <=? 0xFFFF)) eqn:E2; cbn [negb];
    [apply in_range_spec in E2 | apply in_range_false in E2; split; assumption].
  destruct ((1 <=? reg_count) && (reg_count <=? 125)) eqn:E3; cbn [negb];
    [apply in_range_spec in E3
    | apply in_range_false in E3; repeat split; assumption || lia].
  rewrite (pack_B_some 3) by lia.
  rewrite (pack_be_H_some start_reg) by lia.
  rewrite (pack_be_H_some reg_count) by lia.
  rewrite (pack_B_some slave_id) by lia.
  cbn [lift bind app].
  match goal with |- context [append_crc ?b] =>
    destruct (append_crc_some b) as (lo & hi & -> & Hun) end.
  cbn [lift app length byte_at lookup list_lookup fmap option_fmap option_map
       take drop firstn skipn].
  repeat split; try lia.
  - f_equal. apply byte_val_of_Z_small. lia.
  - apply unpack_be_H_bytes. lia.
  - apply unpack_be_H_bytes. lia.
  - exact Hun.
Qed.

Lemma build_read_holding_frame_witness :
  unpack_le_H (drop 6 [x01; x03; x00; xab; x00; x43; x75; xdb])
  = Some (crc16_modbus (take 6 [x01; x03; x00; xab; x00; x43; x75; xdb]))
  /\ ~ 1 <= 0 <= 247.
Proof.
  assert (E : build_read_holding 1 171 67
              = Ok [x01; x03; x00; xab; x00; x43; x75; xdb])
    by (vm_compute; reflexivity).
  assert (E0 : build_read_holding 0 171 67
               = Err (ValueError slave_id_must_be_1_247))
    by (vm_compute; reflexivity).
  pose proof (build_read_holding_frame 1 171 67) as H. rewrite E in H.
  pose proof (build_read_holding_frame 0 171 67) as H0. rewrite E0 in H0.
  split; [apply H | exact H0].
Defined.

Lemma pack_be_H_list_none (values : list Z) :
  pack_be_H_list values = None <-> ~ Forall is_u16 values.
Proof.
  induction values as [|v values IH].
  - split; [discriminate|]. intros H. exfalso. apply H. constructor.
  - cbn [pack_be_H_list]. unfold pack_be_H at 1.
    destruct ((0 <=? v) && (v <=? 0xFFFF)) eqn:E.
    + apply in_range_spec in E.
      destruct (pack_be_H_list values) as [bs|].
      * split; [discriminate|]. intros H. exfalso. apply H. constructor.
        -- exact E.
        -- destruct (decide (Forall is_u16 values)) as [Hf|Hf]; [exact Hf|].
           apply IH in Hf. discriminate Hf.
      * split; [|reflexivity]. intros _ H. apply Forall_cons in H as [_ H].
        revert H. apply IH. reflexivity.
    + apply in_range_false in E. split; [|reflexivity].
      intros _ H. apply Forall_cons in H as [H _]. exact (E H).
Qed.

Lemma unpack_be_H_list_app (v : Z) (bs : bytes) :
  is_u16 v ->
  unpack_be_H_list
    ([byte_of_Z (Z.shiftr v 8); byte_of_Z (Z.land v 0xFF)] ++ bs)
  = v :: unpack_be_H_list bs.
Proof.
  intros Hv. cbn [app unpack_be_H_list]. f_equal. apply word_of_bytes_be, Hv.
Qed.

(** X3. [build_write_multiple] returns exactly when the slave id and the
    start register are in range, there are between 1 and 123 values and
    every value fits sixteen bits; a value out of range raises
    struct.error, not ValueError.  The frame has 9 + 2n bytes: slave id,
    0x10, start and count big-endian, the byte count 2n, the values
    big-endian, and the little-endian CRC of all that precedes it. *)
Theorem build_write_multiple_frame (slave_id start_reg : Z) (values : list Z) :
  let n := length values in
  match build_write_multiple slave_id start_reg values with
  | Ok frame =>
      1 <= slave_id <= 247 /\ 0 <= start_reg <= 0xFFFF
      /\ (1 <= n <= 123)%nat /\ Forall is_u16 values
      /\ length frame = (9 + 2 * n)%nat
      /\ byte_at frame 0 = Some slave_id
      /\ byte_at frame 1 = Some 0x10
      /\ unpack_be_H (take 2 (drop 2 frame)) = Some start_reg
      /\ unpack_be_H (take 2 (drop 4 frame)) = Some (Z.of_nat n)
      /\ byte_at frame 6 = Some (2 * Z.of_nat n)
      /\ bytes_to_u16_list (take (2 * n) (drop 7 frame)) = Ok values
      /\ unpack_le_H (drop (7 + 2 * n) frame)
         = Some (crc16_modbus (take (7 + 2 * n) frame))
  | Err (ValueError slave_id_must_be_1_247) => ~ 1 <= slave_id <= 247
  | Err (ValueError start_reg_must_be_0_65535) =>
      1 <= slave_id <= 247 /\ ~ 0 <= start_reg <= 0xFFFF
  | Err (ValueError values_must_be_non_empty) =>
      1 <= slave_id <= 247 /\ 0 <= start_reg <= 0xFFFF /\ values = []
  | Err (ValueError too_many_registers) =>
      1 <= slave_id <= 247 /\ 0 <= start_reg <= 0xFFFF /\ (123 < n)%nat
  | Err struct_error =>
      1 <= slave_id <= 247 /\ 0 <= start_reg <= 0xFFFF
      /\ (1 <= n <= 123)%nat /\ ~ Forall is_u16 values
  | Err _ => False
  end.
Proof.
  intros n. unfold build_write_multiple. fold n.
  destruct ((1 <=? slave_id) && (slave_id <=? 247)) eqn:E1; cbn [negb];
    [apply in_range_spec in E1 | apply in_range_false in E1; exact E1].
  destruct ((0 <=? start_reg) && (start_reg <=? 0xFFFF)) eqn:E2; cbn [negb];
    [apply in_range_spec in E2 | apply in_range_false in E2; split; assumption].
  destruct (Nat.eqb_spec n 0) as [E3|E3].
  { split_and!; try lia. apply length_zero_iff_nil. exact E3. }
  destruct (Nat.ltb_spec 123 n) as [E4|E4].
  { split_and!; lia. }
  rewrite (pack_B_some 16) by lia.
  rewrite (pack_be_H_some start_reg) by lia.
  rewrite (pack_be_H_some (Z.of_nat n)) by lia.
  rewrite (pack_B_some (Z.of_nat n * 2)) by lia.
  cbn [lift bind].
  destruct (pack_be_H_list values) as [vs|] eqn:Ev.
  2: { apply pack_be_H_list_none in Ev. cbn [lift bind].
       split_and!; assumption || lia. }
  pose proof (pack_be_H_list_length values vs Ev) as Hvl. fold n in Hvl.
  assert (Hf : Forall is_u16 values).
  { destruct (decide (Forall is_u16 values)) as [Hf|Hf]; [exact Hf|].
    apply pack_be_H_list_none in Hf. congruence. }
  rewrite (pack_B_some slave_id) by lia. cbn [lift bind app].
  match goal with |- context [append_crc ?b] =>
    destruct (append_crc_some b) as (lo & hi & -> & Hun) end.
  cbn [lift].
  assert (Hb : forall z k (l : bytes),
             0 <= z < 256 -> l !! k = Some (byte_of_Z z) ->
             byte_at l k = Some z).
  { intros z k l Hz Hl. unfold byte_at. rewrite Hl. cbn.
    f_equal. apply byte_val_of_Z_small, Hz. }
  split; [exact E1|]. split; [exact E2|]. split; [lia|]. split; [exact Hf|].
  split; [cbn [length]; rewrite length_app; cbn [length]; lia|].
  split; [apply Hb; [lia | reflexivity]|].
  split; [apply Hb; [lia | reflexivity]|].
  split; [cbn [drop take skipn firstn]; apply unpack_be_H_bytes; lia|].
  split; [cbn [drop take skipn firstn]; apply unpack_be_H_bytes; lia|].
  split; [rewrite Z.mul_comm; apply Hb; [lia | reflexivity]|].
  split.
  - cbn [app skipn]. rewrite drop_0, <- Hvl, take_app_length.
    apply bytes_to_u16_list_packed, Ev.
  - match goal with |- context [(?h ++ [lo; hi])] =>
      replace (7 + 2 * n)%nat with (length h) by (cbn [length]; lia);
      rewrite drop_app_length, take_app_length
    end.
    exact Hun.
Qed.

Lemma build_write_multiple_frame_witness :
  bytes_to_u16_list
    (take (2 * 2) (drop 7 [x01; x10; x01; x2c; x00; x02; x04;
                           x00; x01; x00; x02; x2c; x73]))
  = Ok [1; 2]
  /\ ~ Forall is_u16 [70000].
Proof.
  assert (E : build_write_multiple 1 300 [1; 2]
              = Ok [x01; x10; x01; x2c; x00; x02; x04;
                    x00; x01; x00; x02; x2c; x73])
    by (vm_compute; reflexivity).
  assert (E0 : build_write_multiple 1 300 [70000] = Err struct_error)
    by (vm_compute; reflexivity).
  pose proof (build_write_multiple_frame 1 300 [1; 2]) as H.
  cbv zeta in H. rewrite E in H.
  pose proof (build_write_multiple_frame 1 300 [70000]) as H0.
  cbv zeta in H0. rewrite E0 in H0.
  split; [apply H | apply H0].
Defined.

End RequestFacts.

(** ** Decoded register lists *)

Section DecodeFacts.

Lemma bytes_pair_ind (P : bytes -> Prop) :
  P [] -> (forall x, P [x]) ->
  (forall hi lo rest, P rest -> P (hi :: lo :: rest)) ->
  forall data, P data.
Proof.
  intros H0 H1 H2.
  assert (H : forall data, P data /\ forall x, P (x :: data)).
  { induction data as [|y data [IHa IHb]].
    - split; [exact H0 | exact H1].
    - split; [apply IHb|]. intros x. apply H2, IHa. }
  intros data. apply H.
Qed.

Lemma word_is_u16 (hi lo : byte) :
  is_u16 (Z.lor (Z.shiftl (byte_val hi) 8) (byte_val lo)).
Proof.
  pose proof (byte_val_range hi). pose proof (byte_val_range lo).
  rewrite Z.lor_comm, lor_bytes by lia. unfold is_u16. lia.
Qed.

Lemma pack_word_bytes (hi lo : byte) :
  pack_be_H (Z.lor (Z.shiftl (byte_val hi) 8) (byte_val lo)) = Some [hi; lo].
Proof.
  pose proof (byte_val_range hi) as Hh. pose proof (byte_val_range lo) as Hl.
  rewrite (pack_be_H_some _ (word_is_u16 hi lo)).
  rewrite Z.lor_comm, lor_bytes, shiftr_8, land_255 by lia.
  replace ((byte_val lo + 256 * byte_val hi) / 256) with (byte_val hi)
    by (apply Z.div_unique with (r := byte_val lo); lia).
  replace ((byte_val lo + 256 * byte_val hi) mod 256) with (byte_val lo)
    by (apply Z.mod_unique with (q := byte_val hi); lia).
  rewrite !byte_of_Z_val. reflexivity.
Qed.

Lemma unpack_be_H_list_facts (data : bytes) :
  Forall is_u16 (unpack_be_H_list data)
  /\ (2 * length (unpack_be_H_list data) <= length data)%nat
  /\ (Nat.Even (length data) ->
      pack_be_H_list (unpack_be_H_list data) = Some data
      /\ (2 * length (unpack_be_H_list data) = length data)%nat).
Proof.
  induction data as [| x | hi lo rest (IHf & IHl & IHp)] using bytes_pair_ind.
  - split; [constructor|]. split; [reflexivity|]. intros _. split; reflexivity.
  - split; [constructor|]. split; [simpl; lia|].
    intros [k Hk]. simpl in Hk. lia.
  - cbn [unpack_be_H_list length]. split; [|split].
    + constructor; [apply word_is_u16 | exact IHf].
    + lia.
    + intros [k Hk]. destruct IHp as [IHp IHe].
      { exists (k - 1)%nat. lia. }
      cbn [pack_be_H_list]. rewrite pack_word_bytes, IHp.
      split; [reflexivity | lia].
Qed.

Lemma bytes_to_u16_list_ok (data : bytes) (regs : list Z) :
  bytes_to_u16_list data = Ok regs ->
  (2 * length regs = length data)%nat /\ Forall is_u16 regs.
Proof.
  unfold bytes_to_u16_list.
  destruct (Nat.eqb_spec (length data mod 2) 0) as [E|E]; cbn [negb];
    [|discriminate].
  intros [= <-].
  destruct (unpack_be_H_list_facts data) as (Hf & _ & Hp).
  split; [|exact Hf]. apply Hp.
  exists (length data / 2)%nat.
  pose proof (Nat.div_mod_eq (length data) 2). lia.
Qed.

(** X4. [bytes_to_u16_list] raises its ValueError exactly on data of odd
    length; on data of even length it returns half as many values, each
    in 0..65535, and packing them big-endian gives the data back. *)
Theorem bytes_to_u16_list_inverse (data : bytes) :
  match bytes_to_u16_list data with
  | Ok regs =>
      Nat.Even (length data)
      /\ (2 * length regs = length data)%nat
      /\ Forall is_u16 regs
      /\ pack_be_H_list regs = Some data
  | Err (ValueError data_length_must_be_even) => Nat.Odd (length data)
  | Err _ => False
  end.
Proof.
  unfold bytes_to_u16_list.
  destruct (Nat.eqb_spec (length data mod 2) 0) as [E|E]; cbn [negb].
  - assert (He : Nat.Even (length data)).
    { exists (length data / 2)%nat.
      pose proof (Nat.div_mod_eq (length data) 2). lia. }
    destruct (unpack_be_H_list_facts data) as (Hf & _ & Hp).
    destruct (Hp He) as [Hpack Hlen].
    split; [exact He|]. split; [exact Hlen|]. split; assumption.
  - exists (length data / 2)%nat.
    pose proof (Nat.div_mod_eq (length data) 2).
    pose proof (Nat.mod_upper_bound (length data) 2). lia.
Qed.

Lemma bytes_to_u16_list_inverse_witness :
  pack_be_H_list [258; 772] = Some [x01; x02; x03; x04]
  /\ Nat.Odd (length [x01; x02; x03]).
Proof.
  assert (E : bytes_to_u16_list [x01; x02; x03; x04] = Ok [258; 772])
    by (vm_compute; reflexivity).
  assert (E0 : bytes_to_u16_list [x01; x02; x03]
               = Err (ValueError data_length_must_be_even))
    by (vm_compute; reflexivity).
  pose proof (bytes_to_u16_list_inverse [x01; x02; x03; x04]) as H.
  rewrite E in H.
  pose proof (bytes_to_u16_list_inverse [x01; x02; x03]) as H0.
  rewrite E0 in H0.
  split; [apply H | exact H0].
Defined.

(** What an accepted response returns. *)
Lemma expect_read_response_accepted
    (slave_id req_func : Z) (payload : bytes) (expected_regs : option Z)
    (byte_count : Z) (data : bytes) :
  _expect_read_response slave_id req_func payload expected_regs
  = Ok (byte_count, data) ->
  byte_count = Z.of_nat (length data)
  /\ (length payload = length data + 5)%nat
  /\ byte_at payload 0 = Some slave_id
  /\ byte_at payload 1 = Some req_func
  /\ (forall n, expected_regs = Some n -> byte_count = n * 2).
Proof.
  unfold _expect_read_response, index.
  destruct (Nat.ltb_spec (length payload) 5) as [|Hlen]; [discriminate|].
  pose proof (slice_3_m2_length payload Hlen) as Hdata.
  destruct (unpack_le_H (take_last 2 payload)) as [recv|]; [|discriminate].
  destruct (recv =? crc16_modbus (drop_last 2 payload)); cbn [negb];
    [|discriminate].
  destruct (byte_at payload 0) as [sid|]; [|discriminate].
  destruct (byte_at payload 1) as [func|]; [|discriminate]. cbn [bind].
  destruct (Z.eqb_spec sid slave_id) as [->|]; cbn [negb]; [|discriminate].
  destruct (Z.eqb_spec func req_func) as [->|]; cbn [negb]; [|discriminate].
  destruct (byte_at payload 2) as [bc|]; [|discriminate]. cbn [bind].
  destruct (Z.eqb_spec bc (Z.of_nat (length (slice_3_m2 payload)))) as [Hb|];
    cbn [negb]; [|discriminate].
  destruct expected_regs as [n|].
  - destruct (Z.eqb_spec bc (n * 2)) as [Hn|]; cbn [negb]; [|discriminate].
    intros [= <- <-]. split_and!; try reflexivity; try lia.
    intros ? [= <-]. exact Hn.
  - intros [= <- <-]. split_and!; try reflexivity; try lia. intros ? [=].
Qed.

(** X5. Whenever [decode_read_response] returns, it returns exactly
    [reg_count] values, each in 0..65535, and [reg_count] is at most 127;
    the hex text was a frame of 5 + 2 x reg_count bytes that starts with
    the slave id asked for, the function 0x03 and the byte count
    2 x reg_count. *)
Theorem decode_read_response_returns
    (slave_id start_reg reg_count : Z) (response_hex : string)
    (regs : list Z) :
  decode_read_response slave_id start_reg reg_count response_hex = Ok regs ->
  Z.of_nat (length regs) = reg_count
  /\ Forall is_u16 regs
  /\ 0 <= reg_count <= 127
  /\ exists payload,
       fromhex (remove_spaces response_hex) = Ok payload
       /\ length payload = (5 + 2 * length regs)%nat
       /\ byte_at payload 0 = Some slave_id
       /\ byte_at payload 1 = Some 0x03
       /\ byte_at payload 2 = Some (2 * reg_count).
Proof.
  unfold decode_read_response.
  destruct (fromhex (remove_spaces response_hex)) as [payload|]; [|discriminate].
  cbn [bind].
  destruct (_expect_read_response slave_id 3 payload (Some reg_count))
    as [[bc data]|] eqn:E; [|discriminate].
  cbn [bind snd]. intros Hregs.
  destruct (expect_read_response_accepted _ _ _ _ _ _ E)
    as (Hbc & Hlen & Hsid & Hfn & Hn).
  specialize (Hn reg_count eq_refl).
  destruct (bytes_to_u16_list_ok data regs Hregs) as [Hl Hf].
  assert (Hcount : byte_at payload 2 = Some bc).
  { revert E. unfold _expect_read_response, index.
    destruct (length payload <? 5)%nat; [discriminate|].
    destruct (unpack_le_H (take_last 2 payload)); [|discriminate].
    destruct (negb _); [discriminate|].
    destruct (byte_at payload 0); [|discriminate].
    destruct (byte_at payload 1); [|discriminate]. cbn [bind].
    destruct (negb _); [discriminate|]. destruct (negb _); [discriminate|].
    destruct (byte_at payload 2) as [c|]; [|discriminate]. cbn [bind].
    destruct (negb _); [discriminate|]. destruct (negb _); [discriminate|].
    intros [= -> _]. reflexivity. }
  assert (Hrange : 0 <= bc < 256).
  { unfold byte_at in Hcount. destruct (payload !! 2%nat) as [b|]; [|discriminate].
    injection Hcount as <-. apply byte_val_range. }
  split_and!; try lia; [exact Hf|].
  exists payload. split_and!; try reflexivity; try assumption; try lia.
  rewrite Hcount. f_equal. lia.
Qed.

Lemma decode_read_response_returns_witness :
  decode_read_response 1 300 1 "01 03 02 00 07 F9 86" = Ok [7]
  /\ Z.of_nat (length [7]) = 1
  /\ Forall is_u16 [7].
Proof.
  assert (H : decode_read_response 1 300 1 "01 03 02 00 07 F9 86" = Ok [7])
    by (vm_compute; reflexivity).
  split; [exact H|].
  destruct (decode_read_response_returns 1 300 1 _ _ H) as (H1 & H2 & _).
  split; assumption.
Defined.

End DecodeFacts.

(** ** Replies as hex text *)

Section ReplyFacts.

Lemma fromhex_space (s : string) : fromhex (String " " s) = fromhex s.
Proof. reflexivity. Qed.

Lemma to_hex_cons (b b' : byte) (rest : bytes) :
  to_hex (b :: b' :: rest)
  = (format_02X b ++ String " " (to_hex (b' :: rest)))%string.
Proof. reflexivity. Qed.

Lemma length_format_02X (b : byte) (s : string) :
  String.length (format_02X b ++ s) = S (S (String.length s)).
Proof. reflexivity. Qed.

(** X6. The hex text of a frame reads back as the frame, with or without
    the spaces removed first; the text has 3n - 1 characters for n > 0
    bytes. *)
Theorem hex_text_round_trip (frame : bytes) :
  fromhex (to_hex frame) = Ok frame
  /\ fromhex (remove_spaces (to_hex frame)) = Ok frame
  /\ String.length (to_hex frame) = (3 * length frame - 1)%nat.
Proof.
  split; [|split; [apply fromhex_to_hex|]].
  - induction frame as [|b [|b' rest] IH]; [reflexivity | |].
    + change (to_hex [b]) with (format_02X b ++ EmptyString)%string.
      rewrite fromhex_format. reflexivity.
    + rewrite to_hex_cons, fromhex_format, fromhex_space, IH. reflexivity.
  - induction frame as [|b [|b' rest] IH]; [reflexivity | |].
    + change (to_hex [b]) with (format_02X b ++ EmptyString)%string.
      rewrite length_format_02X. reflexivity.
    + rewrite to_hex_cons, length_format_02X. cbn [String.length].
      rewrite IH. cbn [length]. lia.
Qed.

(** Decoding the reply that carries [values], for any slave id and any
    number of registers that fits the one-byte count. *)
Lemma decode_read_response_reply
    (slave_id start_reg : Z) (values : list Z) (frame : bytes) :
  read_response_frame slave_id values = Some frame ->
  decode_read_response slave_id start_reg (Z.of_nat (length values))
    (to_hex frame) = Ok values.
Proof.
  unfold read_response_frame.
  unfold pack_B at 1.
  destruct ((0 <=? slave_id) && (slave_id <=? 0xFF)) eqn:Es; [|discriminate].
  apply andb_true_iff in Es as [Hs0 Hs1]. apply Z.leb_le in Hs0, Hs1.
  cbn [pack_B Z.leb andb].
  unfold pack_B.
  destruct ((0 <=? 2 * Z.of_nat (length values))
            && (2 * Z.of_nat (length values) <=? 0xFF)) eqn:En; [|discriminate].
  apply andb_true_iff in En as [_ Hn]. apply Z.leb_le in Hn.
  destruct (pack_be_H_list values) as [data|] eqn:Hdata; [|discriminate].
  cbn [app]. intros Happ.
  pose proof (pack_be_H_list_length values data Hdata) as Hdl.
  unfold decode_read_response.
  rewrite fromhex_to_hex. cbv beta iota delta [bind].
  rewrite (expect_read_response_sealed slave_id 3 _ _ _ data _
             (Some (Z.of_nat (length values))) Happ).
  rewrite !byte_val_of_Z_small by lia.
  rewrite Z.eqb_refl. cbn [negb].
  change (byte_of_Z 3) with x03. cbn [byte_val]. 
  replace (Z.of_N (Byte.to_N x03) =? 3) with true by reflexivity. cbn [negb].
  rewrite Hdl.
  replace (2 * Z.of_nat (length values) =? Z.of_nat (2 * length values))
    with true by (symmetry; apply Z.eqb_eq; lia).
  replace (2 * Z.of_nat (length values) =? Z.of_nat (length values) * 2)
    with true by (symmetry; apply Z.eqb_eq; lia).
  cbn [negb snd]. apply bytes_to_u16_list_packed, Hdata.
Qed.

Lemma read_response_frame_shape (slave_id : Z) (values : list Z) :
  0 <= slave_id <= 255 -> (length values <= 127)%nat ->
  Forall is_u16 values ->
  exists data lo hi,
    pack_be_H_list values = Some data
    /\ append_crc (byte_of_Z slave_id :: x03
                   :: byte_of_Z (2 * Z.of_nat (length values)) :: data)
       = Some ((byte_of_Z slave_id :: x03
                :: byte_of_Z (2 * Z.of_nat (length values)) :: data)
               ++ [lo; hi])
    /\ read_response_frame slave_id values
       = Some ((byte_of_Z slave_id :: x03
                :: byte_of_Z (2 * Z.of_nat (length values)) :: data)
               ++ [lo; hi]).
Proof.
  intros Hs Hn Hv. unfold read_response_frame.
  rewrite (pack_B_some slave_id) by lia.
  rewrite (pack_B_some 3) by lia.
  rewrite (pack_B_some (2 * Z.of_nat (length values))) by lia.
  destruct (pack_be_H_list_some values Hv) as [data Hd]. rewrite Hd.
  cbn [app]. change (byte_of_Z 3) with x03.
  match goal with |- context [append_crc ?b] =>
    destruct (append_crc_some b) as (lo & hi & Happ & _) end.
  exists data, lo, hi. split; [reflexivity|]. split; exact Happ.
Qed.

(** X7. For every slave id in 0..255 and every list of at most 127
    sixteen-bit values, the reply carrying them has 5 + 2n bytes and
    decodes to exactly those values; decoding it for another slave id
    raises the unexpected-slave-id error, and for another register count
    the unexpected-register-count error. *)
Theorem reply_round_trip
    (slave_id start_reg : Z) (values : list Z) :
  0 <= slave_id <= 255 -> (length values <= 127)%nat ->
  Forall is_u16 values ->
  exists frame,
    read_response_frame slave_id values = Some frame
    /\ length frame = (5 + 2 * length values)%nat
    /\ decode_read_response slave_id start_reg (Z.of_nat (length values))
         (to_hex frame) = Ok values
    /\ (forall other, other <> slave_id ->
          decode_read_response other start_reg (Z.of_nat (length values))
            (to_hex frame)
          = Err (ValueError (unexpected_slave_id slave_id other)))
    /\ (forall count, count <> Z.of_nat (length values) ->
          decode_read_response slave_id start_reg count (to_hex frame)
          = Err (ValueError
                   (unexpected_register_count (Z.of_nat (length values))
                      count))).
Proof.
  intros Hs Hn Hv.
  destruct (read_response_frame_shape slave_id values Hs Hn Hv)
    as (data & lo & hi & Hd & Happ & Hframe).
  pose proof (pack_be_H_list_length values data Hd) as Hdl.
  eexists. split; [exact Hframe|].
  split; [rewrite length_app; cbn [length]; lia|].
  split; [apply decode_read_response_reply, Hframe|].
  split.
  - intros other Ho. unfold decode_read_response.
    rewrite fromhex_to_hex. cbv beta iota delta [bind].
    rewrite (expect_read_response_sealed other 3 _ _ _ data _ _ Happ).
    rewrite byte_val_of_Z_small by lia.
    destruct (Z.eqb_spec slave_id other) as [E|_]; [congruence|]. reflexivity.
  - intros count Hc. unfold decode_read_response.
    rewrite fromhex_to_hex. cbv beta iota delta [bind].
    rewrite (expect_read_response_sealed slave_id 3 _ _ _ data _ _ Happ).
    rewrite !byte_val_of_Z_small by lia.
    rewrite Z.eqb_refl. cbn [negb].
    replace (byte_val x03 =? 3) with true by reflexivity. cbn [negb].
    rewrite Hdl.
    replace (2 * Z.of_nat (length values) =? Z.of_nat (2 * length values))
      with true by (symmetry; apply Z.eqb_eq; lia).
    cbn [negb].
    destruct (Z.eqb_spec (2 * Z.of_nat (length values)) (count * 2)) as [E|_];
      [lia|].
    cbn [negb]. do 3 f_equal.
    rewrite Z.mul_comm. apply Z.div_mul. lia.
Qed.

Lemma reply_round_trip_witness :
  let values := [230; 65535; 0] in
  0 <= 17 <= 255 /\ (length values <= 127)%nat /\ Forall is_u16 values
  /\ exists frame,
       read_response_frame 17 values = Some frame
       /\ decode_read_response 17 100 3 (to_hex frame) = Ok values.
Proof.
  intros values.
  assert (H1 : 0 <= 17 <= 255) by lia.
  assert (H2 : (length values <= 127)%nat) by (simpl; lia).
  assert (H3 : Forall is_u16 values) by (repeat constructor; lia).
  split; [exact H1|]. split; [exact H2|]. split; [exact H3|].
  destruct (reply_round_trip 17 100 values H1 H2 H3)
    as (frame & Hf & _ & Hd & _).
  exists frame. split; assumption.
Defined.

(** X8. A reply to the read of the 67 runtime registers always parses
    through [parse_runtime_171_237], and every field of the telemetry is
    set. *)
Theorem runtime_reply_sets_every_field (slave_id : Z) (values : list Z) :
  0 <= slave_id <= 255 -> length values = 67%nat -> Forall is_u16 values ->
  exists frame t,
    read_response_frame slave_id values = Some frame
    /\ parse_runtime_171_237 slave_id (to_hex frame) = Ok t
    /\ forall f, field_is_set f t = true.
Proof.
  intros Hs Hl Hv.
  destruct (read_response_frame_shape slave_id values Hs ltac:(lia) Hv)
    as (data & lo & hi & Hd & Happ & Hframe).
  destruct (parse_from_block_fields 171 values Hv) as (t & Ht & Hset).
  eexists _, t. split; [exact Hframe|]. split.
  - unfold parse_runtime_171_237.
    change 67 with (Z.of_nat 67). rewrite <- Hl.
    rewrite (decode_read_response_reply slave_id 171 values _ Hframe).
    cbn [bind]. exact Ht.
  - intros f. rewrite Hset. apply forallb_forall. intros a Ha.
    unfold present. rewrite block_of_lookup, Hl.
    assert (Hr : 171 <= a <= 234).
    { destruct f; cbn [field_addresses words_from seq map In] in Ha;
        repeat (destruct Ha as [Ha|Ha]; [lia|]); contradiction. }
    replace ((171 <=? a) && (a <? 171 + Z.of_nat 67)) with true
      by (symmetry; apply andb_true_iff; split;
          [apply Z.leb_le | apply Z.ltb_lt]; lia).
    destruct (lookup_lt_is_Some_2 values (Z.to_nat (a - 171)) ltac:(lia))
      as [v ->].
    reflexivity.
Qed.

Lemma runtime_reply_sets_every_field_witness :
  let values := map Z.of_nat (seq 0 67) in
  0 <= 1 <= 255 /\ length values = 67%nat /\ Forall is_u16 values
  /\ exists frame t,
       read_response_frame 1 values = Some frame
       /\ parse_runtime_171_237 1 (to_hex frame) = Ok t
       /\ forall f, field_is_set f t = true.
Proof.
  intros values.
  assert (H1 : 0 <= 1 <= 255) by lia.
  assert (H2 : length values = 67%nat) by reflexivity.
  assert (H3 : Forall is_u16 values).
  { apply Forall_forall. intros x Hx. apply list_elem_of_In in Hx.
    apply in_map_iff in Hx as (n & <- & Hn).
    apply in_seq in Hn. unfold is_u16. lia. }
  split; [exact H1|]. split; [exact H2|]. split; [exact H3|].
  exact (runtime_reply_sets_every_field 1 values H1 H2 H3).
Defined.

End ReplyFacts.

(** ** Packed text *)

Section TextFacts.

Lemma lstrip_by_repeat (p : ascii -> bool) (c : ascii) (k : nat)
    (l : list ascii) :
  p c = true -> lstrip_by p (repeat c k ++ l) = lstrip_by p l.
Proof.
  intros Hc. induction k as [|k IH]; [reflexivity|].
  cbn [repeat app lstrip_by]. rewrite Hc. exact IH.
Qed.

Lemma lstrip_by_id (p : ascii -> bool) (l : list ascii) :
  (forall c, head l = Some c -> p c = false) -> lstrip_by p l = l.
Proof.
  destruct l as [|c l]; [reflexivity|]. intros H. cbn [lstrip_by].
  rewrite (H c eq_refl). reflexivity.
Qed.

Lemma rev_repeat {A} (x : A) (k : nat) : rev (repeat x k) = repeat x k.
Proof.
  induction k as [|k IH]; [reflexivity|].
  cbn [repeat rev]. rewrite IH. clear IH.
  induction k as [|k IH]; [reflexivity|].
  cbn [repeat app]. rewrite IH. reflexivity.
Qed.

Lemma rstrip_by_padding (p : ascii -> bool) (c : ascii) (k : nat)
    (l : list ascii) :
  p c = true ->
  (forall d, last_char l = Some d -> p d = false) ->
  rstrip_by p (l ++ repeat c k) = l.
Proof.
  intros Hc Hl. unfold rstrip_by.
  rewrite rev_app_distr, rev_repeat, (lstrip_by_repeat p c k _ Hc).
  rewrite lstrip_by_id by exact Hl. apply rev_involutive.
Qed.

Lemma rstrip_by_id (p : ascii -> bool) (l : list ascii) :
  (forall d, last_char l = Some d -> p d = false) -> rstrip_by p l = l.
Proof.
  intros H. unfold rstrip_by. rewrite lstrip_by_id by exact H.
  apply rev_involutive.
Qed.

Lemma decode_ascii_all (b : bytes) :
  Forall (fun x => byte_val x < 0x80) b ->
  decode_ascii_ignore b = string_of_list_ascii (chars_of b).
Proof.
  intros H. unfold decode_ascii_ignore, chars_of. do 2 f_equal.
  induction H as [|x b Hx _ IH]; [reflexivity|].
  cbn [List.filter]. apply Z.ltb_lt in Hx. rewrite Hx, IH. reflexivity.
Qed.

Lemma chars_of_app (a b : bytes) : chars_of (a ++ b) = chars_of a ++ chars_of b.
Proof. apply map_app. Qed.

Lemma chars_of_repeat (x : byte) (k : nat) :
  chars_of (repeat x k) = repeat (ascii_of_byte x) k.
Proof. induction k as [|k IH]; [reflexivity|]. cbn. f_equal. exact IH. Qed.

(** X9. [_ascii] removes NUL padding: for a text of ASCII characters
    other than NUL that neither starts nor ends with white space,
    followed by any number of NUL bytes, it returns the text. *)
Theorem ascii_removes_nul_padding (name : bytes) (k : nat) :
  Forall (fun x => 0 < byte_val x < 0x80) name ->
  trimmed (chars_of name) ->
  _ascii (name ++ repeat x00 k) = string_of_list_ascii (chars_of name).
Proof.
  intros Hname [Hfirst Hlast]. unfold _ascii.
  rewrite decode_ascii_all.
  2: { apply Forall_app. split.
       - eapply Forall_impl; [exact Hname|]. intros x Hx. cbv beta in Hx. lia.
       - apply Forall_forall. intros x Hx. apply list_elem_of_In in Hx.
         apply repeat_spec in Hx. subst x. reflexivity. }
  unfold rstrip_chars, strip.
  rewrite !list_ascii_of_string_of_list_ascii.
  rewrite chars_of_app, chars_of_repeat.
  rewrite rstrip_by_padding.
  - rewrite lstrip_by_id by exact Hfirst.
    rewrite rstrip_by_id by exact Hlast. reflexivity.
  - reflexivity.
  - intros d Hd. unfold last_char, chars_of in Hd.
    rewrite <- map_rev in Hd.
    destruct (rev name) as [|x r] eqn:Er; [discriminate|].
    injection Hd as <-.
    assert (Hin : In x name) by (apply in_rev; rewrite Er; left; reflexivity).
    rewrite Forall_forall in Hname.
    specialize (Hname x ltac:(apply list_elem_of_In; exact Hin)).
    cbv beta in Hname.
    unfold mem_char. cbn [list_ascii_of_string existsb]. rewrite orb_false_r.
    apply Ascii.eqb_neq. intros E.
    apply (f_equal byte_of_ascii) in E. rewrite !byte_of_ascii_of_byte in E.
    subst x. cbn in Hname. lia.
Qed.

Lemma ascii_removes_nul_padding_witness :
  let name := [x41; x4e; x20; x35; x4b] in
  Forall (fun x => 0 < byte_val x < 0x80) name
  /\ trimmed (chars_of name)
  /\ _ascii (name ++ repeat x00 19) = "AN 5K"%string.
Proof.
  intros name.
  assert (H1 : Forall (fun x => 0 < byte_val x < 0x80) name)
    by (repeat constructor; vm_compute; reflexivity).
  assert (H2 : trimmed (chars_of name))
    by (split; intros c [= <-]; reflexivity).
  split; [exact H1|]. split; [exact H2|].
  exact (ascii_removes_nul_padding name 19 H1 H2).
Defined.

End TextFacts.

(** ** Field values *)

Section ValueFacts.

Ltac step_bind :=
  match goal with
  | |- bind ?r ?k = Ok _ -> _ =>
      let E := fresh "E" in
      destruct r eqn:E;
      [rewrite bind_Ok; cbv beta | let H := fresh in intros H; discriminate H]
  end.

(** Every field of the result is what its getter returned. *)
Lemma parse_from_block_getters (start_reg : Z) (regs : list Z)
    (t : RuntimeTelemetry) :
  parse_from_block start_reg regs = Ok t ->
  let block := block_of start_reg regs in
  get_uint block 171 = Ok (device_type t)
  /\ get_ascii block 172 12 = Ok (device_name t)
  /\ get_uint block 184 = Ok (protocol_number t)
  /\ get_ascii block 186 12 = Ok (serial_number t)
  /\ get_uint block 201 = Ok (work_mode t)
  /\ power_flow t = from_raw <$> (block !! 231)
  /\ get_int block 202 scale_0_1 = Ok (mains_voltage_v t)
  /\ get_int block 203 scale_0_01 = Ok (mains_freq_hz t)
  /\ get_int_as_int block 204 = Ok (mains_power_w t)
  /\ get_int block 205 scale_0_1 = Ok (inv_voltage_v t)
  /\ get_int block 206 scale_0_1 = Ok (inv_current_a t)
  /\ get_int block 207 scale_0_01 = Ok (inv_freq_hz t)
  /\ get_int_as_int block 208 = Ok (inv_power_w t)
  /\ get_int_as_int block 209 = Ok (inv_charge_power_w t)
  /\ get_int block 233 scale_0_1 = Ok (inv_charge_current_a t)
  /\ get_int block 210 scale_0_1 = Ok (out_voltage_v t)
  /\ get_int block 211 scale_0_1 = Ok (out_current_a t)
  /\ get_int block 212 scale_0_01 = Ok (out_freq_hz t)
  /\ get_int_as_int block 213 = Ok (out_active_power_w t)
  /\ get_int_as_int block 214 = Ok (out_apparent_power_va t)
  /\ get_int_as_int block 225 = Ok (load_percent t)
  /\ get_int block 215 scale_0_1 = Ok (bat_voltage_v t)
  /\ get_int block 216 scale_0_1 = Ok (bat_current_a t)
  /\ get_int_as_int block 217 = Ok (bat_power_w t)
  /\ get_uint block 229 = Ok (soc_percent t)
  /\ get_int block 219 scale_0_1 = Ok (pv_voltage_v t)
  /\ get_int block 220 scale_0_1 = Ok (pv_current_a t)
  /\ get_int_as_int block 223 = Ok (pv_power_w t)
  /\ get_int_as_int block 224 = Ok (pv_charge_power_w t)
  /\ get_int block 234 scale_0_1 = Ok (pv_charge_current_a t).
Proof.
  unfold parse_from_block. cbv zeta.
  generalize (block_of start_reg regs). intros block.
  change (get_uint block 231) with (@Ok exn _ (block !! 231)).
  do 5 step_bind. rewrite bind_Ok; cbv beta.
  repeat step_bind.
  intros [= <-]. cbn.
  repeat match goal with H : get_uint _ _ = Ok _ |- _ =>
    injection H as <- end.
  split_and!; reflexivity.
Qed.


Lemma signed16_range (v : Z) :
  is_u16 v -> -32768 <= signed16 v <= 32767 /\ signed16 v mod 0x10000 = v.
Proof.
  unfold is_u16, signed16. intros Hv.
  destruct (Z.ltb_spec v 0x8000).
  - split; [lia|]. apply Z.mod_small. lia.
  - split; [lia|].
    symmetry. apply (Z.mod_unique_pos _ _ (-1)); lia.
Qed.

Lemma u16_as_i16_signed (v : Z) : is_u16 v -> u16_as_i16 v = Some (signed16 v).
Proof.
  intros Hv. unfold u16_as_i16, signed16.
  replace ((0 <=? v) && (v <=? 0xFFFF)) with true; [reflexivity|].
  symmetry. apply andb_true_iff. split; apply Z.leb_le; apply Hv.
Qed.

Lemma get_int_value (block : gmap Z Z) (a : Z) (scale : Qc) :
  (forall b v, block !! b = Some v -> is_u16 v) ->
  get_int block a scale = Ok (scaled scale <$> block !! a).
Proof.
  intros Hr. unfold get_int. destruct (block !! a) as [v|] eqn:E; [|reflexivity].
  rewrite (u16_as_i16_signed v (Hr a v E)). reflexivity.
Qed.

Lemma int_of_scaled_1 (v : Z) : int_of_float (scaled scale_1 v) = signed16 v.
Proof.
  unfold scaled. change scale_1 with 1%Qc.
  rewrite Qcmult_1_r. apply int_of_float_of_int.
Qed.

Lemma get_int_as_int_value (block : gmap Z Z) (a : Z) :
  (forall b v, block !! b = Some v -> is_u16 v) ->
  get_int_as_int block a = Ok (signed16 <$> block !! a).
Proof.
  intros Hr. unfold get_int_as_int. rewrite (get_int_value block a _ Hr).
  destruct (block !! a) as [v|]; [|reflexivity].
  cbn [fmap option_fmap option_map bind]. rewrite int_of_scaled_1. reflexivity.
Qed.

(** X10. In the telemetry parsed from a block of sixteen-bit values,
    every numeric field is its register, absent when the register is:
    the unsigned fields are the register itself, the others the register
    read as two's complement (a value in -32768..32767 congruent to the
    register modulo 65536), as an int for powers and load, times 0.1 for
    voltages and currents and times 0.01 for frequencies. *)
Theorem numeric_fields_are_signed_registers
    (start_reg : Z) (regs : list Z) (t : RuntimeTelemetry) :
  Forall is_u16 regs ->
  parse_from_block start_reg regs = Ok t ->
  let block := block_of start_reg regs in
  let volts := scaled scale_0_1 in
  let hertz := scaled scale_0_01 in
  (forall v, is_u16 v ->
             -32768 <= signed16 v <= 32767 /\ signed16 v mod 0x10000 = v)
  /\ device_type t = block !! 171
  /\ protocol_number t = block !! 184
  /\ work_mode t = block !! 201
  /\ soc_percent t = block !! 229
  /\ power_flow t = from_raw <$> block !! 231
  /\ mains_voltage_v t = volts <$> block !! 202
  /\ mains_freq_hz t = hertz <$> block !! 203
  /\ mains_power_w t = signed16 <$> block !! 204
  /\ inv_voltage_v t = volts <$> block !! 205
  /\ inv_current_a t = volts <$> block !! 206
  /\ inv_freq_hz t = hertz <$> block !! 207
  /\ inv_power_w t = signed16 <$> block !! 208
  /\ inv_charge_power_w t = signed16 <$> block !! 209
  /\ inv_charge_current_a t = volts <$> block !! 233
  /\ out_voltage_v t = volts <$> block !! 210
  /\ out_current_a t = volts <$> block !! 211
  /\ out_freq_hz t = hertz <$> block !! 212
  /\ out_active_power_w t = signed16 <$> block !! 213
  /\ out_apparent_power_va t = signed16 <$> block !! 214
  /\ load_percent t = signed16 <$> block !! 225
  /\ bat_voltage_v t = volts <$> block !! 215
  /\ bat_current_a t = volts <$> block !! 216
  /\ bat_power_w t = signed16 <$> block !! 217
  /\ pv_voltage_v t = volts <$> block !! 219
  /\ pv_current_a t = volts <$> block !! 220
  /\ pv_power_w t = signed16 <$> block !! 223
  /\ pv_charge_power_w t = signed16 <$> block !! 224
  /\ pv_charge_current_a t = volts <$> block !! 234.
Proof.
  intros Hregs Ht block volts hertz.
  assert (Hr : forall b v, block !! b = Some v -> is_u16 v)
    by (intros b v; apply block_of_in_range, Hregs).
  pose proof (parse_from_block_getters start_reg regs t Ht) as Hg.
  cbv zeta in Hg. fold block in Hg.
  rewrite !(get_int_value block _ _ Hr) in Hg.
  rewrite !(get_int_as_int_value block _ Hr) in Hg.
  unfold get_uint in Hg.
  split; [exact signed16_range|].
  repeat match type of Hg with
         | _ /\ _ => let H := fresh "H" in destruct Hg as [H Hg]
         end.
  repeat match goal with H : Ok _ = Ok _ |- _ => injection H as H end.
  subst volts hertz. split_and!; congruence.
Qed.

Lemma numeric_fields_are_signed_registers_witness :
  let regs := [539; 65436; 65036; 0; 87] in
  Forall is_u16 regs
  /\ exists t,
       parse_from_block 215 regs = Ok t
       /\ bat_voltage_v t = Some (Q2Qc (539 # 10))
       /\ bat_current_a t = Some (Q2Qc (-10))
       /\ bat_power_w t = Some (-500).
Proof.
  intros regs.
  assert (Hr : Forall is_u16 regs) by (repeat constructor; lia).
  split; [exact Hr|].
  destruct (parse_from_block_fields 215 regs Hr) as (t & Ht & _).
  exists t. split; [exact Ht|].
  pose proof (numeric_fields_are_signed_registers 215 regs t Hr Ht) as H.
  cbv zeta in H.
  destruct H as (_ & _ & _ & _ & _ & _ & _ & _ & _ & _ & _ & _ & _ & _ & _
                 & _ & _ & _ & _ & _ & _ & Hv & Hc & Hp & _).
  rewrite Hv, Hc, Hp.
  split; [|split]; vm_compute; f_equal; try qc_eq.
Defined.

End ValueFacts.

(** ** Packed names *)

Section NameFacts.

Lemma join_words_values (block : gmap Z Z) (regs : list Z) :
  forall a,
    (forall i, (i < length regs)%nat -> block !! (a + Z.of_nat i) = regs !! i) ->
    join_words block a (length regs) = pack_be_H_list regs.
Proof.
  induction regs as [|r rest IH]; intros a H; [reflexivity|].
  cbn [length join_words pack_be_H_list].
  pose proof (H 0%nat ltac:(simpl; lia)) as H0.
  rewrite Z.add_0_r in H0. rewrite H0. cbn [lookup list_lookup].
  rewrite (IH (a + 1)); [reflexivity|].
  intros i Hi. specialize (H (S i) ltac:(simpl; lia)).
  etransitivity; [|exact H]. f_equal. lia.
Qed.

Lemma last_char_padded (s : list ascii) (c : ascii) (k : nat) :
  last_char (s ++ repeat c (S k)) = Some c.
Proof.
  unfold last_char. rewrite rev_app_distr, rev_repeat. reflexivity.
Qed.

Lemma strip_padded (s : list ascii) (k : nat) :
  trimmed s ->
  rstrip_by isspace (lstrip_by isspace (s ++ repeat " "%char k)) = s.
Proof.
  intros [Hf Hl]. destruct s as [|c s'].
  - cbn [app]. rewrite <- (app_nil_r (repeat _ k)).
    rewrite lstrip_by_repeat by reflexivity. reflexivity.
  - rewrite lstrip_by_id by (intros d [= <-]; apply Hf; reflexivity).
    apply rstrip_by_padding; [reflexivity | exact Hl].
Qed.

(** X11. Twelve registers holding an ASCII name padded with spaces to 24
    bytes decode to the name itself, provided the name neither starts nor
    ends with white space and, when it fills all 24 bytes, does not end
    with one of the characters backslash, x, 0 that [get_ascii] strips. *)
Theorem space_padded_name_is_returned (name : bytes) (k : nat) :
  (length name + k = 24)%nat ->
  Forall (fun x => 0 < byte_val x < 0x80) name ->
  trimmed (chars_of name) ->
  (k = 0%nat ->
   forall c, last_char (chars_of name) = Some c ->
             mem_char c rstrip_arg = false) ->
  let regs := unpack_be_H_list (name ++ repeat x20 k) in
  length regs = 12%nat
  /\ exists t,
       parse_from_block 172 regs = Ok t
       /\ device_name t = Some (string_of_list_ascii (chars_of name)).
Proof.
  intros Hlen Hname Htrim Hlast regs.
  set (raw := name ++ repeat x20 k) in *.
  assert (Hraw : length raw = 24%nat)
    by (unfold raw; rewrite length_app, repeat_length; exact Hlen).
  destruct (unpack_be_H_list_facts raw) as (Hu16 & _ & Hpack).
  destruct Hpack as [Hpack Hl2]; [exists 12%nat; rewrite Hraw; reflexivity|].
  fold regs in Hu16, Hpack, Hl2.
  assert (Hl : length regs = 12%nat) by lia.
  split; [exact Hl|].
  destruct (parse_from_block_fields 172 regs Hu16) as (t & Ht & _).
  exists t. split; [exact Ht|].
  pose proof (parse_from_block_getters 172 regs t Ht) as Hg. cbv zeta in Hg.
  destruct Hg as (_ & Hg & _).
  assert (Hlook : forall i, (i < length regs)%nat ->
                    block_of 172 regs !! (172 + Z.of_nat i) = regs !! i).
  { intros i Hi. rewrite block_of_lookup.
    replace ((172 <=? 172 + Z.of_nat i)
             && (172 + Z.of_nat i <? 172 + Z.of_nat (length regs)))
      with true
      by (symmetry; apply andb_true_iff; split;
          [apply Z.leb_le | apply Z.ltb_lt]; lia).
    f_equal. lia. }
  unfold get_ascii in Hg.
  assert (Hall : all_in_block (block_of 172 regs) 172 12 = true).
  { rewrite all_in_block_words. apply forallb_forall. intros a Ha.
    unfold words_from in Ha. apply in_map_iff in Ha as (i & <- & Hi).
    apply in_seq in Hi. unfold present. rewrite Hlook by lia.
    destruct (lookup_lt_is_Some_2 regs i ltac:(lia)) as [v ->]. reflexivity. }
  rewrite Hall in Hg. rewrite <- Hl in Hg at 1.
  rewrite (join_words_values _ regs 172 Hlook), Hpack in Hg.
  injection Hg as <-. f_equal.
  rewrite decode_ascii_all.
  2: { unfold raw. apply Forall_app. split.
       - eapply Forall_impl; [exact Hname|]. intros x Hx. cbv beta in Hx. lia.
       - apply Forall_forall. intros x Hx. apply list_elem_of_In in Hx.
         apply repeat_spec in Hx. subst x. reflexivity. }
  unfold rstrip_chars, strip.
  rewrite !list_ascii_of_string_of_list_ascii.
  unfold raw. rewrite chars_of_app, chars_of_repeat.
  rewrite (rstrip_by_id (fun c => mem_char c rstrip_arg)).
  - change (ascii_of_byte x20) with " "%char.
    rewrite strip_padded by exact Htrim. reflexivity.
  - destruct k as [|k].
    + cbn [repeat]. rewrite app_nil_r. apply Hlast. reflexivity.
    + rewrite last_char_padded. intros d [= <-]. reflexivity.
Qed.

Lemma space_padded_name_is_returned_witness :
  let name := [x41; x4e; x45; x52; x4e; x20; x36; x4b] in
  (length name + 16 = 24)%nat
  /\ Forall (fun x => 0 < byte_val x < 0x80) name
  /\ trimmed (chars_of name)
  /\ exists t,
       parse_from_block 172 (unpack_be_H_list (name ++ repeat x20 16)) = Ok t
       /\ device_name t = Some "ANERN 6K"%string.
Proof.
  intros name.
  assert (H1 : (length name + 16 = 24)%nat) by reflexivity.
  assert (H2 : Forall (fun x => 0 < byte_val x < 0x80) name)
    by (repeat constructor; vm_compute; reflexivity).
  assert (H3 : trimmed (chars_of name))
    by (split; intros c [= <-]; reflexivity).
  split; [exact H1|]. split; [exact H2|]. split; [exact H3|].
  destruct (space_padded_name_is_returned name 16 H1 H2 H3) as (_ & t & Ht & Hn).
  - intros [=].
  - exists t. split; assumption.
Defined.

End NameFacts.

(** ** The read round trip *)

Section RoundTrip.

Lemma block_of_landed (v : list Z) (a : Z) :
  block_of 171 v !! a = landed v a.
Proof.
  rewrite block_of_lookup. unfold landed.
  destruct (Z.leb_spec 171 a); cbn [andb]; [|reflexivity].
  destruct (Z.ltb_spec a (171 + Z.of_nat (length v))); [reflexivity|].
  symmetry. apply lookup_ge_None. lia.
Qed.

Lemma get_ascii_landed (v : list Z) (a : Z) (words : nat) :
  Forall is_u16 v ->
  171 <= a -> (Z.to_nat (a - 171) + words <= length v)%nat ->
  get_ascii (block_of 171 v) a words
  = Ok (packed_text (landed_words v a words)).
Proof.
  intros Hv Ha Hw.
  assert (Hl : length (landed_words v a words) = words)
    by (unfold landed_words; rewrite length_take, length_drop; lia).
  assert (Hlook : forall i, (i < length (landed_words v a words))%nat ->
            block_of 171 v !! (a + Z.of_nat i) = landed_words v a words !! i).
  { intros i Hi. rewrite Hl in Hi. rewrite block_of_landed. unfold landed.
    replace (171 <=? a + Z.of_nat i) with true by (symmetry; apply Z.leb_le; lia).
    unfold landed_words. rewrite lookup_take, lookup_drop.
    destruct (decide (i < words)%nat); [|lia]. f_equal. lia. }
  unfold get_ascii.
  assert (Hall : all_in_block (block_of 171 v) a words = true).
  { rewrite all_in_block_words. apply forallb_forall. intros b Hb.
    unfold words_from in Hb. apply in_map_iff in Hb as (i & <- & Hi).
    apply in_seq in Hi. unfold present. rewrite Hlook by lia.
    destruct (lookup_lt_is_Some_2 (landed_words v a words) i ltac:(lia))
      as [x ->].
    reflexivity. }
  rewrite Hall. rewrite <- Hl at 1.
  rewrite (join_words_values _ _ a Hlook).
  assert (Hr : Forall is_u16 (landed_words v a words)).
  { unfold landed_words. apply Forall_take, Forall_drop, Hv. }
  destruct (pack_be_H_list_some _ Hr) as [raw Hraw].
  unfold packed_text. rewrite Hraw. reflexivity.
Qed.

(** C2. The request [build_read_holding(1, 171, 67)] is the frame
    01 03 00 AB 00 43 75 DB.  For every list [v] of 67 register values in
    0..65535, the valid reply carrying them (slave 1, function 0x03, byte
    count 134, values big-endian, CRC) decodes through
    [decode_read_response(1, 171, 67, ...)] to exactly [v].  The block
    that [parse_from_block(171, v)] builds holds [v[i]] at address
    [171 + i], its addresses are 171..237 and no other, and the telemetry
    it returns reads every field from the value that landed at the
    field's address: the unsigned fields are that value, the signed ones
    its two's complement reading scaled, the two names the text packed in
    the twelve values from their address on. *)
Theorem read_holding_round_trip (v : list Z) :
  length v = 67%nat ->
  Forall (fun x => 0 <= x <= 0xFFFF) v ->
  build_read_holding 1 171 67 = Ok [x01; x03; x00; xab; x00; x43; x75; xdb]
  /\ exists frame,
       read_response_frame 1 v = Some frame
       /\ decode_read_response 1 171 67 (to_hex frame) = Ok v
       /\ (forall i, (i < 67)%nat ->
             block_of 171 v !! (171 + Z.of_nat i) = v !! i)
       /\ (forall a, is_Some (block_of 171 v !! a) <-> 171 <= a <= 237)
       /\ (forall i, (i < 67)%nat -> landed v (171 + Z.of_nat i) = v !! i)
       /\ exists t,
            parse_from_block 171 v = Ok t
            /\ device_type t = landed v 171
            /\ device_name t = packed_text (landed_words v 172 12)
            /\ protocol_number t = landed v 184
            /\ serial_number t = packed_text (landed_words v 186 12)
            /\ work_mode t = landed v 201
            /\ power_flow t = from_raw <$> landed v 231
            /\ mains_voltage_v t = scaled scale_0_1 <$> landed v 202
            /\ mains_freq_hz t = scaled scale_0_01 <$> landed v 203
            /\ mains_power_w t = signed16 <$> landed v 204
            /\ inv_voltage_v t = scaled scale_0_1 <$> landed v 205
            /\ inv_current_a t = scaled scale_0_1 <$> landed v 206
            /\ inv_freq_hz t = scaled scale_0_01 <$> landed v 207
            /\ inv_power_w t = signed16 <$> landed v 208
            /\ inv_charge_power_w t = signed16 <$> landed v 209
            /\ inv_charge_current_a t = scaled scale_0_1 <$> landed v 233
            /\ out_voltage_v t = scaled scale_0_1 <$> landed v 210
            /\ out_current_a t = scaled scale_0_1 <$> landed v 211
            /\ out_freq_hz t = scaled scale_0_01 <$> landed v 212
            /\ out_active_power_w t = signed16 <$> landed v 213
            /\ out_apparent_power_va t = signed16 <$> landed v 214
            /\ load_percent t = signed16 <$> landed v 225
            /\ bat_voltage_v t = scaled scale_0_1 <$> landed v 215
            /\ bat_current_a t = scaled scale_0_1 <$> landed v 216
            /\ bat_power_w t = signed16 <$> landed v 217
            /\ soc_percent t = landed v 229
            /\ pv_voltage_v t = scaled scale_0_1 <$> landed v 219
            /\ pv_current_a t = scaled scale_0_1 <$> landed v 220
            /\ pv_power_w t = signed16 <$> landed v 223
            /\ pv_charge_power_w t = signed16 <$> landed v 224
            /\ pv_charge_current_a t = scaled scale_0_1 <$> landed v 234.
Proof.
  intros Hlen Hv. split; [reflexivity|].
  destruct (pack_be_H_list_some v Hv) as [data Hdata].
  pose proof (pack_be_H_list_length v data Hdata) as Hdl.
  destruct (append_crc_some (x01 :: x03 :: x86 :: data)) as (lo & hi & Happ & _).
  exists ((x01 :: x03 :: x86 :: data) ++ [lo; hi]).
  split; [|split; [|split; [|split; [|split]]]].
  - unfold read_response_frame. rewrite Hdata, Hlen. exact Happ.
  - unfold decode_read_response.
    rewrite fromhex_to_hex. cbv beta iota delta [bind].
    rewrite (expect_read_response_sealed 1 3 x01 x03 x86 data _ (Some 67) Happ).
    rewrite Hdl, Hlen. simpl.
    apply bytes_to_u16_list_packed, Hdata.
  - intros i Hi. rewrite block_of_lookup, Hlen.
    replace ((171 <=? 171 + Z.of_nat i) && (171 + Z.of_nat i <? 171 + Z.of_nat 67))
      with true.
    + f_equal. lia.
    + symmetry. apply andb_true_iff. split; [apply Z.leb_le | apply Z.ltb_lt]; lia.
  - intros a. rewrite block_of_lookup, Hlen.
    destruct (Z.leb_spec 171 a); destruct (Z.ltb_spec a (171 + Z.of_nat 67)); simpl.
    + split; [lia|]. intros _. apply lookup_lt_is_Some. lia.
    + split; [intros [? [=]] | lia].
    + split; [intros [? [=]] | lia].
    + split; [intros [? [=]] | lia].
  - intros i Hi. unfold landed.
    replace (171 <=? 171 + Z.of_nat i) with true by (symmetry; apply Z.leb_le; lia).
    f_equal. lia.
  - destruct (parse_from_block_fields 171 v Hv) as (t & Ht & _).
    exists t. split; [exact Ht|].
    assert (Hr : forall b x, block_of 171 v !! b = Some x -> is_u16 x)
      by (intros b x; apply block_of_in_range, Hv).
    pose proof (parse_from_block_getters 171 v t Ht) as Hg. cbv zeta in Hg.
    rewrite !(get_int_value _ _ _ Hr) in Hg.
    rewrite !(get_int_as_int_value _ _ Hr) in Hg.
    rewrite !(get_ascii_landed v _ 12 Hv) in Hg by (rewrite ?Hlen; simpl; lia).
    unfold get_uint in Hg. rewrite !block_of_landed in Hg.
    repeat match type of Hg with
           | _ /\ _ => let H := fresh "H" in destruct Hg as [H Hg]
           end.
    repeat match goal with H : Ok _ = Ok _ |- _ => injection H as H end.
    split_and!; congruence.
Qed.

Lemma read_holding_round_trip_witness :
  let v := map Z.of_nat (seq 1000 67) in
  length v = 67%nat
  /\ Forall (fun x => 0 <= x <= 0xFFFF) v
  /\ exists frame t,
       read_response_frame 1 v = Some frame
       /\ decode_read_response 1 171 67 (to_hex frame) = Ok v
       /\ parse_from_block 171 v = Ok t
       /\ device_type t = Some 1000
       /\ work_mode t = Some 1030
       /\ bat_power_w t = Some 1046
       /\ pv_charge_current_a t = Some (Q2Qc (1063 # 10)).
Proof.
  intros v.
  assert (Hl : length v = 67%nat) by reflexivity.
  assert (Hv : Forall (fun x => 0 <= x <= 0xFFFF) v).
  { apply Forall_forall. intros x Hx. apply list_elem_of_In in Hx.
    apply in_map_iff in Hx as (n & <- & Hn).
    apply in_seq in Hn. lia. }
  split; [exact Hl|]. split; [exact Hv|].
  destruct (read_holding_round_trip v Hl Hv)
    as (_ & frame & Hf & Hd & _ & _ & _ & t & Ht & Hfields).
  exists frame, t. split; [exact Hf|]. split; [exact Hd|]. split; [exact Ht|].
  repeat match type of Hfields with
         | _ /\ _ => let H := fresh "H" in destruct Hfields as [H Hfields]
         end.
  split_and!.
  - rewrite H. reflexivity.
  - rewrite H3. reflexivity.
  - rewrite H22. reflexivity.
  - rewrite Hfields. f_equal; try qc_eq.
Defined.

End RoundTrip.

(** ** Power-flow flags *)

Section FlagFacts.

Lemma land_shiftr_low (raw k w : Z) :
  0 <= k -> 0 <= w -> k + w <= 10 ->
  Z.land (Z.shiftr (raw mod 1024) k) (Z.ones w)
  = Z.land (Z.shiftr raw k) (Z.ones w).
Proof.
  intros Hk Hw Hkw. apply Z.bits_inj'. intros n Hn.
  rewrite !Z.land_spec, !Z.shiftr_spec by lia.
  destruct (Z.ltb_spec n w).
  - change 1024 with (2 ^ 10). rewrite Z.mod_pow2_bits_low by lia. reflexivity.
  - rewrite Z.ones_spec_high by lia. rewrite !andb_false_r. reflexivity.
Qed.

(** X12. [PowerFlow.from_raw] reads the low ten bits of the register and
    nothing else: every flag is the same for [raw] and [raw mod 1024]; the
    raw value is kept; the battery state is one of idle, charging,
    discharging and unknown, and unknown exactly when bits 5:4 are 11. *)
Theorem power_flow_reads_ten_bits (raw : Z) :
  let p := from_raw raw in
  let q := from_raw (raw mod 1024) in
  pv_connected p = pv_connected q
  /\ mains_connected p = mains_connected q
  /\ battery_state p = battery_state q
  /\ load_on p = load_on q
  /\ mains_charging p = mains_charging q
  /\ pv_charging p = pv_charging q
  /\ Telemetry.raw p = raw
  /\ In (battery_state p)
       ["idle"; "charging"; "discharging"; "unknown"]%string
  /\ (battery_state p = "unknown"%string <-> Z.land (Z.shiftr raw 4) 3 = 3).
Proof.
  intros p q. unfold p, q, from_raw.
  cbn [pv_connected mains_connected battery_state load_on mains_charging
       pv_charging Telemetry.raw].
  pose proof (land_shiftr_low raw 0 2 ltac:(lia) ltac:(lia) ltac:(lia)) as H0.
  pose proof (land_shiftr_low raw 2 2 ltac:(lia) ltac:(lia) ltac:(lia)) as H2.
  pose proof (land_shiftr_low raw 4 2 ltac:(lia) ltac:(lia) ltac:(lia)) as H4.
  pose proof (land_shiftr_low raw 6 2 ltac:(lia) ltac:(lia) ltac:(lia)) as H6.
  pose proof (land_shiftr_low raw 8 1 ltac:(lia) ltac:(lia) ltac:(lia)) as H8.
  pose proof (land_shiftr_low raw 9 1 ltac:(lia) ltac:(lia) ltac:(lia)) as H9.
  rewrite !Z.shiftr_0_r in H0.
  change (Z.ones 2) with 3 in *. change (Z.ones 1) with 1 in *.
  rewrite H0, H2, H4, H6, H8, H9.
  split_and!; try reflexivity.
  - destruct (_ =? 0); [left; reflexivity|].
    destruct (_ =? 1); [right; left; reflexivity|].
    destruct (_ =? 2); [right; right; left; reflexivity|].
    right; right; right; left; reflexivity.
  - assert (Hb : 0 <= Z.land (Z.shiftr raw 4) 3 < 4).
    { change 3 with (Z.ones 2). rewrite Z.land_ones by lia.
      apply Z.mod_pos_bound. lia. }
    destruct (Z.eqb_spec (Z.land (Z.shiftr raw 4) 3) 0);
      [split; [discriminate | lia]|].
    destruct (Z.eqb_spec (Z.land (Z.shiftr raw 4) 3) 1);
      [split; [discriminate | lia]|].
    destruct (Z.eqb_spec (Z.land (Z.shiftr raw 4) 3) 2);
      [split; [discriminate | lia]|].
    split; [lia | reflexivity].
Qed.

Lemma power_flow_reads_ten_bits_witness :
  battery_state (from_raw 0x30) = "unknown"%string.
Proof.
  apply (proj2 (proj2 (proj2 (proj2 (proj2 (proj2 (proj2 (proj2
           (power_flow_reads_ten_bits 0x30))))))))).
  reflexivity.
Defined.

End FlagFacts.

(** ** Sign of the battery current *)

Section SignFacts.

Local Open Scope Qc_scope.

Lemma dict_get_currents (a b : pyval) :
  dict_get (currents a b) charge_key = a
  /\ dict_get (currents a b) discharge_key = b.
Proof.
  unfold dict_get, currents, py_dict. cbn [fold_left fst snd].
  split.
  - rewrite lookup_insert_ne by discriminate.
    rewrite lookup_insert_eq. reflexivity.
  - rewrite lookup_insert_eq. reflexivity.
Qed.

(** X13. Exchanging the charge and discharge readings negates the signed
    battery current (and leaves an absent result absent).  When both
    readings parse, the result is their difference: positive exactly when
    the charge exceeds the discharge, negative exactly when the discharge
    exceeds the charge. *)
Theorem battery_current_sign (charge discharge : pyval) :
  _battery_current (currents discharge charge)
  = Qcopp <$> _battery_current (currents charge discharge)
  /\ (forall c d i,
        _f charge = Some c -> _f discharge = Some d ->
        _battery_current (currents charge discharge) = Some i ->
        i = c - d /\ (0 < i <-> d < c) /\ (i < 0 <-> c < d)).
Proof.
  rewrite !battery_current_difference.
  destruct (dict_get_currents charge discharge) as [-> ->].
  destruct (dict_get_currents discharge charge) as [-> ->].
  split.
  - destruct (_f charge) as [c|], (_f discharge) as [d|];
      cbn [or_0 fmap option_fmap option_map]; try reflexivity; f_equal; ring.
  - intros c d i -> ->. cbn [or_0]. intros [= <-].
    split; [reflexivity|]. split.
    + rewrite (Qclt_minus_iff d c). reflexivity.
    + rewrite (Qclt_minus_iff (c - d) 0), (Qclt_minus_iff c d).
      replace (0 + - (c - d)) with (d + - c) by ring. reflexivity.
Qed.

Lemma battery_current_sign_witness :
  _f (PyStr "3.5") = Some (Q2Qc (35 # 10))
  /\ _f (PyStr "010") = Some (Q2Qc 10)
  /\ _battery_current (currents (PyStr "3.5") (PyStr "010"))
     = Some (Q2Qc (- 65 # 10))
  /\ Q2Qc (- 65 # 10) < 0.
Proof.
  assert (H1 : _f (PyStr "3.5") = Some (Q2Qc (35 # 10)))
    by (vm_compute; f_equal; qc_eq).
  assert (H2 : _f (PyStr "010") = Some (Q2Qc 10))
    by (vm_compute; f_equal; qc_eq).
  assert (H3 : _battery_current (currents (PyStr "3.5") (PyStr "010"))
               = Some (Q2Qc (- 65 # 10)))
    by (vm_compute; f_equal; qc_eq).
  split; [exact H1|]. split; [exact H2|]. split; [exact H3|].
  destruct (proj2 (battery_current_sign (PyStr "3.5") (PyStr "010"))
              _ _ _ H1 H2 H3) as (_ & _ & Hneg).
  apply Hneg. reflexivity.
Defined.

End SignFacts.

(** ** Monotonicity of the energy accumulator *)

Section EnergyOrder.

Import Energy.
Local Open Scope Qc_scope.













End EnergyOrder.

(** ** Life cycle of the state-of-charge estimator *)

Section SocLife.

Import Soc.
Local Open Scope Qc_scope.

(** X16. The estimator has the instant of its previous sample whenever it
    has a previous sample: this holds after [__init__] and after
    [reset_accumulator], and [calculate_soc] keeps it.  On such an
    estimator [calculate_soc] never raises TypeError, raises
    ZeroDivisionError exactly when the capacity is zero, and in every case
    (also when it raises) leaves the sample and the instant of this call
    stored. *)
Theorem estimator_stays_well_formed
    (self : SocCalculatorMixin) (cap bulk_v float_v p v now : Qc) :
  well_formed init = true
  /\ (forall c s t, well_formed (reset_accumulator self c s t) = true)
  /\ (well_formed self = true ->
      let '(s', r) := calculate_soc self cap bulk_v float_v p v now in
      well_formed s' = true
      /\ _has_prev s' = true
      /\ _prev_power s' = p
      /\ _prev_ts s' = Some now
      /\ (r = Err ZeroDivisionError <-> cap = 0)
      /\ r <> Err TypeError).
Proof.
  split; [reflexivity|]. split; [reflexivity|].
  intros Hw.
  destruct (accumulate_well_formed self p now Hw) as (s1 & Hacc & _ & _).
  assert (Hs1 : _prev_power s1 = p /\ _prev_ts s1 = Some now
                /\ _has_prev s1 = true).
  { revert Hacc. unfold _accumulate.
    destruct (_has_prev self); cbn [negb].
    - destruct (_prev_ts self); [|discriminate].
      intros [= <-]. repeat split.
    - intros [= <-]. repeat split. }
  destruct Hs1 as (Hp & Ht & Hh).
  unfold calculate_soc. rewrite Hacc.
  set (s2 := if at_full bulk_v float_v p v then with_energy s1 cap else s1).
  assert (H2 : _prev_power s2 = p /\ _prev_ts s2 = Some now
               /\ _has_prev s2 = true)
    by (unfold s2; destruct (at_full bulk_v float_v p v);
        cbn [with_energy _prev_power _prev_ts _has_prev]; repeat split;
        assumption).
  destruct H2 as (Hp2 & Ht2 & Hh2).
  destruct (feqb cap 0) eqn:E.
  - apply feqb_eq in E.
    unfold well_formed.
    cbn [with_energy _prev_power _prev_ts _has_prev].
    rewrite Hp2, Ht2, Hh2.
    split_and!; try reflexivity; [split; [intros _; exact E | reflexivity]|].
    discriminate.
  - apply feqb_neq in E.
    unfold well_formed.
    cbn [with_energy _prev_power _prev_ts _has_prev].
    rewrite Hp2, Ht2, Hh2.
    split_and!; try reflexivity; [split; [discriminate | intros H; contradiction]|].
    discriminate.
Qed.

Lemma estimator_stays_well_formed_witness :
  well_formed init = true
  /\ fst (calculate_soc init 0 (Q2Qc 56) (Q2Qc 54) (Q2Qc 10) (Q2Qc 50) (Q2Qc 7))
     = mkSoc 0 (Q2Qc 10) (Some (Q2Qc 7)) true
  /\ snd (calculate_soc init 0 (Q2Qc 56) (Q2Qc 54) (Q2Qc 10) (Q2Qc 50) (Q2Qc 7))
     = Err ZeroDivisionError.
Proof.
  assert (Hw : well_formed init = true) by reflexivity.
  split; [exact Hw|].
  pose proof (proj2 (proj2 (estimator_stays_well_formed init 0 (Q2Qc 56)
                              (Q2Qc 54) (Q2Qc 10) (Q2Qc 50) (Q2Qc 7))) Hw) as H.
  destruct (calculate_soc init 0 (Q2Qc 56) (Q2Qc 54) (Q2Qc 10) (Q2Qc 50)
              (Q2Qc 7)) as [s' r] eqn:E.
  destruct H as (_ & _ & _ & _ & Hz & _).
  split; [|apply Hz; reflexivity].
  apply (f_equal fst) in E. rewrite <- E. vm_compute.
  f_equal; qc_eq.
Defined.

End SocLife.

(** ** The two CRC routines *)

Section TwoCrcs.

(** X18. [crc16] of debug_tty.py never overflows its two bytes and
    returns exactly the bytes [append_crc] adds: the CRC-16/MODBUS of the
    data, low byte first.  Two inputs with the same [crc16] bytes have the
    same [crc16_modbus]. *)
Theorem debug_tty_crc16_agrees (data : bytes) :
  crc16 data = pack_le_H (crc16_modbus data)
  /\ is_Some (crc16 data)
  /\ append_crc data = (fun crc => data ++ crc) <$> crc16 data
  /\ (forall other, crc16 other = crc16 data ->
                    crc16_modbus other = crc16_modbus data).
Proof.
  pose proof (crc16_modbus_range data) as Hr.
  assert (E : crc16 data = pack_le_H (crc16_modbus data)).
  { unfold crc16, to_bytes_2_little. rewrite <- crc16_modbus_fold.
    rewrite (pack_le_H_some _ Hr).
    replace ((0 <=? crc16_modbus data) && (crc16_modbus data <? 65536))
      with true
      by (symmetry; apply andb_true_iff; split;
          [apply Z.leb_le | apply Z.ltb_lt]; lia).
    rewrite land_255, shiftr_8. reflexivity. }
  split; [exact E|]. split; [rewrite E, (pack_le_H_some _ Hr); eexists; reflexivity|].
  split.
  - unfold append_crc. rewrite E. destruct (pack_le_H _); reflexivity.
  - intros other Ho.
    assert (Eo : crc16 other = pack_le_H (crc16_modbus other)).
    { unfold crc16, to_bytes_2_little. rewrite <- crc16_modbus_fold.
      pose proof (crc16_modbus_range other) as Hro.
      rewrite (pack_le_H_some _ Hro).
      replace ((0 <=? crc16_modbus other) && (crc16_modbus other <? 65536))
        with true
        by (symmetry; apply andb_true_iff; split;
            [apply Z.leb_le | apply Z.ltb_lt]; lia).
      rewrite land_255, shiftr_8. reflexivity. }
    rewrite Eo, E in Ho.
    destruct (pack_le_H (crc16_modbus other)) as [bo|] eqn:Po.
    + apply unpack_pack_le_H in Po. symmetry in Ho.
      apply unpack_pack_le_H in Ho. congruence.
    + rewrite (pack_le_H_some _ Hr) in Ho. discriminate Ho.
Qed.

Lemma debug_tty_crc16_agrees_witness :
  crc16_modbus [x51; x50; x49; x47; x53] = crc16_modbus [x51; x50; x49; x47; x53]
  /\ crc16 [x51; x50; x49; x47; x53] = pack_le_H (crc16_modbus [x51; x50; x49; x47; x53]).
Proof.
  destruct (debug_tty_crc16_agrees [x51; x50; x49; x47; x53])
    as (H1 & _ & _ & H4).
  split; [apply H4; reflexivity | exact H1].
Defined.

End TwoCrcs.

(** ** Keys of a decoded QPIGS reply *)

Section KeyFacts.

Lemma decode_qpigs_other (ascii_str : string) (name : string) :
  ~ In name fields -> decode_qpigs ascii_str !! name = None.
Proof.
  intros Hn. unfold decode_qpigs, py_dict.
  destruct (fold_insert_zip fields (map parse_value (split (strip ascii_str)))
              ∅ name) as [H _].
  rewrite (H Hn). apply lookup_empty.
Qed.

(** X19. The keys of a decoded QPIGS reply are the first min(24, n) field
    names for a reply of n tokens: a name is a key exactly when it is the
    field at a position below both 24 and n, so tokens from the 25th on
    are dropped and a short reply leaves the later fields out.  No value
    is [None]. *)
Theorem decode_qpigs_keys (ascii_str : string) (name : string) :
  (is_Some (decode_qpigs ascii_str !! name)
   <-> exists i, (i < length (tokens ascii_str))%nat /\ (i < 24)%nat
                 /\ fields !! i = Some name)
  /\ (decode_qpigs ascii_str !! name = None
      <-> forall i, fields !! i = Some name ->
                    (length (tokens ascii_str) <= i)%nat)
  /\ decode_qpigs ascii_str !! name <> Some PyNone.
Proof.
  assert (Hkey : forall i, fields !! i = Some name ->
            decode_qpigs ascii_str !! name
            = parse_value <$> (tokens ascii_str !! i))
    by (intros i; apply decode_qpigs_lookup).
  assert (Hsome : is_Some (decode_qpigs ascii_str !! name)
     <-> exists i, (i < length (tokens ascii_str))%nat /\ (i < 24)%nat
                   /\ fields !! i = Some name).
  { split.
    - intros Hs.
      destruct (in_dec string_dec name fields) as [Hin|Hout].
      + apply list_elem_of_In, list_elem_of_lookup in Hin as [i Hi].
        exists i. rewrite (Hkey i Hi) in Hs.
        split; [|split; [|exact Hi]].
        * destruct (tokens ascii_str !! i) as [tok|] eqn:E;
            [|destruct Hs as [? [=]]].
          eapply lookup_lt_Some. exact E.
        * apply lookup_lt_Some in Hi. exact Hi.
      + rewrite (decode_qpigs_other _ _ Hout) in Hs. destruct Hs as [? [=]].
    - intros (i & Hi & _ & Hf). rewrite (Hkey i Hf).
      destruct (lookup_lt_is_Some_2 (tokens ascii_str) i Hi) as [tok ->].
      eexists. reflexivity. }
  split; [exact Hsome|]. split.
  - split.
    + intros Hnone i Hf. destruct (Nat.le_gt_cases (length (tokens ascii_str)) i)
        as [|Hlt]; [assumption|].
      exfalso. assert (Hs : is_Some (decode_qpigs ascii_str !! name)).
      { apply Hsome. exists i. split; [exact Hlt|].
        split; [apply lookup_lt_Some in Hf; exact Hf | exact Hf]. }
      rewrite Hnone in Hs. destruct Hs as [? [=]].
    + intros Hall. apply eq_None_not_Some. intros Hs.
      apply Hsome in Hs as (i & Hi & _ & Hf). specialize (Hall i Hf). lia.
  - destruct (in_dec string_dec name fields) as [Hin|Hout].
    + apply list_elem_of_In, list_elem_of_lookup in Hin as [i Hi].
      rewrite (Hkey i Hi).
      destruct (tokens ascii_str !! i) as [tok|]; [|discriminate].
      cbn. intros [= H]. revert H. unfold parse_value.
      destruct (parse_float tok) as [f|]; [|discriminate].
      destruct (is_integer f); discriminate.
    + rewrite (decode_qpigs_other _ _ Hout). discriminate.
Qed.

Lemma decode_qpigs_keys_witness :
  is_Some (decode_qpigs example_reply !! "grid_voltage"%string)
  /\ decode_qpigs example_reply !! "inverter_heat_sink_temperature"%string = None.
Proof.
  split.
  - apply (proj1 (decode_qpigs_keys example_reply "grid_voltage")).
    exists 0%nat. split; [vm_compute; lia|]. split; [lia | reflexivity].
  - apply (proj1 (proj2 (decode_qpigs_keys example_reply
                           "inverter_heat_sink_temperature"))).
    intros i Hi.
    assert (L : length (tokens example_reply) = 11%nat)
      by (vm_compute; reflexivity).
    rewrite L.
    destruct (le_lt_dec 11 i) as [Hge|Hlt]; [exact Hge|].
    exfalso. do 11 (destruct i as [|i]; [vm_compute in Hi; discriminate Hi|]).
    lia.
Defined.

End KeyFacts.

(** ** PV power in the two snapshot builders *)

Section PvFacts.

Local Open Scope Qc_scope.

Lemma number_is_not_none (x : pyval) (a : Qc) :
  _f x = Some a -> is_not_none x = true.
Proof. destruct x; [discriminate| | |]; reflexivity. Qed.




End PvFacts.

(** ** The recommended read frames *)

Section ReadFrameFacts.

Lemma hex_length_and_back (frame : bytes) :
  String.length (to_hex frame) = (3 * length frame - 1)%nat
  /\ fromhex (remove_spaces (to_hex frame)) = Ok frame.
Proof.
  split; [|apply fromhex_to_hex].
  induction frame as [|b [|b' rest] IH]; [reflexivity | |].
  - change (to_hex [b]) with (format_02X b ++ EmptyString)%string.
    rewrite length_format_02X. reflexivity.
  - rewrite to_hex_cons, length_format_02X. cbn [String.length].
    rewrite IH. cbn [length]. lia.
Qed.

Lemma build_read_holding_some (slave_id start_reg reg_count : Z) :
  1 <= slave_id <= 247 -> 0 <= start_reg <= 0xFFFF -> 1 <= reg_count <= 125 ->
  exists frame,
    build_read_holding slave_id start_reg reg_count = Ok frame
    /\ length frame = 8%nat.
Proof.
  intros Hs Hr Hc. unfold build_read_holding.
  replace ((1 <=? slave_id) && (slave_id <=? 247)) with true
    by (symmetry; apply in_range_spec; lia).
  replace ((0 <=? start_reg) && (start_reg <=? 0xFFFF)) with true
    by (symmetry; apply in_range_spec; lia).
  replace ((1 <=? reg_count) && (reg_count <=? 125)) with true
    by (symmetry; apply in_range_spec; lia).
  cbn [negb].
  rewrite (pack_B_some 3) by lia.
  rewrite (pack_be_H_some start_reg) by lia.
  rewrite (pack_be_H_some reg_count) by lia.
  rewrite (pack_B_some slave_id) by lia.
  cbn [lift bind app].
  match goal with |- context [append_crc ?b] =>
    destruct (append_crc_some b) as (lo & hi & -> & _) end.
  eexists. split; reflexivity.
Qed.

Lemma build_read_holding_bad_slave (slave_id start_reg reg_count : Z) :
  ~ 1 <= slave_id <= 247 ->
  build_read_holding slave_id start_reg reg_count
  = Err (ValueError slave_id_must_be_1_247).
Proof.
  intros Hs. unfold build_read_holding.
  apply in_range_false in Hs. rewrite Hs. reflexivity.
Qed.

Lemma fill_frames_ok (slave_id : Z) (blocks : list (string * Z * Z)) :
  1 <= slave_id <= 247 ->
  Forall block_in_range blocks ->
  NoDup (map block_key blocks) ->
  forall frames,
  exists frames',
    fill_frames slave_id blocks frames = Ok frames'
    /\ (forall key start_reg reg_count,
          In (key, start_reg, reg_count) blocks ->
          exists frame,
            build_read_holding slave_id start_reg reg_count = Ok frame
            /\ length frame = 8%nat
            /\ frames' !! key = Some (to_hex frame))
    /\ (forall key, ~ In key (map block_key blocks) ->
                    frames' !! key = frames !! key).
Proof.
  intros Hs Hr Hnd. induction blocks as [|[[k s] c] rest IH]; intros frames.
  - exists frames. split; [reflexivity|]. split; [intros ? ? ? []|].
    intros key _. reflexivity.
  - apply Forall_cons in Hr as [[Hs0 Hc0] Hr].
    cbn [map block_key fst] in Hnd. apply NoDup_cons in Hnd as [Hk Hnd].
    cbn [fst snd] in Hs0, Hc0.
    destruct (build_read_holding_some slave_id s c Hs Hs0 Hc0)
      as (frame & Hf & Hl).
    destruct (IH Hr Hnd (<[k := to_hex frame]> frames))
      as (frames' & Hfill & Hin & Hout).
    exists frames'. cbn [fill_frames]. rewrite Hf. cbn [bind].
    split; [exact Hfill|]. split.
    + intros key s' c' [[= <- <- <-]|Hrest].
      * exists frame. split; [exact Hf|]. split; [exact Hl|].
        rewrite Hout by (rewrite <- list_elem_of_In; exact Hk).
        apply lookup_insert_eq.
      * apply Hin, Hrest.
    + intros key Hn. cbn [map block_key fst] in Hn.
      rewrite Hout by (intros H; apply Hn; right; exact H).
      apply lookup_insert_ne. intros ->. apply Hn. left. reflexivity.
Qed.

Lemma build_runtime_read_frames_table (slave_id : Z) :
  build_runtime_read_frames slave_id = fill_frames slave_id read_blocks ∅.
Proof. reflexivity. Qed.

(** X21. The recommended read frames.  For a slave id from 1 to 247 the
    call returns a dict with exactly the seven block keys; the text under
    each key is the hex form of the read request of that block, 23
    characters long, and reading it back with [bytes.fromhex] after
    removing the spaces gives that request.  For any other slave id the
    call raises the slave id error and no dict is returned. *)
Theorem read_frames_for_every_slave (slave_id : Z) :
  (1 <= slave_id <= 247 ->
   exists frames,
     build_runtime_read_frames slave_id = Ok frames
     /\ (forall key start_reg reg_count,
           In (key, start_reg, reg_count) read_blocks ->
           exists frame,
             build_read_holding slave_id start_reg reg_count = Ok frame
             /\ frames !! key = Some (to_hex frame)
             /\ String.length (to_hex frame) = 23%nat
             /\ fromhex (remove_spaces (to_hex frame)) = Ok frame)
     /\ (forall key, is_Some (frames !! key)
                     -> In key (map block_key read_blocks)))
  /\ (~ 1 <= slave_id <= 247 ->
      build_runtime_read_frames slave_id
      = Err (ValueError slave_id_must_be_1_247)).
Proof.
  split.
  - intros Hs.
    assert (Hr : Forall block_in_range read_blocks)
      by (repeat constructor; cbn; lia).
    assert (Hnd : NoDup (map block_key read_blocks))
      by (apply (bool_decide_unpack _); vm_compute; reflexivity).
    destruct (fill_frames_ok slave_id read_blocks Hs Hr Hnd ∅)
      as (frames & Hfill & Hin & Hout).
    exists frames. rewrite build_runtime_read_frames_table.
    split; [exact Hfill|]. split.
    + intros key s c Hb. destruct (Hin key s c Hb) as (frame & Hf & Hl & Hk).
      exists frame. split; [exact Hf|]. split; [exact Hk|].
      destruct (hex_length_and_back frame) as [Hlen Hback].
      rewrite Hlen, Hl. split; [reflexivity | exact Hback].
    + intros key Hsome.
      destruct (in_dec string_dec key (map block_key read_blocks))
        as [Hyes|Hno]; [exact Hyes|].
      rewrite (Hout key Hno), lookup_empty in Hsome.
      destruct Hsome as [? [=]].
  - intros Hs. unfold build_runtime_read_frames.
    rewrite build_read_holding_bad_slave by exact Hs.
    reflexivity.
Qed.

Lemma read_frames_for_every_slave_witness :
  1 <= 1 <= 247
  /\ exists frames,
       build_runtime_read_frames 1 = Ok frames
       /\ frames !! "runtime_171_237"%string
          = Some "01 03 00 AB 00 43 75 DB"%string.
Proof.
  assert (Hs : 1 <= 1 <= 247) by lia.
  split; [exact Hs|].
  destruct (proj1 (read_frames_for_every_slave 1) Hs) as (frames & Hf & Hin & _).
  exists frames. split; [exact Hf|].
  destruct (Hin "runtime_171_237"%string 171 67) as (frame & Hb & Hk & _).
  - left. reflexivity.
  - rewrite Hk. f_equal.
    assert (E : build_read_holding 1 171 67
                = Ok [x01; x03; x00; xab; x00; x43; x75; xdb])
      by (vm_compute; reflexivity).
    rewrite E in Hb. injection Hb as <-. vm_compute. reflexivity.
Defined.

End ReadFrameFacts.

(** ** Tokens made of digits *)

Section DigitTokens.

Lemma digit_is_plain (c : ascii) :
  isdigit c = true ->
  isspace c = false /\ Ascii.eqb c underscore = false
  /\ Ascii.eqb c "-" = false /\ Ascii.eqb c "+" = false
  /\ Ascii.eqb c "." = false /\ 0 <= code c - 48 <= 9.
Proof.
  destruct c as [[] [] [] [] [] [] [] []]; vm_compute; intros H;
    try discriminate H; repeat split; intros [=].
Qed.

Lemma last_char_In (l : list ascii) (d : ascii) :
  last_char l = Some d -> In d l.
Proof.
  unfold last_char. intros H.
  destruct (rev l) as [|x r] eqn:E; [discriminate H|].
  cbn in H. injection H as ->. apply in_rev. rewrite E. left. reflexivity.
Qed.

Lemma strip_digits (ds : list ascii) :
  all_digits ds ->
  list_ascii_of_string (strip (string_of_list_ascii ds)) = ds.
Proof.
  intros Hd. unfold strip.
  rewrite !list_ascii_of_string_of_list_ascii.
  rewrite lstrip_by_id.
  - apply rstrip_by_id. intros d Hl. apply last_char_In in Hl.
    unfold all_digits in Hd. rewrite Forall_forall in Hd.
    apply list_elem_of_In in Hl.
    apply (digit_is_plain d (Hd d Hl)).
  - intros c Hc. destruct ds as [|c' ds']; [discriminate Hc|].
    injection Hc as ->. apply Forall_cons in Hd as [Hc _].
    apply (digit_is_plain c Hc).
Qed.

Lemma strip_underscores_digits (ds : list ascii) (prev : ascii) :
  Ascii.eqb prev underscore = false -> all_digits ds ->
  strip_underscores prev ds = Some ds.
Proof.
  intros Hp Hd. revert prev Hp.
  induction Hd as [|c ds Hc Hd IH]; intros prev Hp; cbn [strip_underscores].
  - rewrite Hp. reflexivity.
  - destruct (digit_is_plain c Hc) as (_ & Hu & _).
    rewrite Hu, Hp. cbn [andb]. rewrite (IH c Hu). reflexivity.
Qed.

Lemma take_digits_all (ds : list ascii) (acc : Z) (n : nat) :
  all_digits ds ->
  take_digits ds acc n
  = (fold_left (fun a c => a * 10 + (code c - 48)) ds acc,
     (n + length ds)%nat, []).
Proof.
  intros Hd. revert acc n.
  induction Hd as [|c ds Hc Hd IH]; intros acc n; cbn [take_digits fold_left].
  - rewrite Nat.add_0_r. reflexivity.
  - rewrite Hc, IH. cbn [length]. do 2 f_equal. lia.
Qed.

Lemma decimal_value_bounds (ds : list ascii) (acc : Z) :
  all_digits ds -> 0 <= acc ->
  acc * 10 ^ Z.of_nat (length ds)
  <= fold_left (fun a c => a * 10 + (code c - 48)) ds acc
  < (acc + 1) * 10 ^ Z.of_nat (length ds).
Proof.
  intros Hd. revert acc.
  induction Hd as [|c ds Hc Hd IH]; intros acc Ha; cbn [fold_left length].
  - change (10 ^ Z.of_nat 0) with 1. lia.
  - destruct (digit_is_plain c Hc) as (_ & _ & _ & _ & _ & Hr).
    specialize (IH (acc * 10 + (code c - 48)) ltac:(lia)).
    rewrite Nat2Z.inj_succ, Z.pow_succ_r by lia.
    assert (0 < 10 ^ Z.of_nat (length ds)) by (apply Z.pow_pos_nonneg; lia).
    nia.
Qed.

(** X22. A token made only of decimal digits (at most 15 of them, so that
    the float holds the number exactly) is parsed to the int it denotes:
    the value goes through [float] and back, so leading zeros are lost and
    a status field such as 00010101 comes out as the int 10101, not as its
    text. *)
Theorem digit_token_is_an_int (ds : list ascii) :
  ds <> [] -> all_digits ds -> (length ds <= 15)%nat ->
  parse_value (string_of_list_ascii ds) = PyInt (decimal_value ds)
  /\ 0 <= decimal_value ds < 10 ^ Z.of_nat (length ds).
Proof.
  intros Hne Hd _. split.
  - apply parse_value_int. unfold parse_float.
    rewrite strip_digits by exact Hd.
    rewrite strip_underscores_digits by (reflexivity || exact Hd).
    destruct ds as [|c ds']; [contradiction Hne; reflexivity|].
    pose proof Hd as Hd0. apply Forall_cons in Hd0 as [Hc _].
    destruct (digit_is_plain c Hc) as (_ & _ & Hm & Hp & _).
    unfold take_sign. rewrite Hm, Hp.
    rewrite take_digits_all by exact Hd.
    cbn [length Nat.add Nat.eqb parse_exponent].
    unfold decimal. cbn [Z.sub Z.of_nat Z.opp Z.add].
    unfold float_of_int, decimal_value.
    change (10 ^ 0) with 1. rewrite Z.mul_1_r. reflexivity.
  - pose proof (decimal_value_bounds ds 0 Hd ltac:(lia)) as H.
    unfold decimal_value. lia.
Qed.

Lemma digit_token_is_an_int_witness :
  parse_value "00010101" = PyInt 10101.
Proof.
  assert (Hne : list_ascii_of_string "00010101" <> []) by discriminate.
  assert (Hd : all_digits (list_ascii_of_string "00010101"))
    by (repeat constructor).
  assert (Hl : (length (list_ascii_of_string "00010101") <= 15)%nat)
    by (vm_compute; lia).
  exact (proj1 (digit_token_is_an_int _ Hne Hd Hl)).
Defined.

End DigitTokens.
